(** * The column-transform pipelines of solid_principles_python

    A shallow embedding of the preprocessing scripts (code_with_solid.py,
    simple_code.py and the files under solid_principles/) and of the
    pandas, numpy and scikit-learn operations they call, followed by the
    properties of the transforms and of the pipelines.

    Numbers.  A float64 is idealised as an exact real number, extended with
    the two infinities and nan: rounding and overflow are not modelled, the
    special values are, because division by a zero standard deviation
    produces them.  Integers (the codes of the label encoder) are [Z].

    Scope.  The library calls are modelled within these limits, and the
    statements below are to be read within them:
    - arithmetic is exact, so a statement about computed numbers holds of
      float64 up to rounding and in the absence of overflow; where a
      statement would be false under rounding it is worded on the computed
      mean and deviation themselves;
    - a table has the default row index 0 .. R-1 (the scripts never set an
      index): rows are paired by position.  A file stored with another
      index, on which [pd.concat] and [pd.DataFrame] would align and pad,
      is outside the model;
    - [df[label]] on a label borne by several columns is not modelled
      (pandas answers a sub-table there): the model stops with
      [DuplicateLabel], and the statements that depend on it assume the
      label occurs once;
    - the writer checks the labels only: that the parquet engine also
      wants every column of one type is a hypothesis ([storable]) of the
      statements about a successful write. *)

From Stdlib Require Import List String Ascii Bool ZArith Reals Lra Lia.
From Stdlib Require Import Permutation.
From Stdlib Require OrderedTypeEx.
Import ListNotations.

(* ================================================================== *)
(** ** Values *)

(** A float64, idealised. *)
Inductive float : Type :=
| Fin (x : R)
| PInf
| NInf
| NaN.

(** Sign of a real, by the trichotomy of the order. *)
Definition sgn (x : R) : comparison :=
  match total_order_T x 0 with
  | inleft (left _) => Lt
  | inleft (right _) => Eq
  | inright _ => Gt
  end.

Definition fneg (a : float) : float :=
  match a with
  | Fin x => Fin (- x)
  | PInf => NInf
  | NInf => PInf
  | NaN => NaN
  end.

Definition fadd (a b : float) : float :=
  match a, b with
  | NaN, _ | _, NaN => NaN
  | Fin x, Fin y => Fin (x + y)
  | PInf, NInf | NInf, PInf => NaN
  | PInf, _ | _, PInf => PInf
  | NInf, _ | _, NInf => NInf
  end.

Definition fsub (a b : float) : float := fadd a (fneg b).

(** An infinity of the sign of [c] times [inf]; 0 * inf is nan. *)
Definition signed_inf (c : comparison) (inf : float) : float :=
  match c with
  | Eq => NaN
  | Gt => inf
  | Lt => fneg inf
  end.

Definition fmul (a b : float) : float :=
  match a, b with
  | NaN, _ | _, NaN => NaN
  | Fin x, Fin y => Fin (x * y)
  | Fin x, inf => signed_inf (sgn x) inf
  | inf, Fin y => signed_inf (sgn y) inf
  | PInf, PInf | NInf, NInf => PInf
  | PInf, NInf | NInf, PInf => NInf
  end.

(** Division as numpy performs it on float64: x / 0 is nan when x is 0 and
    an infinity of the sign of x otherwise (the zero divisor counts as +0). *)
Definition fdiv (a b : float) : float :=
  match a, b with
  | NaN, _ | _, NaN => NaN
  | Fin x, Fin y =>
      if Req_dec_T y 0 then signed_inf (sgn x) PInf else Fin (x / y)
  | Fin _, _ => Fin 0
  | inf, Fin y => match sgn y with Lt => fneg inf | _ => inf end
  | _, _ => NaN
  end.

Definition fsqrt (a : float) : float :=
  match a with
  | Fin x => if Rlt_dec x 0 then NaN else Fin (sqrt x)
  | PInf => PInf
  | NInf => NaN
  | NaN => NaN
  end.

Definition is_nan (a : float) : bool :=
  match a with NaN => true | _ => false end.

(** One entry of a column. *)
Inductive cell : Type :=
| VFloat (x : float)
| VInt (n : Z)
| VStr (s : string)
| VNone.

(** pandas' [isna]: None and nan are the missing values. *)
Definition isna (c : cell) : bool :=
  match c with
  | VNone | VFloat NaN => true
  | _ => false
  end.

Definition column : Type := list cell.

(** A pandas Series: a named column. *)
Record Series : Type := mkSeries { sname : string; svalues : column }.

(** A DataFrame: its columns in order, each under its label.  pandas does
    not forbid two columns under one label.  The row index is the default
    one (0 .. R-1), as [read_parquet] builds it for a file written without
    an index, so that aligning two objects on their indexes pairs row [i]
    with row [i]. *)
Definition DataFrame : Type := list (string * column).

Definition columns (df : DataFrame) : list string := map fst df.

(** What the scripts can raise. *)
Inductive exn : Type :=
| KeyError (label : string)
| TypeError
| ValueError
| FileNotFoundError (path : string)
| DuplicateLabel (label : string).

Inductive result (A : Type) : Type :=
| Ok (a : A)
| Raise (e : exn).
Arguments Ok {A} a.
Arguments Raise {A} e.

Definition rbind {A B} (r : result A) (k : A -> result B) : result B :=
  match r with
  | Ok a => k a
  | Raise e => Raise e
  end.

Declare Scope result_scope.
Delimit Scope result_scope with result.
Notation "'let?' x ':=' r 'in' k" := (rbind r (fun x => k))
  (at level 10, x name, r at level 100, k at level 200) : result_scope.
Local Open Scope result_scope.

(* ================================================================== *)
(** ** numpy and pandas on one column *)

Module np.

(** The cell as a float64, as pandas' reductions and arithmetic read it:
    None among numbers is a missing entry, that is nan; a string is a
    TypeError. *)
Definition as_float (c : cell) : result float :=
  match c with
  | VFloat x => Ok x
  | VInt n => Ok (Fin (IZR n))
  | VNone => Ok NaN
  | VStr _ => Raise TypeError
  end.

Fixpoint as_floats (col : column) : result (list float) :=
  match col with
  | [] => Ok []
  | c :: rest =>
      let? x := as_float c in
      let? xs := as_floats rest in
      Ok (x :: xs)
  end.

Definition fsum (xs : list float) : float := fold_right fadd (Fin 0) xs.

Definition dropna (xs : list float) : list float :=
  filter (fun x => negb (is_nan x)) xs.

(** [Series.mean(skipna=True)], which [np.mean] of a Series dispatches to:
    the sum of the entries that are not nan over their number, nan when
    there is none. *)
Definition nanmean (xs : list float) : float :=
  let ys := dropna xs in
  match ys with
  | [] => NaN
  | _ => fdiv (fsum ys) (Fin (INR (List.length ys)))
  end.

(** [Series.std(ddof=0, skipna=True)], which [np.std] of a Series
    dispatches to: the population standard deviation of the entries that
    are not nan. *)
Definition nanstd (xs : list float) : float :=
  let ys := dropna xs in
  match ys with
  | [] => NaN
  | _ =>
      let avg := fdiv (fsum ys) (Fin (INR (List.length ys))) in
      let sqr := map (fun y => fmul (fsub avg y) (fsub avg y)) ys in
      fsqrt (fdiv (fsum sqr) (Fin (INR (List.length ys))))
  end.

Definition mean (s : Series) : result float :=
  let? xs := as_floats (svalues s) in Ok (nanmean xs).

Definition std (s : Series) : result float :=
  let? xs := as_floats (svalues s) in Ok (nanstd xs).

End np.

Module pd.

(** [series - scalar] and [series / scalar], entry by entry; the name of
    the series is kept. *)
Definition sub (s : Series) (m : float) : result Series :=
  let? xs := np.as_floats (svalues s) in
  Ok (mkSeries (sname s) (map (fun x => VFloat (fsub x m)) xs)).

Definition div (s : Series) (d : float) : result Series :=
  let? xs := np.as_floats (svalues s) in
  Ok (mkSeries (sname s) (map (fun x => VFloat (fdiv x d)) xs)).

(** A column is float64 when every entry is a float; a Python integer
    stored into it becomes a float. *)
Definition is_float64 (col : column) : bool :=
  forallb (fun c => match c with VFloat _ => true | _ => false end) col.

Definition stored (col : column) (value : cell) : cell :=
  match value with
  | VInt n => if is_float64 col then VFloat (Fin (IZR n)) else value
  | _ => value
  end.

(** [series.fillna(value)]: the missing entries become [value], stored in
    the dtype of the column; [fillna(None)] is a ValueError. *)
Definition fillna (s : Series) (value : cell) : result Series :=
  match value with
  | VNone => Raise ValueError
  | _ =>
      let v := stored (svalues s) value in
      Ok (mkSeries (sname s) (map (fun c => if isna c then v else c) (svalues s)))
  end.

(** The columns of [df] under [label]. *)
Definition labelled (df : DataFrame) (label : string) : list column :=
  map snd (filter (fun p => String.eqb (fst p) label) df).

(** [df[label]]: a KeyError when no column bears the label, the Series
    when one does.  When several do pandas answers a DataFrame, and what
    numpy's reductions and the arithmetic make of it differs between
    pandas versions: the model stops there with [DuplicateLabel]. *)
Definition getitem (df : DataFrame) (label : string) : result Series :=
  match labelled df label with
  | [] => Raise (KeyError label)
  | [col] => Ok (mkSeries label col)
  | _ => Raise (DuplicateLabel label)
  end.

(** [df[label] = values]: every column under the label is replaced; when
    there is none a new column is added to the right. *)
Definition setitem (df : DataFrame) (label : string) (values : column)
  : DataFrame :=
  if existsb (String.eqb label) (columns df)
  then map (fun p => if String.eqb (fst p) label then (fst p, values) else p) df
  else df ++ [(label, values)].

(** [pd.concat([df, series], axis=1)]: the series becomes a further
    column on the right, under its name, whether or not the label is
    already in use. *)
Definition concat (df : DataFrame) (s : Series) : DataFrame :=
  df ++ [(sname s, svalues s)].

End pd.

(* ================================================================== *)
(** ** scikit-learn's LabelEncoder *)

Module sklearn.

Definition float_eqb (a b : float) : bool :=
  match a, b with
  | Fin x, Fin y => if Req_dec_T x y then true else false
  | PInf, PInf | NInf, NInf | NaN, NaN => true
  | _, _ => false
  end.

Definition float_ltb (a b : float) : bool :=
  match a, b with
  | Fin x, Fin y => if Rlt_dec x y then true else false
  | NInf, Fin _ | NInf, PInf | Fin _, PInf => true
  | _, _ => false
  end.

(** Python's [==] on two entries, as [set] uses it (1 == 1.0). *)
Definition cell_eqb (a b : cell) : bool :=
  match a, b with
  | VStr s, VStr t => String.eqb s t
  | VInt m, VInt n => Z.eqb m n
  | VFloat x, VFloat y => float_eqb x y
  | VInt m, VFloat y => float_eqb (Fin (IZR m)) y
  | VFloat x, VInt n => float_eqb x (Fin (IZR n))
  | VNone, VNone => true
  | _, _ => false
  end.

(** Python's [<] between two strings (by code point, which on the bytes
    of UTF-8 is the order of [String.compare]) or two numbers. *)
Definition cell_ltb (a b : cell) : bool :=
  match a, b with
  | VStr s, VStr t => String.ltb s t
  | VInt m, VInt n => Z.ltb m n
  | VFloat x, VFloat y => float_ltb x y
  | VInt m, VFloat y => float_ltb (Fin (IZR m)) y
  | VFloat x, VInt n => float_ltb x (Fin (IZR n))
  | _, _ => false
  end.

Definition is_str (c : cell) : bool :=
  match c with VStr _ => true | _ => false end.

Definition is_num (c : cell) : bool :=
  match c with VFloat _ | VInt _ => true | _ => false end.

(** [set(values)], listed by first occurrence. *)
Fixpoint distinct (col : column) : column :=
  match col with
  | [] => []
  | c :: rest => c :: filter (fun d => negb (cell_eqb c d)) (distinct rest)
  end.

Fixpoint insert (x : cell) (l : column) : column :=
  match l with
  | [] => [x]
  | y :: l' => if cell_ltb y x then y :: insert x l' else x :: l
  end.

(** [sorted(...)]. *)
Fixpoint sorted (l : column) : column :=
  match l with
  | [] => []
  | x :: l' => insert x (sorted l')
  end.

(** The classes of a column: its distinct values that are not missing in
    increasing order, then None and nan when the column holds them.  The
    values must be uniformly strings or uniformly numbers, a TypeError
    otherwise. *)
Definition present (col : column) : column :=
  filter (fun c => negb (isna c)) col.

Definition classes_of (col : column) : column :=
  sorted (distinct (present col))
  ++ (if existsb (cell_eqb VNone) col then [VNone] else [])
  ++ (if existsb (cell_eqb (VFloat NaN)) col then [VFloat NaN] else []).

Definition unique (col : column) : result column :=
  if forallb is_str (present col) || forallb is_num (present col)
  then Ok (classes_of col)
  else Raise TypeError.

(** Position of the first entry of [classes] equal to [c]. *)
Fixpoint index (classes : column) (c : cell) : Z :=
  match classes with
  | [] => 0
  | d :: rest => if cell_eqb d c then 0 else 1 + index rest c
  end.

(** A fitted encoder is its vocabulary, [classes_]: the code of a value
    is its position there. *)
Record LabelEncoder : Type := mkLabelEncoder { classes_ : column }.

Definition fit_transform (y : Series) : result (LabelEncoder * list Z) :=
  let? classes := unique (svalues y) in
  Ok (mkLabelEncoder classes, map (index classes) (svalues y)).

(** [inverse_transform]: a code back to the class at that position. *)
Definition inverse_transform (enc : LabelEncoder) (codes : list Z)
  : list (option cell) :=
  map (fun k => if (k <? 0)%Z then None else nth_error (classes_ enc) (Z.to_nat k)) codes.

End sklearn.

(* ================================================================== *)
(** ** Objects and files

    A DataFrame is a mutable object: the scripts pass references to it and
    assign to its columns in place.  The store maps a reference to the
    current contents of its object; the files are the parquet files by
    path.  A computation takes a world to a result, or an exception, and
    the world it leaves behind. *)

Definition ref : Type := nat.

Record world : Type := mkWorld {
  heap : list DataFrame;
  files : list (string * DataFrame)
}.

Definition M (A : Type) : Type := world -> result A * world.

Definition ret {A} (a : A) : M A := fun w => (Ok a, w).

Definition bind {A B} (c : M A) (k : A -> M B) : M B :=
  fun w =>
    match c w with
    | (Ok a, w') => k a w'
    | (Raise e, w') => (Raise e, w')
    end.

Definition lift {A} (r : result A) : M A := fun w => (r, w).

Declare Scope monad_scope.
Delimit Scope monad_scope with monad.
Notation "x <- c ;; k" := (bind c (fun x => k))
  (at level 61, c at next level, right associativity) : monad_scope.
Notation "c ;; k" := (bind c (fun _ => k))
  (at level 61, right associativity) : monad_scope.
Local Open Scope monad_scope.

Fixpoint update {A} (n : nat) (x : A) (l : list A) : list A :=
  match l, n with
  | [], _ => []
  | _ :: l', O => x :: l'
  | y :: l', S n' => y :: update n' x l'
  end.

Definition lookup_file (path : string) (fs : list (string * DataFrame))
  : option DataFrame :=
  match find (fun p => String.eqb (fst p) path) fs with
  | Some p => Some (snd p)
  | None => None
  end.

Definition write_file (path : string) (t : DataFrame)
  (fs : list (string * DataFrame)) : list (string * DataFrame) :=
  (path, t) :: filter (fun p => negb (String.eqb (fst p) path)) fs.

Fixpoint has_duplicates (l : list string) : bool :=
  match l with
  | [] => false
  | x :: rest => existsb (String.eqb x) rest || has_duplicates rest
  end.

Module py.

Definition deref (df : ref) : M DataFrame :=
  fun w => (Ok (nth df (heap w) []), w).

(** A new object. *)
Definition alloc (t : DataFrame) : M ref :=
  fun w => (Ok (List.length (heap w)), mkWorld (heap w ++ [t]) (files w)).

(** [df[label]] on the object [df]. *)
Definition getitem (df : ref) (label : string) : M Series :=
  t <- deref df ;; lift (pd.getitem t label).

(** [df[label] = values]: the object [df] itself changes. *)
Definition setitem (df : ref) (label : string) (values : column) : M unit :=
  fun w =>
    (Ok tt,
     mkWorld (update df (pd.setitem (nth df (heap w) []) label values) (heap w))
             (files w)).

(** [df.columns]. *)
Definition get_columns (df : ref) : M (list string) :=
  t <- deref df ;; ret (columns t).

(** [pd.concat([df, series], axis=1)]: a new object, [df] is left alone. *)
Definition concat (df : ref) (s : Series) : M ref :=
  t <- deref df ;; alloc (pd.concat t s).

(** [pd.read_parquet(path)]: a new object holding the table of the file. *)
Definition read_parquet (path : string) : M ref :=
  fun w =>
    match lookup_file path (files w) with
    | Some t => alloc t w
    | None => (Raise (FileNotFoundError path), w)
    end.

(** [df.to_parquet(path)]: the file now holds the table; a table with two
    columns under one label cannot be written (a ValueError of the
    parquet engine).  The engine's check of the types of the columns is
    not modelled. *)
Definition to_parquet (df : ref) (path : string) : M unit :=
  fun w =>
    let t := nth df (heap w) [] in
    if has_duplicates (columns t)
    then (Raise ValueError, w)
    else (Ok tt, mkWorld (heap w) (write_file path t (files w))).

End py.

(* ================================================================== *)
(** ** code_with_solid.py

    The calls to [logging] are left out: they write to the log only. *)

Module code_with_solid.

(** A [DataProcessor]: anything with a [process_data] method. *)
Definition DataProcessor : Type := ref -> M Series.

(** [Standardizer.process_data] *)
Definition Standardizer : DataProcessor := fun df =>
  a <- py.getitem df "feature_a" ;;
  std <- lift (np.std a) ;;
  a <- py.getitem df "feature_a" ;;
  mean <- lift (np.mean a) ;;
  a <- py.getitem df "feature_a" ;;
  centred <- lift (pd.sub a mean) ;;
  standardized_feature <- lift (pd.div centred std) ;;
  ret standardized_feature.

(** [Encoder.process_data] *)
Definition Encoder : DataProcessor := fun df =>
  b <- py.getitem df "feature_b" ;;
  fitted <- lift (sklearn.fit_transform b) ;;
  let encoded_feature := snd fitted in
  ret (mkSeries "feature_b_encoded" (map VInt encoded_feature)).

(** [NanFiller.process_data] *)
Definition NanFiller : DataProcessor := fun df =>
  c <- py.getitem df "feature_c" ;;
  filled_feature <- lift (pd.fillna c (VInt (-1))) ;;
  ret filled_feature.

(** The loop of [DataPipeline.process]: [df] is rebound to the
    concatenation at every turn, so the next processor receives it. *)
Fixpoint process_loop (processors : list DataProcessor) (df : ref) : M ref :=
  match processors with
  | [] => ret df
  | processor :: rest =>
      s <- processor df ;;
      df' <- py.concat df s ;;
      process_loop rest df'
  end.

(** [DataPipeline(processors).process(path)] *)
Definition process (processors : list DataProcessor) (path : string) : M ref :=
  df <- py.read_parquet path ;;
  process_loop processors df.

Definition default_processors : list DataProcessor :=
  [Standardizer; Encoder; NanFiller].

Definition main : M unit :=
  processed_df <- process default_processors "data/data.parquet" ;;
  py.to_parquet processed_df "data/preprocessed_data.parquet".

End code_with_solid.

(* ================================================================== *)
(** ** The processing steps of the solid_principles scripts

    open_close.py, liskov_substitution.py, single_responsibility.py and
    dependency_aversion.py each declare the classes [NormalizeFeature],
    [EncodeCategoricalFeature] and [FillNaNFeature] with the same
    statements in the method ([apply], or [process] in open_close.py):
    they assign to a column of the table they are given and return that
    table. *)

Module steps.

Inductive step : Type :=
| NormalizeFeature (feature_name : string)
| EncodeCategoricalFeature (feature_name encoded_feature_name : string)
| FillNaNFeature (feature_name : string) (fill_value : cell).

Definition NormalizeFeature_apply (feature_name : string) (df : ref) : M ref :=
  a <- py.getitem df feature_name ;;
  std <- lift (np.std a) ;;
  a <- py.getitem df feature_name ;;
  mean <- lift (np.mean a) ;;
  a <- py.getitem df feature_name ;;
  centred <- lift (pd.sub a mean) ;;
  normalized <- lift (pd.div centred std) ;;
  py.setitem df feature_name (svalues normalized) ;;
  ret df.

Definition EncodeCategoricalFeature_apply
  (feature_name encoded_feature_name : string) (df : ref) : M ref :=
  b <- py.getitem df feature_name ;;
  fitted <- lift (sklearn.fit_transform b) ;;
  py.setitem df encoded_feature_name (map VInt (snd fitted)) ;;
  ret df.

Definition FillNaNFeature_apply
  (feature_name : string) (fill_value : cell) (df : ref) : M ref :=
  c <- py.getitem df feature_name ;;
  filled <- lift (pd.fillna c fill_value) ;;
  py.setitem df feature_name (svalues filled) ;;
  ret df.

Definition apply (s : step) (df : ref) : M ref :=
  match s with
  | NormalizeFeature f => NormalizeFeature_apply f df
  | EncodeCategoricalFeature f e => EncodeCategoricalFeature_apply f e df
  | FillNaNFeature f v => FillNaNFeature_apply f v df
  end.

(** [for step in steps: df = step.apply(df)] *)
Fixpoint apply_all (ss : list step) (df : ref) : M ref :=
  match ss with
  | [] => ret df
  | s :: rest => df' <- apply s df ;; apply_all rest df'
  end.

(** The configuration of every [main]. *)
Definition default_steps : list step :=
  [NormalizeFeature "feature_a";
   EncodeCategoricalFeature "feature_b" "feature_b_encoded";
   FillNaNFeature "feature_c" (VInt (-1))].

End steps.

Module dependency_aversion.

Record DataLoader : Type := mkDataLoader { path : string }.
Record DataSaver : Type := mkDataSaver { output_path : string }.

Definition load_data (loader : DataLoader) : M ref :=
  py.read_parquet (path loader).

Definition save_data (saver : DataSaver) (df : ref) : M unit :=
  py.to_parquet df (output_path saver).

Definition process_data (loader : DataLoader) (saver : DataSaver)
  (ss : list steps.step) : M unit :=
  df <- load_data loader ;;
  df <- steps.apply_all ss df ;;
  save_data saver df.

End dependency_aversion.

Module open_close.

Definition process (path output_path : string) (ss : list steps.step) : M ref :=
  df <- py.read_parquet path ;;
  df <- steps.apply_all ss df ;;
  py.to_parquet df output_path ;;
  ret df.

End open_close.

Module single_responsibility.

Definition process_data (path output_path : string) : M unit :=
  df <- py.read_parquet path ;;
  df <- steps.NormalizeFeature_apply "feature_a" df ;;
  df <- steps.EncodeCategoricalFeature_apply "feature_b" "feature_b_encoded" df ;;
  df <- steps.FillNaNFeature_apply "feature_c" (VInt (-1)) df ;;
  py.to_parquet df output_path.

End single_responsibility.

(* ================================================================== *)
(** ** solid_principles/single_responsibility_1.py *)

Module single_responsibility_1.

Definition load_data (path : string) : M ref := py.read_parquet path.

Definition normalize_feature (feature : Series) : result Series :=
  let? std := np.std feature in
  let? mean := np.mean feature in
  let? centred := pd.sub feature mean in
  pd.div centred std.

Definition encode_feature (feature : Series) : result Series :=
  let? fitted := sklearn.fit_transform feature in
  Ok (mkSeries (sname feature) (map VInt (snd fitted))).

Definition fill_feature (feature : Series) (value : cell) : result Series :=
  pd.fillna feature value.

(** A dict comprehension: a key met again keeps its place and takes the
    later value. *)
Fixpoint dict_set (d : list (string * Series)) (k : string) (v : Series)
  : list (string * Series) :=
  match d with
  | [] => [(k, v)]
  | (k', v') :: rest =>
      if String.eqb k' k then (k', v) :: rest else (k', v') :: dict_set rest k v
  end.

Definition dict_of (items : list (string * Series)) : list (string * Series) :=
  fold_left (fun d kv => dict_set d (fst kv) (snd kv)) items [].

(** [compose_df]: [zip] stops at the shorter of its arguments;
    [pd.DataFrame(data)] has one column per key, holding the values of
    the series. *)
Definition compose_df (args : list Series) (column_names : list string)
  : DataFrame :=
  let data := dict_of (combine column_names args) in
  map (fun kv => (fst kv, svalues (snd kv))) data.

Definition save_df (df : ref) (path : string) : M unit :=
  py.to_parquet df path.

Definition process (path output_path : string) : M unit :=
  df <- load_data path ;;
  a <- py.getitem df "feature_a" ;;
  normalized_feature <- lift (normalize_feature a) ;;
  b <- py.getitem df "feature_b" ;;
  encoded_feature <- lift (encode_feature b) ;;
  c <- py.getitem df "feature_c" ;;
  filled_feature <- lift (fill_feature c (VInt (-1))) ;;
  column_names <- py.get_columns df ;;
  processed_df <- py.alloc
    (compose_df [normalized_feature; encoded_feature; filled_feature] column_names) ;;
  save_df processed_df output_path.

End single_responsibility_1.

(* ================================================================== *)
(** ** simple_code.py, liskov_substitution.py, interface_segregation.py *)

Module simple_code.

(** [pd.concat([s1, s2, s3], axis=1)]: a new table whose columns are the
    series, each under its name. *)
Definition concat_series (ss : list Series) : M ref :=
  py.alloc (map (fun s => (sname s, svalues s)) ss).

Definition process (path output_path : string) : M unit :=
  df <- py.read_parquet path ;;
  a <- py.getitem df "feature_a" ;;
  std <- lift (np.std a) ;;
  a <- py.getitem df "feature_a" ;;
  mean <- lift (np.mean a) ;;
  a <- py.getitem df "feature_a" ;;
  centred <- lift (pd.sub a mean) ;;
  standardized_feature <- lift (pd.div centred std) ;;
  b <- py.getitem df "feature_b" ;;
  fitted <- lift (sklearn.fit_transform b) ;;
  c <- py.getitem df "feature_c" ;;
  filled_feature <- lift (pd.fillna c (VInt (-1))) ;;
  let encoded_feature := mkSeries "feature_b_encoded" (map VInt (snd fitted)) in
  processed_df <- concat_series
    [standardized_feature; encoded_feature; filled_feature] ;;
  py.to_parquet processed_df output_path.

Definition main : M unit :=
  process "data/data.parquet" "data/preprocessed_data.parquet".

End simple_code.

Module liskov_substitution.

Definition process_data (path output_path : string) (ss : list steps.step)
  : M unit :=
  df <- py.read_parquet path ;;
  df <- steps.apply_all ss df ;;
  py.to_parquet df output_path.

Definition main : M unit :=
  process_data "data/data.parquet" "data/preprocessed_data.parquet"
    steps.default_steps.

End liskov_substitution.

Module interface_segregation.

(** The three classes, each behind its own interface. *)
Record NormalizeFeature : Type := mkNormalizeFeature { n_feature_name : string }.

Record EncodeCategoricalFeature : Type := mkEncodeCategoricalFeature {
  e_feature_name : string;
  e_encoded_feature_name : string
}.

Record FillNaNFeature : Type := mkFillNaNFeature {
  f_feature_name : string;
  f_fill_value : cell
}.

Definition normalize (n : NormalizeFeature) (df : ref) : M ref :=
  steps.NormalizeFeature_apply (n_feature_name n) df.

Definition encode (e : EncodeCategoricalFeature) (df : ref) : M ref :=
  steps.EncodeCategoricalFeature_apply
    (e_feature_name e) (e_encoded_feature_name e) df.

Definition fill_nan (f : FillNaNFeature) (df : ref) : M ref :=
  steps.FillNaNFeature_apply (f_feature_name f) (f_fill_value f) df.

(** [for x in xs: df = method(x, df)] *)
Fixpoint each {A} (method : A -> ref -> M ref) (xs : list A) (df : ref) : M ref :=
  match xs with
  | [] => ret df
  | x :: rest => df' <- method x df ;; each method rest df'
  end.

Definition process_data (path output_path : string)
  (normalizers : list NormalizeFeature)
  (encoders : list EncodeCategoricalFeature)
  (nan_fillers : list FillNaNFeature) : M unit :=
  df <- py.read_parquet path ;;
  df <- each normalize normalizers df ;;
  df <- each encode encoders df ;;
  df <- each fill_nan nan_fillers df ;;
  py.to_parquet df output_path.

Definition main : M unit :=
  process_data "data/data.parquet" "data/preprocessed_data.parquet"
    [mkNormalizeFeature "feature_a"]
    [mkEncodeCategoricalFeature "feature_b" "feature_b_encoded"]
    [mkFillNaNFeature "feature_c" (VInt (-1))].

End interface_segregation.

(* ================================================================== *)
(** ** Vocabulary of the statements *)

(** A label: a string, or one of the two missing values. *)
Definition is_label (c : cell) : bool :=
  match c with
  | VStr _ | VNone | VFloat NaN => true
  | _ => false
  end.

(** Strictly increasing in the order of the encoder. *)
Inductive increasing : column -> Prop :=
| increasing_nil : increasing []
| increasing_one c : increasing [c]
| increasing_cons c d l :
    sklearn.cell_ltb c d = true -> increasing (d :: l) -> increasing (c :: d :: l).

(** A numeric column, given by its reals. *)
Definition floats (xs : list R) : column := map (fun x => VFloat (Fin x)) xs.

Definition Rsum (xs : list R) : R := fold_right Rplus 0%R xs.

(** The population mean and the population standard deviation of
    x_1 .. x_R. *)
Definition mu (xs : list R) : R := (Rsum xs / INR (List.length xs))%R.

Definition sigma (xs : list R) : R :=
  sqrt (Rsum (map (fun x => (x - mu xs) * (x - mu xs))%R xs)
        / INR (List.length xs)).

(** The z-scores (x_i - mu) / sigma. *)
Definition standardized (xs : list R) : list R :=
  map (fun x => ((x - mu xs) / sigma xs)%R) xs.


(** The column a step reads, and the column it assigns to. *)
Definition source (s : steps.step) : string :=
  match s with
  | steps.NormalizeFeature f => f
  | steps.EncodeCategoricalFeature f _ => f
  | steps.FillNaNFeature f _ => f
  end.

Definition target (s : steps.step) : string :=
  match s with
  | steps.NormalizeFeature f => f
  | steps.EncodeCategoricalFeature _ e => e
  | steps.FillNaNFeature f _ => f
  end.

(** The values a step computes from a table, before it assigns them. *)
Definition output (s : steps.step) (t : DataFrame) : result column :=
  match s with
  | steps.NormalizeFeature f =>
      let? a := pd.getitem t f in
      let? normalized := single_responsibility_1.normalize_feature a in
      Ok (svalues normalized)
  | steps.EncodeCategoricalFeature f _ =>
      let? b := pd.getitem t f in
      let? fitted := sklearn.fit_transform b in
      Ok (map VInt (snd fitted))
  | steps.FillNaNFeature f v =>
      let? c := pd.getitem t f in
      let? filled := pd.fillna c v in
      Ok (svalues filled)
  end.

(** The steps one after the other on a table: the table they leave, and
    the exception that stopped them, if any. *)
Fixpoint run_steps (ss : list steps.step) (t : DataFrame)
  : DataFrame * option exn :=
  match ss with
  | [] => (t, None)
  | s :: rest =>
      match output s t with
      | Ok col => run_steps rest (pd.setitem t (target s) col)
      | Raise e => (t, Some e)
      end
  end.

Definition threaded (ss : list steps.step) (t : DataFrame) : result DataFrame :=
  match run_steps ss t with
  | (t', None) => Ok t'
  | (_, Some e) => Raise e
  end.

(** The table behind the reference a computation returned. *)
Definition table_of (r : result ref * world) : result DataFrame :=
  match r with
  | (Ok df, w) => Ok (nth df (heap w) [])
  | (Raise e, _) => Raise e
  end.

(** The run as the specification words it: each transform is invoked
    against the original loaded table, and its output column is put into
    the result. *)
Fixpoint run_on_original (ss : list steps.step) (original acc : DataFrame)
  : result DataFrame :=
  match ss with
  | [] => Ok acc
  | s :: rest =>
      let? col := output s original in
      run_on_original rest original (pd.setitem acc (target s) col)
  end.

(** The same for the processors of code_with_solid.py, whose outputs are
    concatenated: every processor receives the original object. *)
Fixpoint process_loop_on_original (processors : list code_with_solid.DataProcessor)
  (original acc : ref) : M ref :=
  match processors with
  | [] => ret acc
  | processor :: rest =>
      s <- processor original ;;
      acc' <- py.concat acc s ;;
      process_loop_on_original rest original acc'
  end.

Definition process_on_original (processors : list code_with_solid.DataProcessor)
  (path : string) : M ref :=
  df <- py.read_parquet path ;;
  process_loop_on_original processors df df.

(** No step reads a column that an earlier step has assigned to. *)
Fixpoint independent (written : list string) (ss : list steps.step) : bool :=
  match ss with
  | [] => true
  | s :: rest =>
      negb (existsb (String.eqb (source s)) written)
      && independent (target s :: written) rest
  end.

(** A computation leaves the object [df] as it found it. *)
Definition leaves_unchanged {A} (c : M A) (df : ref) (w : world) : Prop :=
  nth df (heap (snd (c w))) [] = nth df (heap w) [].

(** A small table, loaded and on file, for the examples below. *)
Definition small_table : DataFrame :=
  [("feature_b"%string, [VStr "x"; VStr "y"]);
   ("feature_c"%string, [VFloat (Fin 5); VFloat NaN])].

Definition small_world : world :=
  mkWorld [small_table] [("data/data.parquet"%string, small_table)].

(** The table of the end-to-end scenario, loaded and on file. *)
Definition scenario_table : DataFrame :=
  [("feature_a"%string, floats [1; 2; 3; 4]%R);
   ("feature_b"%string, [VStr "x"; VStr "y"; VStr "x"; VStr "z"]);
   ("feature_c"%string,
    [VFloat (Fin 5); VFloat NaN; VFloat (Fin 7); VFloat NaN])].

Definition scenario_world : world :=
  mkWorld [scenario_table] [("data/data.parquet"%string, scenario_table)].

(** The three series of the default run, computed from a table [t]. *)
Definition standardized_feature (t : DataFrame) : result Series :=
  let? a := pd.getitem t "feature_a" in
  single_responsibility_1.normalize_feature a.

Definition encoded_feature (t : DataFrame) : result Series :=
  let? b := pd.getitem t "feature_b" in
  let? fitted := sklearn.fit_transform b in
  Ok (mkSeries "feature_b_encoded" (map VInt (snd fitted))).

Definition filled_feature (t : DataFrame) : result Series :=
  let? c := pd.getitem t "feature_c" in
  single_responsibility_1.fill_feature c (VInt (-1)).

(** The run of the three default processors from a world [w] whose input
    object holds [t]: each series is computed from [t], and each
    concatenation makes a new object. *)
Definition default_run (t : DataFrame) (w : world) : result ref * world :=
  match standardized_feature t with
  | Raise e => (Raise e, w)
  | Ok s1 =>
      let t1 := pd.concat t s1 in
      match encoded_feature t with
      | Raise e => (Raise e, mkWorld (heap w ++ [t1]) (files w))
      | Ok s2 =>
          let t2 := pd.concat t1 s2 in
          match filled_feature t with
          | Raise e => (Raise e, mkWorld ((heap w ++ [t1]) ++ [t2]) (files w))
          | Ok s3 =>
              (Ok (S (S (List.length (heap w)))),
               mkWorld (((heap w ++ [t1]) ++ [t2]) ++ [pd.concat t2 s3])
                       (files w))
          end
      end
  end.

(** The three lists of interface_segregation.py as one list of steps. *)
Definition as_steps
  (normalizers : list interface_segregation.NormalizeFeature)
  (encoders : list interface_segregation.EncodeCategoricalFeature)
  (nan_fillers : list interface_segregation.FillNaNFeature) : list steps.step :=
  map (fun n => steps.NormalizeFeature (interface_segregation.n_feature_name n))
      normalizers
  ++ map (fun e => steps.EncodeCategoricalFeature
                     (interface_segregation.e_feature_name e)
                     (interface_segregation.e_encoded_feature_name e))
         encoders
  ++ map (fun f => steps.FillNaNFeature
                     (interface_segregation.f_feature_name f)
                     (interface_segregation.f_fill_value f))
         nan_fillers.

(** Every column of the table has [R] rows. *)
Definition rows (R : nat) (t : DataFrame) : Prop :=
  Forall (fun p => List.length (snd p) = R) t.

(** A float64 column with missing entries: [None] is nan. *)
Definition optional_floats (os : list (option R)) : column :=
  map (fun o => match o with
                | Some x => VFloat (Fin x)
                | None => VFloat NaN
                end) os.

Definition option_float (o : option R) : float :=
  match o with Some x => Fin x | None => NaN end.

(** Its entries that are not missing. *)
Fixpoint present_reals (os : list (option R)) : list R :=
  match os with
  | [] => []
  | Some x :: rest => x :: present_reals rest
  | None :: rest => present_reals rest
  end.

(** What the default steps make of the table of the scenario. *)
Definition scenario_result : DataFrame :=
  [("feature_a"%string, floats (standardized [1; 2; 3; 4]%R));
   ("feature_b"%string, [VStr "x"; VStr "y"; VStr "x"; VStr "z"]);
   ("feature_c"%string,
    [VFloat (Fin 5); VFloat (Fin (-1)); VFloat (Fin 7); VFloat (Fin (-1))]);
   ("feature_b_encoded"%string, [VInt 0; VInt 1; VInt 0; VInt 2])].

(** The table of the three series of the default run, as simple_code.py
    concatenates them. *)
Definition produced (s1 s2 s3 : Series) : DataFrame :=
  [(sname s1, svalues s1); (sname s2, svalues s2); (sname s3, svalues s3)].

(** A computation that writes no file. *)
Definition keeps_files {A} (c : M A) : Prop :=
  forall w, files (snd (c w)) = files w.

(** A processor that only reads the table it is given. *)
Definition reader (f : DataFrame -> result Series) : code_with_solid.DataProcessor :=
  fun df w => (f (nth df (heap w) []), w).

(** The table that a list of reading processors builds from [t]: each one
    is given the table with the columns of those before it. *)
Fixpoint concat_all (fs : list (DataFrame -> result Series)) (t : DataFrame)
  : result DataFrame :=
  match fs with
  | [] => Ok t
  | f :: rest => let? s := f t in concat_all rest (pd.concat t s)
  end.

(** A computation that writes at most the file at [output_path], and
    nothing at all when it raises. *)
Definition writes_only {A} (output_path : string) (c : M A) : Prop :=
  forall w,
    (forall other, other <> output_path ->
       lookup_file other (files (snd (c w))) = lookup_file other (files w))
    /\ (forall e w', c w = (Raise e, w') -> files w' = files w).

(** A number: an int64 entry, or a float64 entry that is finite. *)
Definition is_number (c : cell) : bool :=
  match c with
  | VFloat (Fin _) | VInt _ => true
  | _ => false
  end.

(** The real number an entry holds. *)
Definition number (c : cell) : R :=
  match c with
  | VFloat (Fin x) => x
  | VInt n => IZR n
  | _ => 0%R
  end.

Definition numbers (col : column) : list R := map number col.

(** A categorical column: its entries that are not missing are all
    strings, or all numbers. *)
Definition categorical (col : column) : bool :=
  forallb sklearn.is_str (sklearn.present col)
  || forallb sklearn.is_num (sklearn.present col).

(** A numeric entry that is not missing, and the float it is compared as
    (Python compares an int with a float by value). *)
Definition is_present_num (c : cell) : bool :=
  sklearn.is_num c && negb (isna c).

Definition key (c : cell) : float :=
  match c with
  | VFloat x => x
  | VInt n => Fin (IZR n)
  | _ => NaN
  end.

(** The entries selected by [P] are totally ordered by Python's [<], with
    [==] as the equality, and none of them equals a missing value. *)
Record ordered_kind (P : cell -> bool) : Prop := {
  kind_refl : forall a, P a = true -> sklearn.cell_eqb a a = true;
  kind_sym : forall a b, P a = true -> P b = true ->
    sklearn.cell_eqb a b = true -> sklearn.cell_eqb b a = true;
  kind_eqb_trans : forall a b c, P a = true -> P b = true -> P c = true ->
    sklearn.cell_eqb a b = true -> sklearn.cell_eqb b c = true ->
    sklearn.cell_eqb a c = true;
  kind_ltb_l : forall a a' b, P a = true -> P a' = true -> P b = true ->
    sklearn.cell_eqb a a' = true -> sklearn.cell_ltb a b = sklearn.cell_ltb a' b;
  kind_ltb_r : forall a b b', P a = true -> P b = true -> P b' = true ->
    sklearn.cell_eqb b b' = true -> sklearn.cell_ltb a b = sklearn.cell_ltb a b';
  kind_irrefl : forall a, P a = true -> sklearn.cell_ltb a a = false;
  kind_trans : forall a b c, P a = true -> P b = true -> P c = true ->
    sklearn.cell_ltb a b = true -> sklearn.cell_ltb b c = true ->
    sklearn.cell_ltb a c = true;
  kind_total : forall a b, P a = true -> P b = true ->
    sklearn.cell_ltb a b = false -> sklearn.cell_ltb b a = false ->
    sklearn.cell_eqb a b = true;
  kind_present : forall a m, P a = true -> isna m = true ->
    sklearn.cell_eqb a m = false
}.

(** A column that the parquet engine can store: its entries are of one
    type (float64, int64, or strings with None for the missing ones). *)
Definition storable (col : column) : bool :=
  forallb (fun c => match c with VFloat _ => true | _ => false end) col
  || forallb (fun c => match c with VInt _ => true | _ => false end) col
  || forallb (fun c => match c with VStr _ | VNone => true | _ => false end) col.

(* ================================================================== *)
(** * Properties *)

(** ** How the processors run

    Each processor reads the object it is given and nothing else, so its
    result is a function of the table the object holds. *)

Section Runs.

Variables (df : ref) (w : world).

Lemma getitem_run (label : string) :
  py.getitem df label w = (pd.getitem (nth df (heap w) []) label, w).
Proof. reflexivity. Qed.

Lemma Standardizer_run :
  code_with_solid.Standardizer df w =
  ((let? a := pd.getitem (nth df (heap w) []) "feature_a" in
    single_responsibility_1.normalize_feature a), w).
Proof.
  unfold code_with_solid.Standardizer, single_responsibility_1.normalize_feature,
    bind, lift, ret; rewrite !getitem_run.
  destruct (pd.getitem (nth df (heap w) []) "feature_a") as [a|e]; simpl; [|reflexivity].
  destruct (np.std a); simpl; [|reflexivity].
  destruct (np.mean a); simpl; [|reflexivity].
  destruct (pd.sub a a1); simpl; [|reflexivity].
  destruct (pd.div a2 a0); reflexivity.
Qed.

Lemma Encoder_run :
  code_with_solid.Encoder df w =
  ((let? b := pd.getitem (nth df (heap w) []) "feature_b" in
    let? fitted := sklearn.fit_transform b in
    Ok (mkSeries "feature_b_encoded" (map VInt (snd fitted)))), w).
Proof.
  unfold code_with_solid.Encoder, bind, lift, ret; rewrite getitem_run.
  destruct (pd.getitem (nth df (heap w) []) "feature_b") as [b|e]; simpl; [|reflexivity].
  destruct (sklearn.fit_transform b); reflexivity.
Qed.

Lemma NanFiller_run :
  code_with_solid.NanFiller df w =
  ((let? c := pd.getitem (nth df (heap w) []) "feature_c" in
    single_responsibility_1.fill_feature c (VInt (-1))), w).
Proof.
  unfold code_with_solid.NanFiller, single_responsibility_1.fill_feature,
    bind, lift, ret; rewrite getitem_run.
  destruct (pd.getitem (nth df (heap w) []) "feature_c") as [c|e]; simpl; [|reflexivity].
  destruct (pd.fillna c (VInt (-1))); reflexivity.
Qed.

End Runs.

(** ** The fill transform *)

Lemma stored_same_number (col : column) (v : cell) :
  sklearn.cell_eqb (pd.stored col v) v = true.
Proof.
  destruct v as [x|n|s|]; simpl.
  - destruct x; simpl; try reflexivity.
    destruct (Req_dec_T x x); [reflexivity | contradiction].
  - destruct (pd.is_float64 col); simpl.
    + destruct (Req_dec_T (IZR n) (IZR n)); [reflexivity | contradiction].
    + apply Z.eqb_refl.
  - apply String.eqb_refl.
  - reflexivity.
Qed.

Lemma stored_isna (col : column) (v : cell) :
  isna (pd.stored col v) = isna v.
Proof.
  destruct v as [x|n|s|]; simpl; try reflexivity.
  destruct (pd.is_float64 col); reflexivity.
Qed.

Lemma fillna_ok (s : Series) (v : cell) :
  v <> VNone ->
  pd.fillna s v =
  Ok (mkSeries (sname s)
        (map (fun c => if isna c then pd.stored (svalues s) v else c) (svalues s))).
Proof. destruct v; intros H; try reflexivity. contradiction. Qed.

(** C5.  For every source column and every fill value [v] (None is no
    value: pandas refuses it), the fill transform returns a column of the
    same length in which each missing entry of the source is [v], held in
    the dtype of the column (the integer -1 is -1.0 in a float64 column:
    the same number), and each other entry is the entry of the source; when
    [v] is not missing the output has no missing entry.  [NanFiller] is
    this transform on the column feature_c with the value -1. *)
Theorem fill_replaces_missing_only
  (feature : Series) (v : cell) (Hv : v <> VNone) :
  exists out : Series,
    single_responsibility_1.fill_feature feature v = Ok out
    /\ sname out = sname feature
    /\ List.length (svalues out) = List.length (svalues feature)
    /\ (forall i c, nth_error (svalues feature) i = Some c ->
          nth_error (svalues out) i =
          Some (if isna c then pd.stored (svalues feature) v else c))
    /\ sklearn.cell_eqb (pd.stored (svalues feature) v) v = true
    /\ (isna v = false -> forallb (fun c => negb (isna c)) (svalues out) = true)
    /\ (forall df w,
          code_with_solid.NanFiller df w =
          ((let? c := pd.getitem (nth df (heap w) []) "feature_c" in
            single_responsibility_1.fill_feature c (VInt (-1))), w)).
Proof.
  unfold single_responsibility_1.fill_feature.
  rewrite (fillna_ok feature v Hv).
  eexists; split; [reflexivity|]; simpl.
  split; [reflexivity|].
  split; [apply length_map|].
  split.
  { intros i c Hi. rewrite nth_error_map, Hi. reflexivity. }
  split; [apply stored_same_number|].
  split.
  { intros Hna. apply forallb_forall. intros c Hc.
    apply in_map_iff in Hc. destruct Hc as [c0 [Hc0 _]].
    destruct (isna c0) eqn:E; subst c.
    - rewrite stored_isna, Hna. reflexivity.
    - rewrite E. reflexivity. }
  intros df w. apply NanFiller_run.
Qed.

Lemma fill_replaces_missing_only_witness :
  exists out : Series,
    single_responsibility_1.fill_feature
      (mkSeries "feature_c"
         [VFloat (Fin 5); VFloat NaN; VFloat (Fin 7); VFloat NaN]) (VInt (-1))
    = Ok out
    /\ svalues out =
       [VFloat (Fin 5); VFloat (Fin (-1)); VFloat (Fin 7); VFloat (Fin (-1))].
Proof.
  destruct (fill_replaces_missing_only
              (mkSeries "feature_c"
                 [VFloat (Fin 5); VFloat NaN; VFloat (Fin 7); VFloat NaN])
              (VInt (-1)) ltac:(discriminate)) as [out [H _]].
  exists out. split; [exact H|].
  simpl in H. injection H as <-. reflexivity.
Defined.

(** ** The label encoder *)

Lemma cell_eqb_label (a b : cell) :
  is_label a = true -> (sklearn.cell_eqb a b = true <-> a = b).
Proof.
  destruct a as [x|n|s|]; simpl; try discriminate.
  - destruct x; try discriminate. intros _.
    destruct b as [y|m|t|]; simpl; try (split; discriminate).
    destruct y; simpl; split; try discriminate; reflexivity.
  - intros _. destruct b; simpl; try (split; discriminate).
    rewrite String.eqb_eq. split; congruence.
  - intros _. destruct b; simpl; split; try discriminate; reflexivity.
Qed.

Lemma cell_eqb_label_refl (a : cell) :
  is_label a = true -> sklearn.cell_eqb a a = true.
Proof. intros H. apply (cell_eqb_label a a H). reflexivity. Qed.

Lemma In_insert (x y : cell) (l : column) :
  In y (sklearn.insert x l) <-> y = x \/ In y l.
Proof.
  induction l as [|z l IH]; simpl.
  - intuition.
  - destruct (sklearn.cell_ltb z x); simpl; rewrite ?IH; intuition.
Qed.

Lemma In_sorted (y : cell) (l : column) :
  In y (sklearn.sorted l) <-> In y l.
Proof.
  induction l as [|x l IH]; simpl.
  - reflexivity.
  - rewrite In_insert, IH. intuition.
Qed.

Lemma In_distinct (y : cell) (l : column) :
  forallb is_label l = true ->
  (In y (sklearn.distinct l) <-> In y l).
Proof.
  induction l as [|c l IH]; simpl; intros Hl.
  - reflexivity.
  - apply andb_prop in Hl. destruct Hl as [Hc Hl].
    rewrite filter_In, (IH Hl). split.
    + intuition.
    + intros [->|Hy]; [left; reflexivity|].
      destruct (sklearn.cell_eqb c y) eqn:E.
      * left. apply (cell_eqb_label c y Hc). exact E.
      * right. split; [exact Hy | reflexivity].
Qed.

Lemma NoDup_distinct (l : column) :
  forallb is_label l = true -> NoDup (sklearn.distinct l).
Proof.
  induction l as [|c l IH]; simpl; intros Hl.
  - constructor.
  - apply andb_prop in Hl. destruct Hl as [Hc Hl]. constructor.
    + rewrite filter_In. intros [_ H].
      rewrite (cell_eqb_label_refl c Hc) in H. discriminate.
    + apply NoDup_filter. apply IH. exact Hl.
Qed.

Lemma index_nth (classes : column) (c : cell) :
  forallb is_label classes = true -> In c classes ->
  (0 <= sklearn.index classes c)%Z
  /\ nth_error classes (Z.to_nat (sklearn.index classes c)) = Some c.
Proof.
  induction classes as [|d rest IH]; intros Hl Hin; [contradiction|].
  cbn [forallb] in Hl. apply andb_prop in Hl. destruct Hl as [Hd Hl].
  cbn [sklearn.index].
  destruct (sklearn.cell_eqb d c) eqn:E.
  - apply (cell_eqb_label d c Hd) in E. subst d.
    split; [apply Z.le_refl | reflexivity].
  - destruct Hin as [->|Hin].
    + rewrite (cell_eqb_label_refl c Hd) in E. discriminate.
    + destruct (IH Hl Hin) as [H0 Hn]. split; [lia|].
      rewrite Z2Nat.inj_add by lia. exact Hn.
Qed.

Lemma string_ltb_total (s t : string) :
  String.ltb t s = false -> s <> t -> String.ltb s t = true.
Proof.
  unfold String.ltb. rewrite (String.compare_antisym t s).
  destruct (String.compare s t) eqn:E; simpl; intros H Hne.
  - apply String.compare_eq_iff in E. congruence.
  - reflexivity.
  - discriminate.
Qed.

Lemma increasing_tail (c : cell) (l : column) :
  increasing (c :: l) -> increasing l.
Proof. intros H. inversion H; subst; [constructor | assumption]. Qed.

Lemma increasing_head (c d : cell) (l : column) :
  increasing (c :: l) -> hd_error l = Some d -> sklearn.cell_ltb c d = true.
Proof.
  intros H Hd. inversion H; subst; simpl in Hd; [discriminate|].
  injection Hd as <-. assumption.
Qed.

Lemma increasing_push (c : cell) (l : column) :
  increasing l ->
  (forall d, hd_error l = Some d -> sklearn.cell_ltb c d = true) ->
  increasing (c :: l).
Proof.
  intros Hl Hd. destruct l as [|d l]; constructor; [|exact Hl].
  apply Hd. reflexivity.
Qed.

Lemma hd_insert (x : cell) (l : column) (d : cell) :
  hd_error (sklearn.insert x l) = Some d -> d = x \/ hd_error l = Some d.
Proof.
  destruct l as [|y l]; simpl.
  - intros H. injection H as <-. left. reflexivity.
  - destruct (sklearn.cell_ltb y x); simpl; intros H; injection H as <-.
    + right. reflexivity.
    + left. reflexivity.
Qed.

Lemma insert_increasing (x : cell) (l : column) :
  sklearn.is_str x = true -> forallb sklearn.is_str l = true ->
  increasing l -> ~ In x l -> increasing (sklearn.insert x l).
Proof.
  intros Hx. induction l as [|y l IH]; simpl; intros Hl Hinc Hnin.
  - constructor.
  - apply andb_prop in Hl. destruct Hl as [Hy Hl].
    destruct (sklearn.cell_ltb y x) eqn:E.
    + apply increasing_push.
      * apply IH; [exact Hl | exact (increasing_tail y l Hinc) | tauto].
      * intros d Hd. apply hd_insert in Hd. destruct Hd as [->|Hd]; [exact E|].
        exact (increasing_head y d l Hinc Hd).
    + constructor; [|exact Hinc].
      destruct x as [| |s|]; try discriminate.
      destruct y as [| |t|]; try discriminate.
      simpl in *. apply string_ltb_total; [exact E|].
      intros ->. apply Hnin. left. reflexivity.
Qed.

Lemma sorted_is_str (l : column) :
  forallb sklearn.is_str l = true -> forallb sklearn.is_str (sklearn.sorted l) = true.
Proof.
  intros H. apply forallb_forall. intros c Hc. apply (proj1 (In_sorted c l)) in Hc.
  exact (proj1 (forallb_forall _ _) H c Hc).
Qed.

Lemma sorted_increasing (l : column) :
  forallb sklearn.is_str l = true -> NoDup l -> increasing (sklearn.sorted l).
Proof.
  induction l as [|x l IH]; simpl; intros Hl Hnd.
  - constructor.
  - apply andb_prop in Hl. destruct Hl as [Hx Hl].
    inversion Hnd as [|? ? Hnin Hnd']; subst.
    apply insert_increasing; [exact Hx | apply sorted_is_str; exact Hl | |].
    + apply IH; assumption.
    + rewrite In_sorted. exact Hnin.
Qed.

Lemma present_is_str (col : column) :
  forallb is_label col = true ->
  forallb sklearn.is_str (sklearn.present col) = true.
Proof.
  intros H. apply forallb_forall. intros c Hc.
  apply filter_In in Hc. destruct Hc as [Hin Hna].
  pose proof (proj1 (forallb_forall _ _) H c Hin) as Hl.
  destruct c as [x| | |]; simpl in *; try discriminate; try reflexivity.
  destruct x; discriminate.
Qed.

Lemma present_is_label (col : column) :
  forallb is_label col = true ->
  forallb is_label (sklearn.present col) = true.
Proof.
  intros H. apply forallb_forall. intros c Hc.
  apply filter_In in Hc. destruct Hc as [Hin _].
  exact (proj1 (forallb_forall _ _) H c Hin).
Qed.

Lemma existsb_label (a : cell) (col : column) :
  is_label a = true ->
  (existsb (sklearn.cell_eqb a) col = true <-> In a col).
Proof.
  intros Ha. rewrite existsb_exists. split.
  - intros [c [Hin E]]. apply (cell_eqb_label a c Ha) in E. subst c. exact Hin.
  - intros Hin. exists a. split; [exact Hin | apply cell_eqb_label_refl; exact Ha].
Qed.

Lemma unique_labels (col : column) :
  forallb is_label col = true ->
  sklearn.unique col = Ok (sklearn.classes_of col).
Proof.
  intros H. unfold sklearn.unique.
  rewrite (present_is_str col H). reflexivity.
Qed.

Lemma In_classes_of (col : column) (c : cell) :
  forallb is_label col = true ->
  (In c (sklearn.classes_of col) <-> In c col).
Proof.
  intros H. unfold sklearn.classes_of.
  rewrite !in_app_iff, In_sorted, (In_distinct c _ (present_is_label col H)).
  unfold sklearn.present. rewrite filter_In.
  pose proof (existsb_label VNone col eq_refl) as HN.
  pose proof (existsb_label (VFloat NaN) col eq_refl) as HF.
  split.
  - intros [[Hin _]|[Hn|Hf]]; [exact Hin| |].
    + destruct (existsb (sklearn.cell_eqb VNone) col); [|contradiction].
      destruct Hn as [<-|[]]. apply HN. reflexivity.
    + destruct (existsb (sklearn.cell_eqb (VFloat NaN)) col); [|contradiction].
      destruct Hf as [<-|[]]. apply HF. reflexivity.
  - intros Hin. destruct (isna c) eqn:E.
    + right.
      pose proof (proj1 (forallb_forall _ _) H c Hin) as Hl.
      destruct c as [x| | |]; simpl in E, Hl; try discriminate.
      * destruct x; try discriminate. right.
        rewrite (proj2 HF Hin). left. reflexivity.
      * left. rewrite (proj2 HN Hin). left. reflexivity.
    + left. split; [exact Hin | reflexivity].
Qed.

Lemma classes_of_labels (col : column) :
  forallb is_label col = true ->
  forallb is_label (sklearn.classes_of col) = true.
Proof.
  intros H. apply forallb_forall. intros c Hc.
  apply (In_classes_of col c H) in Hc.
  exact (proj1 (forallb_forall _ _) H c Hc).
Qed.

(** The code of an entry of the column leads back to the entry. *)
Lemma decode_index (col : column) (c : cell) :
  forallb is_label col = true -> In c col ->
  (0 <= sklearn.index (sklearn.classes_of col) c)%Z
  /\ nth_error (sklearn.classes_of col)
       (Z.to_nat (sklearn.index (sklearn.classes_of col) c)) = Some c.
Proof.
  intros H Hin. apply index_nth.
  - apply classes_of_labels. exact H.
  - apply In_classes_of; assumption.
Qed.

Lemma fit_transform_labels (name : string) (col : column) :
  forallb is_label col = true ->
  sklearn.fit_transform (mkSeries name col) =
  Ok (sklearn.mkLabelEncoder (sklearn.classes_of col),
      map (sklearn.index (sklearn.classes_of col)) col).
Proof.
  intros H. unfold sklearn.fit_transform. simpl.
  rewrite (unique_labels col H). reflexivity.
Qed.

Lemma strings_are_labels (labels : list string) :
  forallb is_label (map VStr labels) = true.
Proof. induction labels; simpl; auto. Qed.

Lemma strings_are_present (labels : list string) :
  sklearn.present (map VStr labels) = map VStr labels.
Proof.
  unfold sklearn.present. induction labels as [|s l IH]; simpl; [reflexivity|].
  f_equal. exact IH.
Qed.

Lemma strings_have_no_missing (labels : list string) (c : cell) :
  isna c = true -> existsb (sklearn.cell_eqb c) (map VStr labels) = false.
Proof.
  intros Hc. induction labels as [|s l IH]; simpl; [reflexivity|].
  rewrite IH. destruct c as [x| | |]; try discriminate; reflexivity.
Qed.

(** C7.  For every categorical column (strings, with or without missing
    entries) the encoder succeeds, decoding the codes through the
    vocabulary fitted in that call gives the column back, and two entries
    are equal exactly when their codes are equal. *)
Theorem encode_round_trip (name : string) (col : column)
  (Hcat : forallb is_label col = true) :
  exists (enc : sklearn.LabelEncoder) (codes : list Z),
    sklearn.fit_transform (mkSeries name col) = Ok (enc, codes)
    /\ single_responsibility_1.encode_feature (mkSeries name col)
       = Ok (mkSeries name (map VInt codes))
    /\ List.length codes = List.length col
    /\ sklearn.inverse_transform enc codes = map Some col
    /\ (forall i j a b ki kj,
          nth_error col i = Some a -> nth_error col j = Some b ->
          nth_error codes i = Some ki -> nth_error codes j = Some kj ->
          (a = b <-> ki = kj)).
Proof.
  exists (sklearn.mkLabelEncoder (sklearn.classes_of col)),
         (map (sklearn.index (sklearn.classes_of col)) col).
  split; [apply fit_transform_labels; exact Hcat|].
  split.
  { unfold single_responsibility_1.encode_feature.
    rewrite (fit_transform_labels name col Hcat). reflexivity. }
  split; [apply length_map|].
  split.
  { unfold sklearn.inverse_transform. cbn [sklearn.classes_].
    rewrite map_map. apply map_ext_in. intros c Hc.
    destruct (decode_index col c Hcat Hc) as [H0 Hn].
    destruct (Z.ltb_spec (sklearn.index (sklearn.classes_of col) c) 0); [lia|].
    exact Hn. }
  intros i j a b ki kj Ha Hb Hi Hj.
  rewrite nth_error_map, Ha in Hi. rewrite nth_error_map, Hb in Hj.
  injection Hi as <-. injection Hj as <-.
  split; [intros ->; reflexivity|]. intros E.
  destruct (decode_index col a Hcat (nth_error_In _ _ Ha)) as [_ Hna].
  destruct (decode_index col b Hcat (nth_error_In _ _ Hb)) as [_ Hnb].
  rewrite E in Hna. congruence.
Qed.

Lemma encode_round_trip_witness :
  exists (enc : sklearn.LabelEncoder) (codes : list Z),
    sklearn.fit_transform
      (mkSeries "feature_b" [VStr "x"; VStr "y"; VNone; VStr "x"; VStr "z"])
    = Ok (enc, codes)
    /\ sklearn.inverse_transform enc codes
       = [Some (VStr "x"); Some (VStr "y"); Some VNone; Some (VStr "x");
          Some (VStr "z")].
Proof.
  destruct (encode_round_trip "feature_b"
              [VStr "x"; VStr "y"; VNone; VStr "x"; VStr "z"] eq_refl)
    as [enc [codes [H1 [_ [_ [H2 _]]]]]].
  exists enc, codes. split; [exact H1 | exact H2].
Defined.

(** ** Standardization *)

Section Standardization.

Local Open Scope R_scope.

Lemma as_floats_floats (xs : list R) :
  np.as_floats (floats xs) = Ok (map Fin xs).
Proof.
  unfold floats. induction xs as [|x xs IH]; [reflexivity|].
  cbn [map np.as_floats np.as_float rbind]. rewrite IH. reflexivity.
Qed.

Lemma dropna_Fin (xs : list R) : np.dropna (map Fin xs) = map Fin xs.
Proof.
  unfold np.dropna. induction xs as [|x xs IH]; simpl; [reflexivity|].
  f_equal. exact IH.
Qed.

Lemma fsum_Fin (xs : list R) : np.fsum (map Fin xs) = Fin (Rsum xs).
Proof.
  unfold np.fsum. induction xs as [|x xs IH]; simpl; [reflexivity|].
  rewrite IH. reflexivity.
Qed.

Lemma fdiv_Fin (x y : R) : y <> 0 -> fdiv (Fin x) (Fin y) = Fin (x / y).
Proof.
  intros Hy. simpl. destruct (Req_dec_T y 0); [contradiction | reflexivity].
Qed.

Lemma length_pos (xs : list R) : xs <> [] -> INR (List.length xs) <> 0.
Proof.
  intros H. apply not_0_INR. destruct xs; [contradiction | discriminate].
Qed.

Lemma Rsum_nonneg (f : R -> R) (xs : list R) :
  (forall x, 0 <= f x) -> 0 <= Rsum (map f xs).
Proof.
  intros Hf. induction xs as [|x xs IH]; simpl; [lra|].
  pose proof (Hf x). lra.
Qed.

Lemma variance_nonneg (m : R) (xs : list R) :
  0 <= Rsum (map (fun x => (x - m) * (x - m)) xs) / INR (List.length xs).
Proof.
  destruct xs as [|x xs].
  - simpl. unfold Rdiv. rewrite Rmult_0_l. lra.
  - apply Rmult_le_pos.
    + apply Rsum_nonneg. intros y. exact (Rle_0_sqr (y - m)).
    + apply Rlt_le, Rinv_0_lt_compat, lt_0_INR. simpl. lia.
Qed.

Lemma nanmean_Fin (xs : list R) :
  xs <> [] -> np.nanmean (map Fin xs) = Fin (mu xs).
Proof.
  intros H. unfold np.nanmean. rewrite dropna_Fin.
  destruct xs as [|x xs]; [contradiction|].
  change (map Fin (x :: xs)) with (Fin x :: map Fin xs) at 1.
  cbv iota. rewrite fsum_Fin, length_map, fdiv_Fin; [reflexivity|].
  apply length_pos. discriminate.
Qed.

Lemma nanstd_Fin (xs : list R) :
  xs <> [] -> np.nanstd (map Fin xs) = Fin (sigma xs).
Proof.
  intros H. unfold np.nanstd. rewrite dropna_Fin.
  destruct xs as [|x xs]; [contradiction|].
  change (map Fin (x :: xs)) with (Fin x :: map Fin xs) at 1.
  cbv iota zeta.
  set (l := x :: xs) in *. clearbody l.
  assert (Hn : INR (List.length l) <> 0) by (apply length_pos; exact H).
  rewrite fsum_Fin, length_map, (fdiv_Fin _ _ Hn).
  fold (mu l). rewrite map_map.
  rewrite (map_ext _ (fun y => Fin ((y - mu l) * (y - mu l)))).
  2:{ intros y. simpl. f_equal. unfold Rminus. ring. }
  rewrite <- (map_map (fun y => (y - mu l) * (y - mu l)) Fin).
  rewrite fsum_Fin, (fdiv_Fin _ _ Hn). cbn [fsqrt].
  destruct (Rlt_dec _ 0) as [Hlt|_]; [|reflexivity].
  pose proof (variance_nonneg (mu l) l). lra.
Qed.

End Standardization.

Section StandardizationResult.

Local Open Scope R_scope.

Lemma sigma_nil : sigma [] = 0.
Proof.
  unfold sigma. simpl. unfold Rdiv. rewrite Rmult_0_l. apply sqrt_0.
Qed.

Lemma sigma_nonzero_nonempty (xs : list R) : sigma xs <> 0 -> xs <> [].
Proof. intros H ->. apply H. apply sigma_nil. Qed.

Lemma sub_floats (name : string) (xs : list R) (m : R) :
  pd.sub (mkSeries name (floats xs)) (Fin m) =
  Ok (mkSeries name (floats (map (fun x => x - m) xs))).
Proof.
  unfold pd.sub. cbn [svalues sname]. rewrite as_floats_floats.
  cbn [rbind]. unfold floats. rewrite !map_map. reflexivity.
Qed.

Lemma div_floats (name : string) (xs : list R) (d : R) :
  d <> 0 ->
  pd.div (mkSeries name (floats xs)) (Fin d) =
  Ok (mkSeries name (floats (map (fun x => x / d) xs))).
Proof.
  intros Hd. unfold pd.div. cbn [svalues sname]. rewrite as_floats_floats.
  cbn [rbind]. unfold floats. rewrite !map_map. do 2 f_equal.
  apply map_ext. intros x. rewrite (fdiv_Fin x d Hd). reflexivity.
Qed.

Lemma mean_floats (name : string) (xs : list R) :
  xs <> [] -> np.mean (mkSeries name (floats xs)) = Ok (Fin (mu xs)).
Proof.
  intros H. unfold np.mean. cbn [svalues]. rewrite as_floats_floats.
  cbn [rbind]. rewrite (nanmean_Fin xs H). reflexivity.
Qed.

Lemma std_floats (name : string) (xs : list R) :
  xs <> [] -> np.std (mkSeries name (floats xs)) = Ok (Fin (sigma xs)).
Proof.
  intros H. unfold np.std. cbn [svalues]. rewrite as_floats_floats.
  cbn [rbind]. rewrite (nanstd_Fin xs H). reflexivity.
Qed.

Lemma normalize_floats (name : string) (xs : list R) :
  sigma xs <> 0 ->
  single_responsibility_1.normalize_feature (mkSeries name (floats xs)) =
  Ok (mkSeries name (floats (standardized xs))).
Proof.
  intros Hs. pose proof (sigma_nonzero_nonempty xs Hs) as Hne.
  unfold single_responsibility_1.normalize_feature.
  rewrite (std_floats name xs Hne), (mean_floats name xs Hne). cbn [rbind].
  rewrite sub_floats. cbn [rbind]. rewrite (div_floats name _ (sigma xs) Hs).
  unfold standardized. rewrite map_map. reflexivity.
Qed.

Lemma Rsum_map_minus (m : R) (xs : list R) :
  Rsum (map (fun x => x - m) xs) = Rsum xs - INR (List.length xs) * m.
Proof.
  induction xs as [|x xs IH].
  - simpl. ring.
  - change (Rsum (map (fun x => x - m) (x :: xs)))
      with (x - m + Rsum (map (fun x => x - m) xs)).
    change (Rsum (x :: xs)) with (x + Rsum xs).
    change (List.length (x :: xs)) with (S (List.length xs)).
    rewrite IH, S_INR. ring.
Qed.

Lemma Rsum_map_div (f : R -> R) (k : R) (xs : list R) :
  Rsum (map (fun x => f x / k) xs) = Rsum (map f xs) / k.
Proof.
  induction xs as [|x xs IH].
  - simpl. unfold Rdiv. ring.
  - change (Rsum (map (fun x => f x / k) (x :: xs)))
      with (f x / k + Rsum (map (fun x => f x / k) xs)).
    change (Rsum (map f (x :: xs))) with (f x + Rsum (map f xs)).
    rewrite IH. unfold Rdiv. ring.
Qed.

(** The z-scores have mean 0. *)
Lemma mu_standardized (xs : list R) : xs <> [] -> mu (standardized xs) = 0.
Proof.
  intros Hne. pose proof (length_pos xs Hne) as Hn.
  unfold mu at 1, standardized. rewrite length_map.
  rewrite (Rsum_map_div (fun x => x - mu xs) (sigma xs)), Rsum_map_minus.
  unfold mu. unfold Rdiv.
  replace (Rsum xs - INR (List.length xs) * (Rsum xs * / INR (List.length xs)))
    with 0 by (field; exact Hn).
  ring.
Qed.

(** The z-scores have standard deviation 1 when sigma is not 0. *)
Lemma sigma_standardized (xs : list R) :
  sigma xs <> 0 -> sigma (standardized xs) = 1.
Proof.
  intros Hs. pose proof (sigma_nonzero_nonempty xs Hs) as Hne.
  pose proof (length_pos xs Hne) as Hn.
  unfold sigma at 1. rewrite (mu_standardized xs Hne).
  unfold standardized at 1 2. rewrite length_map, map_map.
  rewrite (map_ext _ (fun x => (x - mu xs) * (x - mu xs) / (sigma xs * sigma xs))).
  2:{ intros x. field. exact Hs. }
  rewrite (Rsum_map_div (fun x => (x - mu xs) * (x - mu xs)) (sigma xs * sigma xs)).
  set (S := Rsum (map (fun x => (x - mu xs) * (x - mu xs)) xs)).
  assert (HS : sigma xs * sigma xs = S / INR (List.length xs)).
  { unfold sigma. apply sqrt_sqrt. apply variance_nonneg. }
  replace (S / (sigma xs * sigma xs) / INR (List.length xs)) with 1.
  - apply sqrt_1.
  - rewrite HS. field. split; [exact Hn|].
    intros HS0. apply Hs.
    assert (sigma xs * sigma xs = 0) as H0.
    { rewrite HS, HS0. unfold Rdiv. ring. }
    destruct (Rmult_integral _ _ H0); assumption.
Qed.

End StandardizationResult.

Section ConstantColumn.

Local Open Scope R_scope.







End ConstantColumn.

Lemma sigma_1_2_3_4 : sigma [1; 2; 3; 4]%R <> 0%R.
Proof.
  intros H. unfold sigma in H.
  apply (sqrt_eq_0 _ (variance_nonneg (mu [1; 2; 3; 4]%R) [1; 2; 3; 4]%R)) in H.
  assert (Hm : mu [1; 2; 3; 4]%R = (5 / 2)%R) by (unfold mu; simpl; field).
  rewrite Hm in H. simpl in H. lra.
Qed.

(** ** Numeric columns: int64 as well as float64 *)

Lemma as_floats_VFloat {A} (f : A -> float) (xs : list A) :
  np.as_floats (map (fun x => VFloat (f x)) xs) = Ok (map f xs).
Proof.
  induction xs as [|x xs IH]; [reflexivity|].
  cbn [map np.as_floats np.as_float rbind]. rewrite IH. reflexivity.
Qed.

Lemma as_floats_numbers (col : column) :
  forallb is_number col = true -> np.as_floats col = Ok (map Fin (numbers col)).
Proof.
  unfold numbers. induction col as [|c col IH]; intros H; [reflexivity|].
  cbn [forallb] in H. apply andb_prop in H. destruct H as [Hc H].
  cbn [map np.as_floats]. rewrite (IH H).
  destruct c as [[x| | |]|n|s|]; try discriminate; reflexivity.
Qed.

Lemma numbers_as_floats (col : column) :
  forallb is_number col = true ->
  np.as_floats col = np.as_floats (floats (numbers col)).
Proof.
  intros H. rewrite (as_floats_numbers col H), as_floats_floats. reflexivity.
Qed.

(** The statistics and the transform read the column through [as_floats]
    only. *)
Lemma stats_as_floats (name : string) (col col' : column) :
  np.as_floats col = np.as_floats col' ->
  np.mean (mkSeries name col) = np.mean (mkSeries name col')
  /\ np.std (mkSeries name col) = np.std (mkSeries name col').
Proof.
  intros H. unfold np.mean, np.std. cbn [svalues]. rewrite H.
  split; reflexivity.
Qed.

Lemma normalize_as_floats (name : string) (col col' : column) :
  np.as_floats col = np.as_floats col' ->
  single_responsibility_1.normalize_feature (mkSeries name col)
  = single_responsibility_1.normalize_feature (mkSeries name col').
Proof.
  intros H.
  unfold single_responsibility_1.normalize_feature, np.std, np.mean, pd.sub.
  cbn [svalues sname]. rewrite H. reflexivity.
Qed.

(** C4.  For every numeric column x_1 .. x_R, of int64 or of float64
    entries, whose population standard deviation sigma is not 0, [np.mean]
    and [np.std] are the population mean mu and sigma, the standardization
    transform ([normalize_feature], and [Standardizer] on the column
    feature_a) returns the float64 column of the (x_i - mu) / sigma, of
    the same length, and that column has mean 0 and standard deviation 1.
    Numbers are exact reals here: this is the claim in exact arithmetic,
    and it says nothing of a column on which float64 overflows. *)
Theorem standardize_mean_0_std_1 (name : string) (col : column)
  (Hnum : forallb is_number col = true)
  (Hvar : sigma (numbers col) <> 0%R) :
  np.mean (mkSeries name col) = Ok (Fin (mu (numbers col)))
  /\ np.std (mkSeries name col) = Ok (Fin (sigma (numbers col)))
  /\ single_responsibility_1.normalize_feature (mkSeries name col)
     = Ok (mkSeries name (floats (standardized (numbers col))))
  /\ (forall df w,
        pd.getitem (nth df (heap w) []) "feature_a"
        = Ok (mkSeries "feature_a" col) ->
        code_with_solid.Standardizer df w
        = (Ok (mkSeries "feature_a" (floats (standardized (numbers col)))), w))
  /\ (forall i c, nth_error col i = Some c ->
        nth_error (floats (standardized (numbers col))) i
        = Some (VFloat (Fin ((number c - mu (numbers col))
                             / sigma (numbers col)))))
  /\ List.length (standardized (numbers col)) = List.length col
  /\ mu (standardized (numbers col)) = 0%R
  /\ sigma (standardized (numbers col)) = 1%R
  /\ np.mean (mkSeries name (floats (standardized (numbers col)))) = Ok (Fin 0)
  /\ np.std (mkSeries name (floats (standardized (numbers col)))) = Ok (Fin 1).
Proof.
  pose proof (numbers_as_floats col Hnum) as Hcol.
  set (xs := numbers col) in *.
  pose proof (sigma_nonzero_nonempty xs Hvar) as Hne.
  assert (Hne' : standardized xs <> []).
  { destruct xs; [contradiction | discriminate]. }
  destruct (stats_as_floats name col (floats xs) Hcol) as [Hm Hs].
  assert (Hn : forall name', single_responsibility_1.normalize_feature
                 (mkSeries name' col)
               = Ok (mkSeries name' (floats (standardized xs)))).
  { intros name'. rewrite (normalize_as_floats name' col (floats xs) Hcol).
    apply normalize_floats. exact Hvar. }
  split; [rewrite Hm; apply mean_floats; exact Hne|].
  split; [rewrite Hs; apply std_floats; exact Hne|].
  split; [apply Hn|].
  split.
  { intros df w H. rewrite Standardizer_run, H. cbn [rbind].
    rewrite Hn. reflexivity. }
  split.
  { intros i c Hi. unfold floats, standardized, xs, numbers.
    rewrite !nth_error_map, Hi. reflexivity. }
  split; [unfold standardized, xs, numbers; rewrite !length_map; reflexivity|].
  split; [apply mu_standardized; exact Hne|].
  split; [apply sigma_standardized; exact Hvar|].
  split.
  - rewrite (mean_floats name _ Hne'), (mu_standardized xs Hne). reflexivity.
  - rewrite (std_floats name _ Hne'), (sigma_standardized xs Hvar). reflexivity.
Qed.

Lemma standardize_mean_0_std_1_witness :
  single_responsibility_1.normalize_feature
    (mkSeries "feature_a" [VInt 1; VInt 2; VInt 3; VInt 4])
  = Ok (mkSeries "feature_a" (floats (standardized [1; 2; 3; 4]%R)))
  /\ mu (standardized [1; 2; 3; 4]%R) = 0%R
  /\ sigma (standardized [1; 2; 3; 4]%R) = 1%R.
Proof.
  destruct (standardize_mean_0_std_1 "feature_a"
              [VInt 1; VInt 2; VInt 3; VInt 4] eq_refl sigma_1_2_3_4)
    as [_ [_ [H1 [_ [_ [_ [H2 [H3 _]]]]]]]].
  split; [exact H1 | split; [exact H2 | exact H3]].
Defined.








(** ** The store *)

Lemma length_update {A} (n : nat) (x : A) (l : list A) :
  List.length (update n x l) = List.length l.
Proof.
  revert n. induction l as [|y l IH]; intros [|n]; simpl; auto.
Qed.

Lemma nth_update_same {A} (n : nat) (x d : A) (l : list A) :
  (n < List.length l)%nat -> nth n (update n x l) d = x.
Proof.
  revert n. induction l as [|y l IH]; intros [|n] H; simpl in *; try lia.
  - reflexivity.
  - apply IH. lia.
Qed.

Lemma nth_update_other {A} (n m : nat) (x d : A) (l : list A) :
  m <> n -> nth m (update n x l) d = nth m l d.
Proof.
  revert n m. induction l as [|y l IH]; intros [|n] [|m] H; simpl; auto;
    try congruence.
Qed.

Lemma update_update {A} (n : nat) (x y : A) (l : list A) :
  update n y (update n x l) = update n y l.
Proof.
  revert n. induction l as [|z l IH]; intros [|n]; simpl; auto.
  f_equal. apply IH.
Qed.

Lemma update_nth {A} (n : nat) (d : A) (l : list A) :
  update n (nth n l d) l = l.
Proof.
  revert n. induction l as [|z l IH]; intros [|n]; simpl; auto.
  f_equal. apply IH.
Qed.

(** ** The in-place steps *)

Lemma apply_run (s : steps.step) (df : ref) (w : world) :
  steps.apply s df w =
  match output s (nth df (heap w) []) with
  | Ok col =>
      (Ok df,
       mkWorld (update df (pd.setitem (nth df (heap w) []) (target s) col) (heap w))
               (files w))
  | Raise e => (Raise e, w)
  end.
Proof.
  destruct s as [f|f e|f v]; simpl.
  - unfold steps.NormalizeFeature_apply, single_responsibility_1.normalize_feature,
      bind, lift, ret. rewrite !getitem_run.
    destruct (pd.getitem (nth df (heap w) []) f) as [a|x]; simpl; [|reflexivity].
    destruct (np.std a); simpl; [|reflexivity].
    destruct (np.mean a); simpl; [|reflexivity].
    destruct (pd.sub a a1); simpl; [|reflexivity].
    destruct (pd.div a2 a0); reflexivity.
  - unfold steps.EncodeCategoricalFeature_apply, bind, lift, ret.
    rewrite getitem_run.
    destruct (pd.getitem (nth df (heap w) []) f) as [b|x]; simpl; [|reflexivity].
    destruct (sklearn.fit_transform b); reflexivity.
  - unfold steps.FillNaNFeature_apply, bind, lift, ret. rewrite getitem_run.
    destruct (pd.getitem (nth df (heap w) []) f) as [c|x]; simpl; [|reflexivity].
    destruct (pd.fillna c v); reflexivity.
Qed.

Lemma apply_all_run (ss : list steps.step) (df : ref) (w : world) :
  (df < List.length (heap w))%nat ->
  steps.apply_all ss df w =
  (match snd (run_steps ss (nth df (heap w) [])) with
   | None => Ok df
   | Some e => Raise e
   end,
   mkWorld (update df (fst (run_steps ss (nth df (heap w) []))) (heap w)) (files w)).
Proof.
  revert w. induction ss as [|s rest IH]; intros w Hdf.
  - simpl. unfold ret. rewrite update_nth. destruct w; reflexivity.
  - cbn [steps.apply_all run_steps]. unfold bind. rewrite apply_run.
    destruct (output s (nth df (heap w) [])) as [col|e].
    + rewrite IH by (cbn [heap]; rewrite length_update; exact Hdf).
      cbn [heap files]. rewrite (nth_update_same df _ [] (heap w) Hdf).
      rewrite update_update. reflexivity.
    + simpl. rewrite update_nth. destruct w; reflexivity.
Qed.

(** ** What a transform changes *)

Lemma labelled_app (t u : DataFrame) (label : string) :
  pd.labelled (t ++ u) label = pd.labelled t label ++ pd.labelled u label.
Proof. unfold pd.labelled. rewrite filter_app, map_app. reflexivity. Qed.

Lemma labelled_absent (t : DataFrame) (label : string) :
  existsb (String.eqb label) (columns t) = false -> pd.labelled t label = [].
Proof.
  unfold pd.labelled, columns. induction t as [|[k c] t IH]; simpl; [reflexivity|].
  rewrite (String.eqb_sym label k). destruct (String.eqb k label); simpl.
  - discriminate.
  - exact IH.
Qed.

Lemma labelled_setitem_other (t : DataFrame) (label other : string) (col : column) :
  other <> label ->
  pd.labelled (pd.setitem t label col) other = pd.labelled t other.
Proof.
  intros Hne. unfold pd.setitem.
  destruct (existsb (String.eqb label) (columns t)).
  - unfold pd.labelled. induction t as [|[k c] t IH]; simpl; [reflexivity|].
    destruct (String.eqb k label) eqn:E; simpl.
    + apply String.eqb_eq in E. subst k.
      destruct (String.eqb label other) eqn:E'.
      * apply String.eqb_eq in E'. congruence.
      * exact IH.
    + destruct (String.eqb k other); simpl; [f_equal|]; exact IH.
  - rewrite labelled_app. unfold pd.labelled at 2. simpl.
    destruct (String.eqb label other) eqn:E'.
    + apply String.eqb_eq in E'. congruence.
    + apply app_nil_r.
Qed.

Lemma labelled_setitem_same (t : DataFrame) (label : string) (col : column) :
  pd.labelled (pd.setitem t label col) label =
  match pd.labelled t label with
  | [] => [col]
  | olds => map (fun _ => col) olds
  end.
Proof.
  unfold pd.setitem.
  destruct (existsb (String.eqb label) (columns t)) eqn:Ex.
  - assert (H : pd.labelled
                  (map (fun p => if String.eqb (fst p) label
                                 then (fst p, col) else p) t) label
                = map (fun _ => col) (pd.labelled t label)).
    { unfold pd.labelled. clear Ex.
      induction t as [|[k c] t IH]; simpl; [reflexivity|].
      destruct (String.eqb k label) eqn:E; simpl; rewrite E; simpl;
        [f_equal|]; exact IH. }
    rewrite H. destruct (pd.labelled t label) eqn:El; [|reflexivity].
    exfalso. apply existsb_exists in Ex. destruct Ex as [k [Hin Hk]].
    apply String.eqb_eq in Hk. subst k.
    unfold columns in Hin. apply in_map_iff in Hin.
    destruct Hin as [[k c] [Hk Hin]]. simpl in Hk. subst k.
    assert (In c (pd.labelled t label)) as Hc.
    { unfold pd.labelled. apply in_map_iff. exists (label, c).
      split; [reflexivity|]. apply filter_In. split; [exact Hin|].
      apply String.eqb_refl. }
    rewrite El in Hc. exact Hc.
  - rewrite labelled_app, (labelled_absent t label Ex). unfold pd.labelled.
    simpl. rewrite String.eqb_refl. reflexivity.
Qed.

Lemma columns_setitem (t : DataFrame) (label : string) (col : column) :
  columns (pd.setitem t label col) =
  if existsb (String.eqb label) (columns t) then columns t
  else columns t ++ [label].
Proof.
  unfold pd.setitem, columns.
  destruct (existsb (String.eqb label) (map fst t)).
  - rewrite map_map. apply map_ext. intros [k c]. simpl.
    destruct (String.eqb k label); reflexivity.
  - rewrite map_app. reflexivity.
Qed.

(** C8, as stated, fails: [FillNaNFeature.apply] changes the table it is
    given.  On the small table the column feature_c holds 5, nan before the
    call and 5, -1 after it, in the same object. *)
Lemma fill_step_overwrites_its_input :
  steps.apply (steps.FillNaNFeature "feature_c" (VInt (-1))) 0%nat small_world
  = (Ok 0%nat,
     mkWorld [[("feature_b"%string, [VStr "x"; VStr "y"]);
               ("feature_c"%string, [VFloat (Fin 5); VFloat (Fin (-1))])]]
             (files small_world))
  /\ ~ leaves_unchanged
         (steps.apply (steps.FillNaNFeature "feature_c" (VInt (-1))) 0%nat)
         0%nat small_world.
Proof.
  split; [reflexivity|].
  unfold leaves_unchanged. rewrite apply_run. simpl.
  intros H. discriminate H.
Qed.

(** C8, amended.  The processors of code_with_solid.py read the table and
    leave every object and file as they are.  A step of the other scripts
    ([NormalizeFeature], [EncodeCategoricalFeature], [FillNaNFeature])
    assigns the values it computed to its target column (its source
    column for the first and the last) in the very object it was given and
    returns that object; the columns under any other label, the labels
    already present, every other object and the files are unchanged, and
    a step that raises changes nothing. *)
Theorem transforms_change_only_their_target :
  (forall df w,
     snd (code_with_solid.Standardizer df w) = w
     /\ snd (code_with_solid.Encoder df w) = w
     /\ snd (code_with_solid.NanFiller df w) = w)
  /\ (forall s df w,
        steps.apply s df w =
        match output s (nth df (heap w) []) with
        | Ok col =>
            (Ok df,
             mkWorld (update df (pd.setitem (nth df (heap w) []) (target s) col)
                        (heap w))
                     (files w))
        | Raise e => (Raise e, w)
        end)
  /\ (forall t label col other,
        other <> label ->
        pd.labelled (pd.setitem t label col) other = pd.labelled t other)
  /\ (forall t label col,
        pd.labelled (pd.setitem t label col) label =
        match pd.labelled t label with
        | [] => [col]
        | olds => map (fun _ => col) olds
        end)
  /\ (forall t label col,
        columns (pd.setitem t label col) =
        if existsb (String.eqb label) (columns t) then columns t
        else columns t ++ [label])
  /\ (forall s df w other,
        other <> df ->
        nth other (heap (snd (steps.apply s df w))) [] = nth other (heap w) [])
  /\ (forall s df w, files (snd (steps.apply s df w)) = files w).
Proof.
  split.
  { intros df w. rewrite Standardizer_run, Encoder_run, NanFiller_run.
    repeat split. }
  split; [exact apply_run|].
  split; [intros t label col other; apply labelled_setitem_other|].
  split; [exact labelled_setitem_same|].
  split; [exact columns_setitem|].
  split.
  - intros s df w other Hne. rewrite apply_run.
    destruct (output s (nth df (heap w) [])); [|reflexivity].
    cbn [snd heap]. apply nth_update_other. exact Hne.
  - intros s df w. rewrite apply_run.
    destruct (output s (nth df (heap w) [])); reflexivity.
Qed.

(** ** Running a list of steps *)

Lemma nth_alloc {A} (l : list A) (x d : A) : nth (List.length l) (l ++ [x]) d = x.
Proof. induction l as [|y l IH]; simpl; [reflexivity | exact IH]. Qed.

Lemma update_alloc {A} (l : list A) (x y : A) :
  update (List.length l) y (l ++ [x]) = l ++ [y].
Proof. induction l as [|z l IH]; simpl; [reflexivity | f_equal; exact IH]. Qed.

Lemma read_parquet_run (path : string) (w : world) (t : DataFrame) :
  lookup_file path (files w) = Some t ->
  py.read_parquet path w =
  (Ok (List.length (heap w)), mkWorld (heap w ++ [t]) (files w)).
Proof. intros H. unfold py.read_parquet. rewrite H. reflexivity. Qed.

Lemma read_parquet_files (path : string) (w : world) :
  files (snd (py.read_parquet path w)) = files w.
Proof.
  unfold py.read_parquet. destruct (lookup_file path (files w)); reflexivity.
Qed.

Lemma apply_all_files (ss : list steps.step) (df : ref) (w : world) :
  files (snd (steps.apply_all ss df w)) = files w.
Proof.
  revert df w. induction ss as [|s rest IH]; intros df w; [reflexivity|].
  cbn [steps.apply_all]. unfold bind. rewrite apply_run.
  destruct (output s (nth df (heap w) [])); [|reflexivity].
  rewrite IH. reflexivity.
Qed.

Lemma run_steps_app (pre rest : list steps.step) (t : DataFrame) :
  run_steps (pre ++ rest) t =
  match run_steps pre t with
  | (t', None) => run_steps rest t'
  | stopped => stopped
  end.
Proof.
  revert t. induction pre as [|s pre IH]; intros t; [reflexivity|].
  cbn [app run_steps]. destruct (output s t); [apply IH | reflexivity].
Qed.

Lemma output_absent (s : steps.step) (t : DataFrame) :
  existsb (String.eqb (source s)) (columns t) = false ->
  output s t = Raise (KeyError (source s)).
Proof.
  intros H. apply labelled_absent in H.
  destruct s; simpl in *; unfold pd.getitem; rewrite H; reflexivity.
Qed.

(** [open_close.process], from the file to the file. *)
Lemma process_run (path output_path : string) (ss : list steps.step)
  (w : world) (t : DataFrame) :
  lookup_file path (files w) = Some t ->
  open_close.process path output_path ss w =
  match run_steps ss t with
  | (t', Some e) => (Raise e, mkWorld (heap w ++ [t']) (files w))
  | (t', None) =>
      if has_duplicates (columns t')
      then (Raise ValueError, mkWorld (heap w ++ [t']) (files w))
      else (Ok (List.length (heap w)),
            mkWorld (heap w ++ [t']) (write_file output_path t' (files w)))
  end.
Proof.
  intros H. unfold open_close.process. unfold bind at 1.
  rewrite (read_parquet_run path w t H). unfold bind at 1.
  rewrite apply_all_run by (cbn [heap]; rewrite length_app; simpl; lia).
  cbn [heap files]. rewrite nth_alloc, update_alloc.
  destruct (run_steps ss t) as [t' [e|]]; cbn [fst snd]; [reflexivity|].
  unfold bind, py.to_parquet, ret. cbn [heap files]. rewrite nth_alloc.
  destruct (has_duplicates (columns t')); reflexivity.
Qed.

(** Whatever is raised, no file has been written. *)
Lemma process_raises_writes_nothing (path output_path : string)
  (ss : list steps.step) (w w' : world) (e : exn) :
  open_close.process path output_path ss w = (Raise e, w') ->
  files w' = files w.
Proof.
  unfold open_close.process, bind.
  pose proof (read_parquet_files path w) as Hr.
  destruct (py.read_parquet path w) as [[df|e0] w1]; cbn [snd] in Hr.
  - pose proof (apply_all_files ss df w1) as Ha.
    destruct (steps.apply_all ss df w1) as [[df2|e2] w2]; cbn [snd] in Ha.
    + unfold py.to_parquet, ret.
      destruct (has_duplicates (columns (nth df2 (heap w2) []))).
      * intros H. injection H as _ <-. congruence.
      * discriminate.
    + intros H. injection H as _ <-. congruence.
  - intros H. injection H as _ <-. exact Hr.
Qed.

(** ** A missing column *)

(** C2, as stated, fails, twice over.  A step whose source column is
    missing stops the run only when it is reached: here the fill of
    feature_c has already run, and the loaded object holds 5, -1 when the
    KeyError for feature_x is raised.  And a source column absent from
    the input table is no failure when an earlier step creates it:
    feature_b_encoded is read by the second step below and the run writes
    its output. *)
Lemma missing_column_is_met_late :
  open_close.process "data/data.parquet" "data/preprocessed_data.parquet"
    [steps.FillNaNFeature "feature_c" (VInt (-1));
     steps.FillNaNFeature "feature_x" (VInt (-1))] small_world
  = (Raise (KeyError "feature_x"),
     mkWorld [small_table;
              [("feature_b"%string, [VStr "x"; VStr "y"]);
               ("feature_c"%string, [VFloat (Fin 5); VFloat (Fin (-1))])]]
             (files small_world))
  /\ existsb (String.eqb "feature_b_encoded") (columns small_table) = false
  /\ open_close.process "data/data.parquet" "data/preprocessed_data.parquet"
       [steps.EncodeCategoricalFeature "feature_b" "feature_b_encoded";
        steps.FillNaNFeature "feature_b_encoded" (VInt (-1))] small_world
     = (Ok 1%nat,
        mkWorld [small_table;
                 small_table ++ [("feature_b_encoded"%string, [VInt 0; VInt 1])]]
                [("data/preprocessed_data.parquet"%string,
                  small_table ++ [("feature_b_encoded"%string, [VInt 0; VInt 1])]);
                 ("data/data.parquet"%string, small_table)]).
Proof. repeat split. Qed.

(** C2, amended.  The run fails with a KeyError naming the column at the
    first step whose source column is absent from the table as the steps
    before it have left it; those steps have run, on the loaded object
    only; and whenever the run raises, for whatever reason, no file has
    been written. *)
Theorem missing_column_fails_when_reached
  (path output_path : string) (pre post : list steps.step) (s : steps.step)
  (w : world) (t t' : DataFrame)
  (Hfile : lookup_file path (files w) = Some t)
  (Hpre : run_steps pre t = (t', None))
  (Habsent : existsb (String.eqb (source s)) (columns t') = false) :
  open_close.process path output_path (pre ++ s :: post) w
  = (Raise (KeyError (source s)), mkWorld (heap w ++ [t']) (files w))
  /\ (forall ss w0 w1 e,
        open_close.process path output_path ss w0 = (Raise e, w1) ->
        files w1 = files w0).
Proof.
  split.
  - rewrite (process_run path output_path _ w t Hfile).
    rewrite run_steps_app, Hpre. cbn [run_steps].
    rewrite (output_absent s t' Habsent). reflexivity.
  - intros ss w0 w1 e. apply process_raises_writes_nothing.
Qed.

Lemma missing_column_fails_when_reached_witness :
  open_close.process "data/data.parquet" "data/preprocessed_data.parquet"
    ([steps.FillNaNFeature "feature_c" (VInt (-1))]
     ++ steps.FillNaNFeature "feature_x" (VInt (-1))
     :: [steps.NormalizeFeature "feature_c"]) small_world
  = (Raise (KeyError "feature_x"),
     mkWorld (heap small_world
              ++ [[("feature_b"%string, [VStr "x"; VStr "y"]);
                   ("feature_c"%string, [VFloat (Fin 5); VFloat (Fin (-1))])]])
             (files small_world)).
Proof.
  exact (proj1 (missing_column_fails_when_reached
                  "data/data.parquet" "data/preprocessed_data.parquet"
                  [steps.FillNaNFeature "feature_c" (VInt (-1))]
                  [steps.NormalizeFeature "feature_c"]
                  (steps.FillNaNFeature "feature_x" (VInt (-1)))
                  small_world small_table
                  [("feature_b"%string, [VStr "x"; VStr "y"]);
                   ("feature_c"%string, [VFloat (Fin 5); VFloat (Fin (-1))])]
                  eq_refl eq_refl eq_refl)).
Defined.

(** ** Names of the produced series *)

Lemma getitem_name (t : DataFrame) (label : string) (s : Series) :
  pd.getitem t label = Ok s -> sname s = label.
Proof.
  unfold pd.getitem. destruct (pd.labelled t label) as [|c [|c' l]];
    try discriminate.
  intros H. injection H as <-. reflexivity.
Qed.

Lemma normalize_name (a s : Series) :
  single_responsibility_1.normalize_feature a = Ok s -> sname s = sname a.
Proof.
  unfold single_responsibility_1.normalize_feature, pd.sub, pd.div.
  destruct (np.std a); simpl; [|discriminate].
  destruct (np.mean a); simpl; [|discriminate].
  destruct (np.as_floats (svalues a)); simpl; [|discriminate].
  destruct (np.as_floats _); simpl; [|discriminate].
  intros H. injection H as <-. reflexivity.
Qed.

Lemma fillna_name (c s : Series) (v : cell) :
  pd.fillna c v = Ok s -> sname s = sname c.
Proof.
  unfold pd.fillna. destruct v; try discriminate;
    intros H; injection H as <-; reflexivity.
Qed.

Lemma getitem_app_other (t u : DataFrame) (label : string) :
  existsb (String.eqb label) (columns u) = false ->
  pd.getitem (t ++ u) label = pd.getitem t label.
Proof.
  intros H. unfold pd.getitem.
  rewrite labelled_app, (labelled_absent u label H), app_nil_r. reflexivity.
Qed.

(** ** The loop of [DataPipeline.process] on the default processors *)

Lemma concat_run (df : ref) (s : Series) (w : world) :
  py.concat df s w =
  (Ok (List.length (heap w)),
   mkWorld (heap w ++ [pd.concat (nth df (heap w) []) s]) (files w)).
Proof. reflexivity. Qed.

Lemma nth_alloc_old {A} (l : list A) (x d : A) (n : nat) :
  (n < List.length l)%nat -> nth n (l ++ [x]) d = nth n l d.
Proof. intros H. apply app_nth1. exact H. Qed.

Section DefaultLoop.

Variables (df : ref) (w : world).
Hypothesis Hdf : (df < List.length (heap w))%nat.

Lemma standardized_feature_name (s1 : Series) :
  standardized_feature (nth df (heap w) []) = Ok s1 ->
  sname s1 = "feature_a"%string.
Proof.
  unfold standardized_feature.
  destruct (pd.getitem (nth df (heap w) []) "feature_a") as [a|e] eqn:E; simpl; [|discriminate].
  intros H. rewrite (normalize_name a s1 H). exact (getitem_name _ _ _ E).
Qed.

Lemma default_loop_on_original_run :
  process_loop_on_original code_with_solid.default_processors df df w
  = default_run (nth df (heap w) []) w.
Proof.
  unfold default_run, code_with_solid.default_processors.
  cbn [process_loop_on_original]. unfold bind at 1.
  rewrite Standardizer_run. fold (standardized_feature (nth df (heap w) [])).
  destruct (standardized_feature (nth df (heap w) [])) as [s1|e]; [|reflexivity].
  unfold bind at 1. rewrite concat_run.
  unfold bind at 1. rewrite Encoder_run. cbn [heap].
  rewrite (nth_alloc_old _ _ _ _ Hdf). fold (encoded_feature (nth df (heap w) [])).
  destruct (encoded_feature (nth df (heap w) [])) as [s2|e]; [|reflexivity].
  unfold bind at 1. rewrite concat_run. cbn [heap files]. rewrite nth_alloc.
  unfold bind at 1. rewrite NanFiller_run. cbn [heap].
  rewrite nth_alloc_old by (rewrite length_app; simpl; lia).
  rewrite (nth_alloc_old _ _ _ _ Hdf). fold (filled_feature (nth df (heap w) [])).
  destruct (filled_feature (nth df (heap w) [])) as [s3|e]; [|reflexivity].
  unfold bind at 1. rewrite concat_run. cbn [heap files].
  rewrite length_app. cbn [List.length]. rewrite nth_alloc.
  unfold ret. do 2 f_equal. rewrite length_app. cbn [List.length]. lia.
Qed.

Lemma default_loop_run :
  code_with_solid.process_loop code_with_solid.default_processors df w
  = default_run (nth df (heap w) []) w.
Proof.
  unfold default_run, code_with_solid.default_processors.
  cbn [code_with_solid.process_loop]. unfold bind at 1.
  rewrite Standardizer_run. fold (standardized_feature (nth df (heap w) [])).
  destruct (standardized_feature (nth df (heap w) [])) as [s1|e] eqn:E1; [|reflexivity].
  pose proof (standardized_feature_name s1 E1) as N1.
  unfold bind at 1. rewrite concat_run.
  unfold bind at 1. rewrite Encoder_run. cbn [heap]. rewrite nth_alloc.
  unfold pd.concat at 1. rewrite getitem_app_other
    by (cbn [columns map fst]; rewrite N1; reflexivity).
  fold (encoded_feature (nth df (heap w) [])).
  destruct (encoded_feature (nth df (heap w) [])) as [s2|e] eqn:E2; [|reflexivity].
  assert (N2 : sname s2 = "feature_b_encoded"%string).
  { unfold encoded_feature in E2.
    destruct (pd.getitem (nth df (heap w) []) "feature_b"); simpl in E2; [|discriminate].
    destruct (sklearn.fit_transform a); simpl in E2; [|discriminate].
    injection E2 as <-. reflexivity. }
  unfold bind at 1. rewrite concat_run. cbn [heap files]. rewrite nth_alloc.
  unfold bind at 1. rewrite NanFiller_run. cbn [heap].
  rewrite length_app. cbn [List.length].
  replace (List.length (heap w) + 1)%nat
    with (List.length (heap w ++ [pd.concat (nth df (heap w) []) s1]))
    by (rewrite length_app; reflexivity).
  rewrite nth_alloc.
  unfold pd.concat at 1 2. rewrite <- app_assoc. rewrite getitem_app_other
    by (cbn [columns map fst app]; rewrite N1, N2; reflexivity).
  fold (filled_feature (nth df (heap w) [])).
  destruct (filled_feature (nth df (heap w) [])) as [s3|e]; [|reflexivity].
  unfold bind at 1. rewrite concat_run. cbn [heap files].
  replace (List.length (heap w) + 1)%nat
    with (List.length (heap w ++ [pd.concat (nth df (heap w) []) s1]))
    by (rewrite length_app; reflexivity).
  rewrite nth_alloc.
  unfold ret. do 2 f_equal. rewrite !length_app. cbn [List.length]. lia.
Qed.

End DefaultLoop.

(** ** Threading the table, or reading the original *)

Lemma threaded_cons (s : steps.step) (rest : list steps.step) (t : DataFrame) :
  threaded (s :: rest) t =
  let? col := output s t in threaded rest (pd.setitem t (target s) col).
Proof.
  unfold threaded. cbn [run_steps]. destruct (output s t); reflexivity.
Qed.

Lemma table_of_apply_all (ss : list steps.step) (df : ref) (w : world) :
  (df < List.length (heap w))%nat ->
  table_of (steps.apply_all ss df w) = threaded ss (nth df (heap w) []).
Proof.
  intros Hdf. rewrite (apply_all_run ss df w Hdf). unfold threaded, table_of.
  destruct (run_steps ss (nth df (heap w) [])) as [t' [e|]]; cbn [fst snd];
    [reflexivity|].
  cbn [heap]. rewrite (nth_update_same df t' [] (heap w) Hdf). reflexivity.
Qed.

(** What a step computes depends on the columns under its source label
    only. *)
Lemma output_labelled (s : steps.step) (t u : DataFrame) :
  pd.labelled t (source s) = pd.labelled u (source s) ->
  output s t = output s u.
Proof.
  intros H. destruct s; simpl in *; unfold pd.getitem; rewrite H; reflexivity.
Qed.

Lemma threaded_independent (ss : list steps.step) (written : list string)
  (original acc : DataFrame) :
  independent written ss = true ->
  (forall label, existsb (String.eqb label) written = false ->
                 pd.labelled acc label = pd.labelled original label) ->
  threaded ss acc = run_on_original ss original acc.
Proof.
  revert written acc. induction ss as [|s rest IH]; intros written acc Hi Hagree.
  - reflexivity.
  - cbn [independent] in Hi. apply andb_prop in Hi. destruct Hi as [Hs Hrest].
    apply negb_true_iff in Hs.
    rewrite threaded_cons. cbn [run_on_original].
    rewrite (output_labelled s acc original (Hagree _ Hs)).
    destruct (output s original) as [col|e]; [|reflexivity].
    cbn [rbind]. apply (IH (target s :: written)); [exact Hrest|].
    intros label Hl. cbn [existsb] in Hl. apply orb_false_elim in Hl.
    destruct Hl as [Ht Hw].
    rewrite labelled_setitem_other; [apply Hagree; exact Hw|].
    intros ->. rewrite String.eqb_refl in Ht. discriminate.
Qed.

(** C1, as stated, fails: the steps thread the table.  Filling feature_c
    with -1 and then with 0 leaves 5, -1, because the second step finds
    nothing missing; invoked against the original table it would have
    produced 5, 0. *)
Lemma second_fill_sees_the_first :
  table_of (steps.apply_all
              [steps.FillNaNFeature "feature_c" (VInt (-1));
               steps.FillNaNFeature "feature_c" (VInt 0)] 0%nat small_world)
  = Ok [("feature_b"%string, [VStr "x"; VStr "y"]);
        ("feature_c"%string, [VFloat (Fin 5); VFloat (Fin (-1))])]
  /\ run_on_original
       [steps.FillNaNFeature "feature_c" (VInt (-1));
        steps.FillNaNFeature "feature_c" (VInt 0)] small_table small_table
     = Ok [("feature_b"%string, [VStr "x"; VStr "y"]);
           ("feature_c"%string, [VFloat (Fin 5); VFloat (Fin 0)])]
  /\ table_of (steps.apply_all
                 [steps.FillNaNFeature "feature_c" (VInt (-1));
                  steps.FillNaNFeature "feature_c" (VInt 0)] 0%nat small_world)
     <> run_on_original
          [steps.FillNaNFeature "feature_c" (VInt (-1));
           steps.FillNaNFeature "feature_c" (VInt 0)] small_table small_table.
Proof.
  assert (H1 : table_of (steps.apply_all
              [steps.FillNaNFeature "feature_c" (VInt (-1));
               steps.FillNaNFeature "feature_c" (VInt 0)] 0%nat small_world)
          = Ok [("feature_b"%string, [VStr "x"; VStr "y"]);
                ("feature_c"%string, [VFloat (Fin 5); VFloat (Fin (-1))])])
    by reflexivity.
  assert (H2 : run_on_original
       [steps.FillNaNFeature "feature_c" (VInt (-1));
        steps.FillNaNFeature "feature_c" (VInt 0)] small_table small_table
     = Ok [("feature_b"%string, [VStr "x"; VStr "y"]);
           ("feature_c"%string, [VFloat (Fin 5); VFloat (Fin 0)])])
    by reflexivity.
  split; [exact H1|]. split; [exact H2|].
  rewrite H1, H2. intros H. injection H as H. lra.
Qed.

(** C1, amended.  The loops thread the accumulating table: each transform
    is invoked on the table as the transforms before it left it.  For the
    in-place steps the table left by the loop is the one obtained from
    the outputs on the original table whenever no step reads a column
    that an earlier step assigns to.  For the default processors of
    code_with_solid.py, on an input file whose labels are distinct and
    whose rows carry the default index (the tables of this model: on
    another index [pd.concat] pads the table, and the later processors
    see the padding), the run is the one that invokes each processor
    against the original loaded table and concatenates the outputs. *)
Theorem threading_agrees_when_independent
  (ss : list steps.step) (df : ref) (w : world)
  (Hindep : independent [] ss = true)
  (Hdf : (df < List.length (heap w))%nat) :
  table_of (steps.apply_all ss df w)
  = run_on_original ss (nth df (heap w) []) (nth df (heap w) [])
  /\ table_of (steps.apply_all ss df w) = threaded ss (nth df (heap w) [])
  /\ (forall path w0,
        (forall t, lookup_file path (files w0) = Some t ->
                   has_duplicates (columns t) = false) ->
        code_with_solid.process code_with_solid.default_processors path w0
        = process_on_original code_with_solid.default_processors path w0).
Proof.
  pose proof (table_of_apply_all ss df w Hdf) as Ht.
  split; [|split; [exact Ht|]].
  - rewrite Ht. apply (threaded_independent ss [] _ _ Hindep).
    intros label _. reflexivity.
  - intros path w0 _. unfold code_with_solid.process, process_on_original, bind.
    destruct (lookup_file path (files w0)) as [t|] eqn:E.
    + rewrite (read_parquet_run path w0 t E).
      rewrite default_loop_run, default_loop_on_original_run;
        [reflexivity | |]; cbn [heap]; rewrite length_app; simpl; lia.
    + unfold py.read_parquet. rewrite E. reflexivity.
Qed.

Lemma threading_agrees_when_independent_witness :
  table_of (steps.apply_all steps.default_steps 0%nat scenario_world)
  = run_on_original steps.default_steps scenario_table scenario_table.
Proof.
  exact (proj1 (threading_agrees_when_independent steps.default_steps 0%nat
                  scenario_world eq_refl ltac:(simpl; lia))).
Defined.

(** ** The default run on a well-typed table *)

Lemma as_floats_num (col : column) :
  forallb sklearn.is_num col = true -> exists xs, np.as_floats col = Ok xs.
Proof.
  induction col as [|c col IH]; simpl; intros H.
  - exists []. reflexivity.
  - apply andb_prop in H. destruct H as [Hc Hcol].
    destruct (IH Hcol) as [xs Hxs]. rewrite Hxs.
    destruct c; try discriminate; simpl; eexists; reflexivity.
Qed.

(** On a numeric column the standardization raises nothing. *)
Lemma normalize_numeric (name : string) (col : column) :
  forallb sklearn.is_num col = true ->
  exists out,
    single_responsibility_1.normalize_feature (mkSeries name col)
    = Ok (mkSeries name out)
    /\ List.length out = List.length col.
Proof.
  intros H. destruct (as_floats_num col H) as [xs Hxs].
  assert (Hlen : List.length xs = List.length col).
  { clear H. revert xs Hxs. induction col as [|c col IH]; simpl; intros xs Hxs.
    - injection Hxs as <-. reflexivity.
    - destruct (np.as_float c); simpl in Hxs; [|discriminate].
      destruct (np.as_floats col); simpl in Hxs; [|discriminate].
      injection Hxs as <-. simpl. f_equal. apply IH. reflexivity. }
  unfold single_responsibility_1.normalize_feature, np.std, np.mean, pd.sub, pd.div.
  cbn [svalues sname]. rewrite Hxs. cbn [rbind svalues sname].
  rewrite as_floats_VFloat. cbn [rbind].
  eexists. split; [reflexivity|]. rewrite !length_map. exact Hlen.
Qed.

Lemma fill_int_ok (name : string) (col : column) (n : Z) :
  single_responsibility_1.fill_feature (mkSeries name col) (VInt n)
  = Ok (mkSeries name
          (map (fun c => if isna c then pd.stored col (VInt n) else c) col)).
Proof. reflexivity. Qed.

Lemma getitem_unique (t : DataFrame) (label : string) (col : column) :
  pd.labelled t label = [col] -> pd.getitem t label = Ok (mkSeries label col).
Proof. intros H. unfold pd.getitem. rewrite H. reflexivity. Qed.

Lemma has_duplicates_app (l : list string) (x : string) (l' : list string) :
  In x l -> In x l' -> has_duplicates (l ++ l') = true.
Proof.
  intros Hl Hl'. induction l as [|y l IH]; [contradiction|].
  cbn [app has_duplicates]. destruct Hl as [->|Hl].
  - apply orb_true_intro. left. apply existsb_exists. exists x.
    split; [apply in_or_app; right; exact Hl' | apply String.eqb_refl].
  - rewrite (IH Hl). apply orb_true_r.
Qed.

Lemma has_duplicates_NoDup (l : list string) :
  has_duplicates l = true -> ~ NoDup l.
Proof.
  induction l as [|x l IH]; simpl; [discriminate|].
  intros H Hnd. inversion Hnd as [|? ? Hnin Hnd']; subst.
  apply orb_prop in H. destruct H as [H|H].
  - apply existsb_exists in H. destruct H as [y [Hy E]].
    apply String.eqb_eq in E. subst y. contradiction.
  - exact (IH H Hnd').
Qed.

Lemma labelled_In (t : DataFrame) (label : string) (col : column) :
  In col (pd.labelled t label) -> In label (columns t).
Proof.
  unfold pd.labelled, columns. intros H. apply in_map_iff in H.
  destruct H as [[k c] [_ H]]. apply filter_In in H. destruct H as [H E].
  simpl in E. apply String.eqb_eq in E. subst k.
  apply in_map_iff. exists (label, c). split; [reflexivity | exact H].
Qed.

(** C9.  With the default processors, on a table holding one numeric
    column feature_a, one categorical column feature_b and one column
    feature_c, [DataPipeline.process] returns the loaded table followed by
    three columns labelled feature_a (standardized), feature_b_encoded
    and feature_c (filled): the labels feature_a and feature_c each occur
    twice, the original columns being retained, so the labels of the
    returned table are not unique. *)
Theorem default_pipeline_repeats_labels
  (path : string) (w : world) (t : DataFrame) (a b c : column)
  (Hfile : lookup_file path (files w) = Some t)
  (Ha : pd.labelled t "feature_a" = [a])
  (Hb : pd.labelled t "feature_b" = [b])
  (Hc : pd.labelled t "feature_c" = [c])
  (Hnum : forallb sklearn.is_num a = true)
  (Hcat : forallb is_label b = true) :
  exists (out : DataFrame) (sa sb sc : column),
    table_of (code_with_solid.process code_with_solid.default_processors path w)
    = Ok out
    /\ out = t ++ [("feature_a"%string, sa); ("feature_b_encoded"%string, sb);
                   ("feature_c"%string, sc)]
    /\ single_responsibility_1.normalize_feature (mkSeries "feature_a" a)
       = Ok (mkSeries "feature_a" sa)
    /\ sb = map VInt (map (sklearn.index (sklearn.classes_of b)) b)
    /\ single_responsibility_1.fill_feature (mkSeries "feature_c" c) (VInt (-1))
       = Ok (mkSeries "feature_c" sc)
    /\ pd.labelled out "feature_a" = [a; sa]
    /\ pd.labelled out "feature_c" = [c; sc]
    /\ has_duplicates (columns out) = true
    /\ ~ NoDup (columns out).
Proof.
  destruct (normalize_numeric "feature_a" a Hnum) as [sa [Hsa _]].
  set (sb := map VInt (map (sklearn.index (sklearn.classes_of b)) b)).
  set (sc := map (fun x => if isna x then pd.stored c (VInt (-1)) else x) c).
  set (out := t ++ [("feature_a"%string, sa); ("feature_b_encoded"%string, sb);
                    ("feature_c"%string, sc)]).
  assert (Hdup : has_duplicates (columns out) = true).
  { unfold out, columns. rewrite map_app.
    apply (has_duplicates_app _ "feature_a").
    - apply (labelled_In t "feature_a" a). rewrite Ha. left. reflexivity.
    - left. reflexivity. }
  exists out, sa, sb, sc.
  split.
  { unfold code_with_solid.process, bind.
    rewrite (read_parquet_run path w t Hfile).
    rewrite default_loop_run by (cbn [heap]; rewrite length_app; simpl; lia).
    cbn [heap files]. rewrite nth_alloc.
    unfold default_run, standardized_feature, encoded_feature, filled_feature.
    rewrite (getitem_unique t "feature_a" a Ha),
            (getitem_unique t "feature_b" b Hb),
            (getitem_unique t "feature_c" c Hc).
    cbn [rbind]. rewrite Hsa, (fit_transform_labels "feature_b" b Hcat).
    cbn [rbind snd]. rewrite fill_int_ok. cbv zeta.
    unfold table_of. cbn [heap].
    match goal with
    | |- Ok (nth _ (?h ++ [?x]) []) = _ =>
        replace (S (S (List.length (heap w ++ [t])))) with (List.length h)
          by (rewrite !length_app; simpl; lia);
        rewrite nth_alloc
    end.
    unfold pd.concat, out. cbn [sname svalues]. rewrite <- !app_assoc.
    reflexivity. }
  split; [reflexivity|].
  split; [exact Hsa|].
  split; [reflexivity|].
  split; [apply fill_int_ok|].
  split.
  { unfold out. rewrite labelled_app, Ha. reflexivity. }
  split.
  { unfold out. rewrite labelled_app, Hc. reflexivity. }
  split; [exact Hdup | apply has_duplicates_NoDup; exact Hdup].
Qed.

Lemma default_pipeline_repeats_labels_witness :
  exists out : DataFrame,
    table_of (code_with_solid.process code_with_solid.default_processors
                "data/data.parquet" scenario_world) = Ok out
    /\ columns out
       = ["feature_a"; "feature_b"; "feature_c";
          "feature_a"; "feature_b_encoded"; "feature_c"]%string
    /\ has_duplicates (columns out) = true.
Proof.
  destruct (default_pipeline_repeats_labels "data/data.parquet" scenario_world
              scenario_table
              (floats [1; 2; 3; 4]%R)
              [VStr "x"; VStr "y"; VStr "x"; VStr "z"]
              [VFloat (Fin 5); VFloat NaN; VFloat (Fin 7); VFloat NaN]
              eq_refl eq_refl eq_refl eq_refl eq_refl eq_refl)
    as [out [sa [sb [sc [H1 [H2 [_ [_ [_ [_ [_ [H3 _]]]]]]]]]]]].
  exists out. split; [exact H1|]. split; [|exact H3].
  rewrite H2. reflexivity.
Defined.

(** ** single_responsibility_1.process *)

Lemma lookup_write_file (path : string) (t : DataFrame)
  (fs : list (string * DataFrame)) :
  lookup_file path (write_file path t fs) = Some t.
Proof.
  unfold lookup_file, write_file. simpl. rewrite String.eqb_refl. reflexivity.
Qed.

(** C10.  In single_responsibility_1, for every loaded table whose columns
    are feature_a (numeric), feature_b (categorical) and feature_c, in
    that order, [process] writes a table with exactly those three labels,
    the labels of the input zipped with the three transformed columns:
    the codes are stored under feature_b, and there is no column
    feature_b_encoded. *)
Theorem process_keeps_the_three_labels
  (path output_path : string) (w : world) (t : DataFrame) (a b c : column)
  (Hfile : lookup_file path (files w) = Some t)
  (Hcols : t = [("feature_a"%string, a); ("feature_b"%string, b);
                ("feature_c"%string, c)])
  (Hnum : forallb sklearn.is_num a = true)
  (Hcat : forallb is_label b = true) :
  exists (w' : world) (out : DataFrame) (sa sc : column),
    single_responsibility_1.process path output_path w = (Ok tt, w')
    /\ lookup_file output_path (files w') = Some out
    /\ out = [("feature_a"%string, sa);
              ("feature_b"%string,
               map VInt (map (sklearn.index (sklearn.classes_of b)) b));
              ("feature_c"%string, sc)]
    /\ out = single_responsibility_1.compose_df
               [mkSeries "feature_a" sa;
                mkSeries "feature_b"
                  (map VInt (map (sklearn.index (sklearn.classes_of b)) b));
                mkSeries "feature_c" sc]
               (columns t)
    /\ single_responsibility_1.normalize_feature (mkSeries "feature_a" a)
       = Ok (mkSeries "feature_a" sa)
    /\ single_responsibility_1.encode_feature (mkSeries "feature_b" b)
       = Ok (mkSeries "feature_b"
               (map VInt (map (sklearn.index (sklearn.classes_of b)) b)))
    /\ single_responsibility_1.fill_feature (mkSeries "feature_c" c) (VInt (-1))
       = Ok (mkSeries "feature_c" sc)
    /\ columns out = columns t
    /\ columns out = ["feature_a"; "feature_b"; "feature_c"]%string
    /\ ~ In "feature_b_encoded"%string (columns out).
Proof.
  destruct (normalize_numeric "feature_a" a Hnum) as [sa [Hsa _]].
  assert (Henc : single_responsibility_1.encode_feature (mkSeries "feature_b" b)
                 = Ok (mkSeries "feature_b"
                         (map VInt (map (sklearn.index (sklearn.classes_of b)) b)))).
  { unfold single_responsibility_1.encode_feature.
    rewrite (fit_transform_labels "feature_b" b Hcat). reflexivity. }
  set (sc := map (fun x => if isna x then pd.stored c (VInt (-1)) else x) c).
  set (out := [("feature_a"%string, sa);
               ("feature_b"%string,
                map VInt (map (sklearn.index (sklearn.classes_of b)) b));
               ("feature_c"%string, sc)]).
  exists (mkWorld ((heap w ++ [t]) ++ [out]) (write_file output_path out (files w))),
         out, sa, sc.
  split.
  { unfold single_responsibility_1.process, single_responsibility_1.load_data.
    unfold bind at 1. rewrite (read_parquet_run path w t Hfile).
    unfold bind at 1. rewrite getitem_run. cbn [heap]. rewrite nth_alloc.
    assert (Hga : pd.getitem t "feature_a" = Ok (mkSeries "feature_a" a))
      by (rewrite Hcols; reflexivity).
    assert (Hgb : pd.getitem t "feature_b" = Ok (mkSeries "feature_b" b))
      by (rewrite Hcols; reflexivity).
    assert (Hgc : pd.getitem t "feature_c" = Ok (mkSeries "feature_c" c))
      by (rewrite Hcols; reflexivity).
    rewrite Hga. unfold bind at 1, lift at 1. rewrite Hsa.
    unfold bind at 1. rewrite getitem_run. cbn [heap]. rewrite nth_alloc, Hgb.
    unfold bind at 1, lift at 1. rewrite Henc.
    unfold bind at 1. rewrite getitem_run. cbn [heap]. rewrite nth_alloc, Hgc.
    unfold bind at 1, lift at 1. rewrite fill_int_ok.
    unfold bind at 1, py.get_columns, bind, py.deref, ret. cbn [heap].
    rewrite nth_alloc. unfold py.alloc. cbn [heap files].
    unfold single_responsibility_1.save_df, py.to_parquet. cbn [heap files].
    rewrite nth_alloc. rewrite Hcols. reflexivity. }
  split; [apply lookup_write_file|].
  split; [reflexivity|].
  split; [rewrite Hcols; reflexivity|].
  split; [exact Hsa|].
  split; [exact Henc|].
  split; [apply fill_int_ok|].
  split; [rewrite Hcols; reflexivity|].
  split; [reflexivity|].
  simpl. intros [H|[H|[H|[]]]]; discriminate.
Qed.

Lemma process_keeps_the_three_labels_witness :
  exists (w' : world) (out : DataFrame),
    single_responsibility_1.process "data/data.parquet"
      "data/preprocessed_data.parquet" scenario_world = (Ok tt, w')
    /\ lookup_file "data/preprocessed_data.parquet" (files w') = Some out
    /\ columns out = ["feature_a"; "feature_b"; "feature_c"]%string.
Proof.
  destruct (process_keeps_the_three_labels "data/data.parquet"
              "data/preprocessed_data.parquet" scenario_world scenario_table
              (floats [1; 2; 3; 4]%R)
              [VStr "x"; VStr "y"; VStr "x"; VStr "z"]
              [VFloat (Fin 5); VFloat NaN; VFloat (Fin 7); VFloat NaN]
              eq_refl eq_refl eq_refl eq_refl)
    as [w' [out [sa [sc [H1 [H2 [_ [_ [_ [_ [_ [_ [H3 _]]]]]]]]]]]]].
  exists w', out. split; [exact H1|]. split; [exact H2 | exact H3].
Defined.

(* ================================================================== *)
(** * Further properties of the scripts *)

(** ** code_with_solid.py: the whole run *)

Lemma process_default_run (path : string) (w : world) (t : DataFrame) :
  lookup_file path (files w) = Some t ->
  code_with_solid.process code_with_solid.default_processors path w
  = default_run t (mkWorld (heap w ++ [t]) (files w)).
Proof.
  intros H. unfold code_with_solid.process, bind.
  rewrite (read_parquet_run path w t H).
  rewrite default_loop_run by (cbn [heap]; rewrite length_app; simpl; lia).
  cbn [heap]. rewrite nth_alloc. reflexivity.
Qed.

Lemma getitem_ok_In (t : DataFrame) (label : string) (s : Series) :
  pd.getitem t label = Ok s -> In label (columns t).
Proof.
  unfold pd.getitem. destruct (pd.labelled t label) as [|c [|c' l]] eqn:E;
    try discriminate.
  intros _. apply (labelled_In t label c). rewrite E. left. reflexivity.
Qed.

Lemma standardized_feature_ok (t : DataFrame) (s1 : Series) :
  standardized_feature t = Ok s1 ->
  sname s1 = "feature_a"%string /\ In "feature_a"%string (columns t).
Proof.
  unfold standardized_feature.
  destruct (pd.getitem t "feature_a") as [a|e] eqn:E; simpl; [|discriminate].
  intros H. split.
  - rewrite (normalize_name a s1 H). exact (getitem_name _ _ _ E).
  - exact (getitem_ok_In _ _ _ E).
Qed.

(** X1.  [main] of code_with_solid.py never writes its output file: when
    the three processors all succeed the table carries the label
    feature_a twice, which [to_parquet] refuses; in every case an
    exception leaves [main] and the files are as before. *)
Theorem code_with_solid_main_never_writes (w : world) :
  exists (e : exn) (w' : world),
    code_with_solid.main w = (Raise e, w') /\ files w' = files w.
Proof.
  unfold code_with_solid.main. unfold bind at 1.
  destruct (lookup_file "data/data.parquet" (files w)) as [t|] eqn:E.
  - rewrite (process_default_run "data/data.parquet" w t E). unfold default_run.
    destruct (standardized_feature t) as [s1|e1] eqn:E1;
      [|exists e1; eexists; split; reflexivity].
    destruct (encoded_feature t) as [s2|e2];
      [|exists e2; eexists; split; reflexivity].
    destruct (filled_feature t) as [s3|e3];
      [|exists e3; eexists; split; reflexivity].
    destruct (standardized_feature_ok t s1 E1) as [N1 Hin].
    unfold py.to_parquet. cbn [heap files].
    replace (S (S (List.length (heap w ++ [t]))))
      with (List.length (((heap w ++ [t]) ++ [pd.concat t s1])
                         ++ [pd.concat (pd.concat t s1) s2]))
      by (rewrite !length_app; simpl; lia).
    rewrite nth_alloc.
    assert (Hd : has_duplicates
                   (columns (pd.concat (pd.concat (pd.concat t s1) s2) s3))
                 = true).
    { unfold pd.concat, columns. rewrite <- !app_assoc, map_app.
      apply (has_duplicates_app _ "feature_a"); [exact Hin|].
      simpl. left. exact N1. }
    rewrite Hd. exists ValueError. eexists. split; reflexivity.
  - unfold code_with_solid.process, bind, py.read_parquet. rewrite E.
    exists (FileNotFoundError "data/data.parquet"), w. split; reflexivity.
Qed.

(** ** The in-place scripts are one computation *)

Lemma bind_ret_r {A} (c : M A) (w : world) : bind c ret w = c w.
Proof. unfold bind, ret. destruct (c w) as [[a|e] w']; reflexivity. Qed.

Lemma bind_assoc {A B C} (c : M A) (f : A -> M B) (g : B -> M C) (w : world) :
  bind (bind c f) g w = bind c (fun a => bind (f a) g) w.
Proof. unfold bind. destruct (c w) as [[a|e] w']; reflexivity. Qed.

Lemma bind_ext {A B} (c : M A) (f g : A -> M B) (w : world) :
  (forall a w', f a w' = g a w') -> bind c f w = bind c g w.
Proof.
  intros H. unfold bind. destruct (c w) as [[a|e] w']; [apply H | reflexivity].
Qed.

Lemma bind_cong {A B} (c c' : M A) (f g : A -> M B) (w : world) :
  (forall w0, c w0 = c' w0) -> (forall a w', f a w' = g a w') ->
  bind c f w = bind c' g w.
Proof.
  intros Hc H. unfold bind. rewrite Hc.
  destruct (c' w) as [[a|e] w']; [apply H | reflexivity].
Qed.

Lemma apply_all_app {B} (ss1 ss2 : list steps.step) (df : ref)
  (k : ref -> M B) (w : world) :
  bind (steps.apply_all (ss1 ++ ss2) df) k w
  = bind (steps.apply_all ss1 df)
      (fun df' => bind (steps.apply_all ss2 df') k) w.
Proof.
  revert df w. induction ss1 as [|s ss1 IH]; intros df w.
  - reflexivity.
  - cbn [app steps.apply_all]. rewrite !bind_assoc. apply bind_ext.
    intros df' w'. apply IH.
Qed.

Lemma each_as_steps {A} (method : A -> ref -> M ref) (mk : A -> steps.step)
  (xs : list A) (df : ref) (w : world) :
  (forall x df' w', method x df' w' = steps.apply (mk x) df' w') ->
  interface_segregation.each method xs df w = steps.apply_all (map mk xs) df w.
Proof.
  intros H. revert df w. induction xs as [|x xs IH]; intros df w.
  - reflexivity.
  - cbn [interface_segregation.each map steps.apply_all]. unfold bind.
    rewrite H. destruct (steps.apply (mk x) df w) as [[df'|e] w'];
      [apply IH | reflexivity].
Qed.

(** X2.  The drivers of the in-place scripts are one computation: the run
    of interface_segregation.py over its three lists is the run of
    liskov_substitution.py over the normalizers, then the encoders, then
    the fillers; dependency_aversion.py with a loader and a saver is the
    same run; single_responsibility.py is that run on the default steps;
    and open_close.py differs only in returning the table. *)
Theorem in_place_scripts_agree :
  (forall path output_path normalizers encoders nan_fillers w,
     interface_segregation.process_data path output_path
       normalizers encoders nan_fillers w
     = liskov_substitution.process_data path output_path
         (as_steps normalizers encoders nan_fillers) w)
  /\ (forall path output_path ss w,
        dependency_aversion.process_data
          (dependency_aversion.mkDataLoader path)
          (dependency_aversion.mkDataSaver output_path) ss w
        = liskov_substitution.process_data path output_path ss w)
  /\ (forall path output_path w,
        single_responsibility.process_data path output_path w
        = liskov_substitution.process_data path output_path
            steps.default_steps w)
  /\ (forall path output_path ss w,
        liskov_substitution.process_data path output_path ss w
        = bind (open_close.process path output_path ss) (fun _ => ret tt) w)
  /\ (forall w, interface_segregation.main w = liskov_substitution.main w).
Proof.
  assert (H1 : forall path output_path normalizers encoders nan_fillers w,
     interface_segregation.process_data path output_path
       normalizers encoders nan_fillers w
     = liskov_substitution.process_data path output_path
         (as_steps normalizers encoders nan_fillers) w).
  { intros path output_path ns es fs w.
    unfold interface_segregation.process_data,
      liskov_substitution.process_data, as_steps.
    apply bind_ext. intros df w1.
    rewrite apply_all_app. apply bind_cong.
    { intros w2. apply each_as_steps. reflexivity. }
    intros df2 w2. rewrite apply_all_app. apply bind_cong.
    { intros w3. apply each_as_steps. reflexivity. }
    intros df3 w3. apply bind_cong.
    { intros w4. apply each_as_steps. reflexivity. }
    intros df4 w4.
    reflexivity. }
  split; [exact H1|].
  split; [reflexivity|].
  split.
  { intros path output_path w.
    unfold single_responsibility.process_data, liskov_substitution.process_data.
    apply bind_ext. intros df w1.
    unfold steps.default_steps. cbn [steps.apply_all steps.apply].
    rewrite !bind_assoc. apply bind_ext. intros df2 w2.
    rewrite !bind_assoc. apply bind_ext. intros df3 w3.
    rewrite bind_assoc. apply bind_ext. intros df4 w4. reflexivity. }
  split.
  { intros path output_path ss w.
    unfold liskov_substitution.process_data, open_close.process.
    rewrite bind_assoc. apply bind_ext. intros df w1.
    rewrite bind_assoc. apply bind_ext. intros df2 w2.
    rewrite bind_assoc. unfold bind, ret.
    destruct (py.to_parquet df2 output_path w2) as [[[]|e] w3]; reflexivity. }
  intros w. apply H1.
Qed.

(** ** Distinct labels are kept, and a successful run is written *)

Lemma existsb_eqb_snoc (x y : string) (l : list string) :
  existsb (String.eqb x) (l ++ [y]) = existsb (String.eqb x) l || String.eqb x y.
Proof. rewrite existsb_app. simpl. rewrite orb_false_r. reflexivity. Qed.

Lemma has_duplicates_snoc (l : list string) (x : string) :
  has_duplicates (l ++ [x]) = has_duplicates l || existsb (String.eqb x) l.
Proof.
  induction l as [|y l IH]; [reflexivity|].
  cbn [app has_duplicates existsb]. rewrite IH, existsb_eqb_snoc.
  rewrite (String.eqb_sym x y).
  destruct (existsb (String.eqb y) l), (String.eqb y x), (has_duplicates l),
    (existsb (String.eqb x) l); reflexivity.
Qed.

Lemma setitem_keeps_distinct (t : DataFrame) (label : string) (col : column) :
  has_duplicates (columns t) = false ->
  has_duplicates (columns (pd.setitem t label col)) = false.
Proof.
  intros H. rewrite columns_setitem.
  destruct (existsb (String.eqb label) (columns t)) eqn:E; [exact H|].
  rewrite has_duplicates_snoc, H, E. reflexivity.
Qed.

Lemma run_steps_keeps_distinct (ss : list steps.step) (t : DataFrame) :
  has_duplicates (columns t) = false ->
  has_duplicates (columns (fst (run_steps ss t))) = false.
Proof.
  revert t. induction ss as [|s rest IH]; intros t H; [exact H|].
  cbn [run_steps]. destruct (output s t) as [col|e]; [|exact H].
  apply IH. apply setitem_keeps_distinct. exact H.
Qed.

Lemma lookup_write_other (path other : string) (t : DataFrame)
  (fs : list (string * DataFrame)) :
  other <> path ->
  lookup_file other (write_file path t fs) = lookup_file other fs.
Proof.
  intros Hne. unfold lookup_file, write_file. cbn [find fst].
  destruct (String.eqb path other) eqn:E.
  { apply String.eqb_eq in E. congruence. }
  induction fs as [|[k u] fs IH]; [reflexivity|].
  cbn [filter find fst]. destruct (String.eqb k path) eqn:Ek; cbn [negb].
  - apply String.eqb_eq in Ek. subst k. rewrite E. exact IH.
  - cbn [find fst]. destruct (String.eqb k other); [reflexivity | exact IH].
Qed.

(** X3.  When the labels of the loaded table are distinct and every step
    succeeds, the labels of the table the steps leave are distinct too.
    When moreover each of its columns is of one type, as the parquet
    engine wants them (a fill value of another type than the column
    would break this), the table is written: [open_close.process]
    returns the loaded object, which now holds that table, the output
    file holds the same table, and the input file, if it is another
    file, still holds the input. *)
Theorem successful_run_is_written
  (path output_path : string) (ss : list steps.step) (w : world)
  (t t' : DataFrame)
  (Hfile : lookup_file path (files w) = Some t)
  (Hdistinct : has_duplicates (columns t) = false)
  (Hrun : run_steps ss t = (t', None))
  (Hstorable : forallb storable (map snd t') = true) :
  has_duplicates (columns t') = false
  /\ open_close.process path output_path ss w
     = (Ok (List.length (heap w)),
        mkWorld (heap w ++ [t']) (write_file output_path t' (files w)))
  /\ table_of (open_close.process path output_path ss w) = Ok t'
  /\ lookup_file output_path
       (files (snd (open_close.process path output_path ss w))) = Some t'
  /\ (path <> output_path ->
      lookup_file path
        (files (snd (open_close.process path output_path ss w))) = Some t).
Proof.
  pose proof (run_steps_keeps_distinct ss t Hdistinct) as Hd.
  rewrite Hrun in Hd. cbn [fst] in Hd.
  assert (Hp : open_close.process path output_path ss w
     = (Ok (List.length (heap w)),
        mkWorld (heap w ++ [t']) (write_file output_path t' (files w)))).
  { rewrite (process_run path output_path ss w t Hfile), Hrun, Hd. reflexivity. }
  split; [exact Hd|]. split; [exact Hp|]. rewrite Hp.
  split; [unfold table_of; cbn [heap]; rewrite nth_alloc; reflexivity|].
  cbn [snd files]. split; [apply lookup_write_file|].
  intros Hne. rewrite lookup_write_other by exact Hne. exact Hfile.
Qed.

Lemma successful_run_is_written_witness :
  open_close.process "data/data.parquet" "data/preprocessed_data.parquet"
    [steps.FillNaNFeature "feature_c" (VInt (-1));
     steps.EncodeCategoricalFeature "feature_b" "feature_b_encoded"]
    small_world
  = (Ok 1%nat,
     mkWorld
       (heap small_world
        ++ [[("feature_b"%string, [VStr "x"; VStr "y"]);
             ("feature_c"%string, [VFloat (Fin 5); VFloat (Fin (-1))]);
             ("feature_b_encoded"%string, [VInt 0; VInt 1])]])
       (write_file "data/preprocessed_data.parquet"
          [("feature_b"%string, [VStr "x"; VStr "y"]);
           ("feature_c"%string, [VFloat (Fin 5); VFloat (Fin (-1))]);
           ("feature_b_encoded"%string, [VInt 0; VInt 1])]
          (files small_world))).
Proof.
  exact (proj1 (proj2 (successful_run_is_written
           "data/data.parquet" "data/preprocessed_data.parquet"
           [steps.FillNaNFeature "feature_c" (VInt (-1));
            steps.EncodeCategoricalFeature "feature_b" "feature_b_encoded"]
           small_world small_table
           [("feature_b"%string, [VStr "x"; VStr "y"]);
            ("feature_c"%string, [VFloat (Fin 5); VFloat (Fin (-1))]);
            ("feature_b_encoded"%string, [VInt 0; VInt 1])]
           eq_refl eq_refl eq_refl eq_refl))).
Defined.

(** ** The number of rows *)

Lemma as_floats_length (col : column) (xs : list float) :
  np.as_floats col = Ok xs -> List.length xs = List.length col.
Proof.
  revert xs. induction col as [|c col IH]; simpl; intros xs H.
  - injection H as <-. reflexivity.
  - destruct (np.as_float c); simpl in H; [|discriminate].
    destruct (np.as_floats col); simpl in H; [|discriminate].
    injection H as <-. simpl. f_equal. apply IH. reflexivity.
Qed.

Lemma normalize_length (a s : Series) :
  single_responsibility_1.normalize_feature a = Ok s ->
  List.length (svalues s) = List.length (svalues a).
Proof.
  unfold single_responsibility_1.normalize_feature, pd.sub, pd.div.
  destruct (np.std a); simpl; [|discriminate].
  destruct (np.mean a); simpl; [|discriminate].
  destruct (np.as_floats (svalues a)) as [xs|] eqn:E; simpl; [|discriminate].
  rewrite as_floats_VFloat. simpl. intros H. injection H as <-. simpl.
  rewrite !length_map. apply as_floats_length. exact E.
Qed.

Lemma fit_transform_length (y : Series) (fitted : sklearn.LabelEncoder * list Z) :
  sklearn.fit_transform y = Ok fitted ->
  List.length (snd fitted) = List.length (svalues y).
Proof.
  unfold sklearn.fit_transform. destruct (sklearn.unique (svalues y)); simpl;
    [|discriminate].
  intros H. injection H as <-. simpl. apply length_map.
Qed.

Lemma fillna_length (c s : Series) (v : cell) :
  pd.fillna c v = Ok s -> List.length (svalues s) = List.length (svalues c).
Proof.
  unfold pd.fillna. destruct v; try discriminate;
    intros H; injection H as <-; simpl; apply length_map.
Qed.

Lemma getitem_rows (R : nat) (t : DataFrame) (label : string) (s : Series) :
  rows R t -> pd.getitem t label = Ok s -> List.length (svalues s) = R.
Proof.
  unfold rows, pd.getitem. intros Hr.
  destruct (pd.labelled t label) as [|c [|c' l]] eqn:E; try discriminate.
  intros H. injection H as <-. simpl.
  assert (Hin : In c (pd.labelled t label)) by (rewrite E; left; reflexivity).
  unfold pd.labelled in Hin. apply in_map_iff in Hin.
  destruct Hin as [[k c0] [Hc Hin]]. simpl in Hc. subst c0.
  apply filter_In in Hin. destruct Hin as [Hin _].
  exact (proj1 (Forall_forall _ _) Hr (k, c) Hin).
Qed.

Lemma output_rows (R : nat) (s : steps.step) (t : DataFrame) (col : column) :
  rows R t -> output s t = Ok col -> List.length col = R.
Proof.
  intros Hr. destruct s as [f|f e|f v]; simpl.
  - destruct (pd.getitem t f) as [a|x] eqn:E; simpl; [|discriminate].
    destruct (single_responsibility_1.normalize_feature a) as [n|x] eqn:En;
      simpl; [|discriminate].
    intros H. injection H as <-. rewrite (normalize_length a n En).
    exact (getitem_rows R t f a Hr E).
  - destruct (pd.getitem t f) as [b|x] eqn:E; simpl; [|discriminate].
    destruct (sklearn.fit_transform b) as [fitted|x] eqn:Ef; simpl; [|discriminate].
    intros H. injection H as <-. rewrite length_map.
    rewrite (fit_transform_length b fitted Ef).
    exact (getitem_rows R t f b Hr E).
  - destruct (pd.getitem t f) as [c|x] eqn:E; simpl; [|discriminate].
    destruct (pd.fillna c v) as [filled|x] eqn:Ef; simpl; [|discriminate].
    intros H. injection H as <-. rewrite (fillna_length c filled v Ef).
    exact (getitem_rows R t f c Hr E).
Qed.

Lemma setitem_rows (R : nat) (t : DataFrame) (label : string) (col : column) :
  rows R t -> List.length col = R -> rows R (pd.setitem t label col).
Proof.
  unfold rows, pd.setitem. intros Hr Hc.
  destruct (existsb (String.eqb label) (columns t)).
  - apply Forall_forall. intros p Hp. apply in_map_iff in Hp.
    destruct Hp as [q [<- Hq]]. destruct (String.eqb (fst q) label); simpl.
    + exact Hc.
    + exact (proj1 (Forall_forall _ _) Hr q Hq).
  - apply Forall_app. split; [exact Hr|]. constructor; [exact Hc | constructor].
Qed.

(** X4.  The steps keep the table rectangular: when every column of the
    table has R rows, the column a step computes has R rows, and every
    column of the table left by a list of steps, whether they all
    succeeded or one of them raised, has R rows; so have the three
    series of the default processors of code_with_solid.py. *)
Theorem steps_keep_the_row_count (R : nat) (t : DataFrame)
  (Hrows : rows R t) :
  (forall s col, output s t = Ok col -> List.length col = R)
  /\ (forall ss, rows R (fst (run_steps ss t)))
  /\ (forall s1, standardized_feature t = Ok s1 -> List.length (svalues s1) = R)
  /\ (forall s2, encoded_feature t = Ok s2 -> List.length (svalues s2) = R)
  /\ (forall s3, filled_feature t = Ok s3 -> List.length (svalues s3) = R).
Proof.
  split; [intros s col; apply output_rows; exact Hrows|].
  split.
  { intros ss. revert t Hrows. induction ss as [|s rest IH]; intros t Hrows;
      [exact Hrows|].
    cbn [run_steps]. destruct (output s t) as [col|e] eqn:E; [|exact Hrows].
    apply IH. apply setitem_rows; [exact Hrows|].
    exact (output_rows R s t col Hrows E). }
  split.
  { intros s1 H.
    apply (output_rows R (steps.NormalizeFeature "feature_a") t (svalues s1) Hrows).
    unfold standardized_feature in H. simpl.
    destruct (pd.getitem t "feature_a"); simpl in *; [|discriminate].
    rewrite H. reflexivity. }
  split.
  { intros s2 H.
    apply (output_rows R (steps.EncodeCategoricalFeature "feature_b" "")
             t (svalues s2) Hrows).
    unfold encoded_feature in H. simpl.
    destruct (pd.getitem t "feature_b"); simpl in *; [|discriminate].
    destruct (sklearn.fit_transform a); simpl in *; [|discriminate].
    injection H as <-. reflexivity. }
  intros s3 H.
  apply (output_rows R (steps.FillNaNFeature "feature_c" (VInt (-1)))
           t (svalues s3) Hrows).
  unfold filled_feature, single_responsibility_1.fill_feature in H.
  cbn [output].
  destruct (pd.getitem t "feature_c"); cbn [rbind] in *; [|discriminate].
  rewrite H. reflexivity.
Qed.

Lemma steps_keep_the_row_count_witness :
  rows 4 (fst (run_steps steps.default_steps scenario_table)).
Proof.
  apply (steps_keep_the_row_count 4 scenario_table).
  unfold rows, scenario_table. repeat constructor.
Defined.

(** ** Running a step twice *)

Lemma setitem_setitem (t : DataFrame) (label : string) (c1 c2 : column) :
  pd.setitem (pd.setitem t label c1) label c2 = pd.setitem t label c2.
Proof.
  unfold pd.setitem at 2 3.
  destruct (existsb (String.eqb label) (columns t)) eqn:E.
  - unfold pd.setitem.
    assert (Hc : columns (map (fun p => if String.eqb (fst p) label
                                        then (fst p, c1) else p) t) = columns t).
    { unfold columns. rewrite map_map. apply map_ext. intros [k c]. simpl.
      destruct (String.eqb k label); reflexivity. }
    rewrite Hc, E, map_map. apply map_ext. intros [k c]. simpl.
    destruct (String.eqb k label) eqn:Ek; simpl; rewrite Ek; reflexivity.
  - unfold pd.setitem. unfold columns at 1. rewrite map_app. simpl.
    fold (columns t). rewrite existsb_app, E. simpl. rewrite String.eqb_refl.
    simpl. rewrite map_app. simpl. rewrite String.eqb_refl. f_equal.
    rewrite <- (map_id t) at 2. apply map_ext_in. intros [k c] Hin. simpl.
    destruct (String.eqb k label) eqn:Ek; [|reflexivity].
    apply String.eqb_eq in Ek. subst k. exfalso.
    assert (existsb (String.eqb label) (columns t) = true) as Hx.
    { apply existsb_exists. exists label. split; [|apply String.eqb_refl].
      unfold columns. apply in_map_iff. exists (label, c). split; auto. }
    congruence.
Qed.

Lemma getitem_setitem (t : DataFrame) (label : string) (old col : column) :
  pd.labelled t label = [old] ->
  pd.getitem (pd.setitem t label col) label = Ok (mkSeries label col).
Proof.
  intros H. unfold pd.getitem. rewrite labelled_setitem_same, H. reflexivity.
Qed.

Lemma is_float64_filled (col : column) (n : Z) :
  pd.is_float64
    (map (fun c => if isna c then pd.stored col (VInt n) else c) col)
  = pd.is_float64 col.
Proof.
  unfold pd.stored. destruct (pd.is_float64 col) eqn:E.
  - unfold pd.is_float64 in *. apply forallb_forall. intros c Hc.
    apply in_map_iff in Hc. destruct Hc as [c0 [<- Hc0]].
    destruct (isna c0); [reflexivity|].
    exact (proj1 (forallb_forall _ _) E c0 Hc0).
  - unfold pd.is_float64 in *. induction col as [|c col IH]; [discriminate|].
    cbn [map forallb] in *. apply andb_false_iff in E.
    apply andb_false_iff. destruct E as [E|E].
    + left. destruct c as [x|m|s|]; try discriminate; reflexivity.
    + right. apply IH. exact E.
Qed.

Lemma fillna_twice (s s1 : Series) (v : cell) :
  pd.fillna s v = Ok s1 -> pd.fillna s1 v = Ok s1.
Proof.
  intros H. assert (Hv : v <> VNone) by (intros ->; discriminate).
  rewrite (fillna_ok s v Hv) in H. injection H as <-.
  rewrite (fillna_ok _ v Hv). cbn [sname svalues]. do 2 f_equal.
  assert (Hst : pd.stored
                  (map (fun c => if isna c then pd.stored (svalues s) v else c)
                       (svalues s)) v
                = pd.stored (svalues s) v).
  { destruct v as [x|n|str|]; try reflexivity.
    unfold pd.stored at 1 3. rewrite is_float64_filled. reflexivity. }
  rewrite Hst, map_map. apply map_ext. intros c.
  destruct (isna c) eqn:E.
  - destruct (isna (pd.stored (svalues s) v)); reflexivity.
  - rewrite E. reflexivity.
Qed.

(** X5.  Filling is idempotent: filling the filled series again with the
    same value returns it unchanged, and two equal [FillNaNFeature] steps
    in a row leave the table that one leaves. *)
Theorem fill_step_twice_is_once
  (t : DataFrame) (feature_name : string) (fill_value : cell) (c : column)
  (Hcol : pd.labelled t feature_name = [c]) :
  (forall s s1, pd.fillna s fill_value = Ok s1 -> pd.fillna s1 fill_value = Ok s1)
  /\ run_steps [steps.FillNaNFeature feature_name fill_value;
                steps.FillNaNFeature feature_name fill_value] t
     = run_steps [steps.FillNaNFeature feature_name fill_value] t.
Proof.
  split; [intros s s1; apply fillna_twice|].
  cbn [run_steps output target].
  rewrite (getitem_unique t feature_name c Hcol). cbn [rbind].
  destruct (pd.fillna (mkSeries feature_name c) fill_value) as [s1|e] eqn:E;
    cbn [rbind]; [|reflexivity].
  rewrite (getitem_setitem t feature_name c (svalues s1) Hcol). cbn [rbind].
  assert (Hn : sname s1 = feature_name) by (apply (fillna_name _ _ _ E)).
  replace (mkSeries feature_name (svalues s1)) with s1
    by (destruct s1; simpl in *; congruence).
  rewrite (fillna_twice _ s1 fill_value E). cbn [rbind].
  rewrite setitem_setitem. reflexivity.
Qed.

Lemma fill_step_twice_is_once_witness :
  run_steps [steps.FillNaNFeature "feature_c" (VInt (-1));
             steps.FillNaNFeature "feature_c" (VInt (-1))] small_table
  = run_steps [steps.FillNaNFeature "feature_c" (VInt (-1))] small_table.
Proof.
  exact (proj2 (fill_step_twice_is_once small_table "feature_c" (VInt (-1))
                  [VFloat (Fin 5); VFloat NaN] eq_refl)).
Defined.

(** ** The order of the default steps *)

Lemma columns_replace (t : DataFrame) (label : string) (col : column) :
  columns (map (fun p => if String.eqb (fst p) label then (fst p, col) else p) t)
  = columns t.
Proof.
  unfold columns. rewrite map_map. apply map_ext. intros [k c]. simpl.
  destruct (String.eqb k label); reflexivity.
Qed.

Lemma setitem_comm (t : DataFrame) (l1 l2 : string) (c1 c2 : column) :
  l1 <> l2 ->
  existsb (String.eqb l1) (columns t) = true ->
  pd.setitem (pd.setitem t l1 c1) l2 c2 = pd.setitem (pd.setitem t l2 c2) l1 c1.
Proof.
  intros Hne H1.
  assert (E12 : String.eqb l2 l1 = false).
  { destruct (String.eqb l2 l1) eqn:E; [|reflexivity].
    apply String.eqb_eq in E. congruence. }
  unfold pd.setitem at 2 4. rewrite H1.
  destruct (existsb (String.eqb l2) (columns t)) eqn:H2.
  - unfold pd.setitem. rewrite !columns_replace, H1, H2, !map_map.
    apply map_ext. intros [k c]. simpl.
    destruct (String.eqb k l1) eqn:E1, (String.eqb k l2) eqn:E2; simpl;
      rewrite ?E1, ?E2; try reflexivity.
    apply String.eqb_eq in E1, E2. congruence.
  - unfold pd.setitem. rewrite columns_replace, H2.
    unfold columns at 1. rewrite map_app. fold (columns t).
    rewrite existsb_app, H1. cbn [orb]. rewrite map_app. cbn [map fst].
    rewrite E12. reflexivity.
Qed.

Lemma setitem_keeps_label (t : DataFrame) (l l' : string) (c' : column) :
  existsb (String.eqb l) (columns t) = true ->
  existsb (String.eqb l) (columns (pd.setitem t l' c')) = true.
Proof.
  intros H. rewrite columns_setitem.
  destruct (existsb (String.eqb l') (columns t)); [exact H|].
  rewrite existsb_app, H. reflexivity.
Qed.

Lemma output_needs_source (s : steps.step) (t : DataFrame) (col : column) :
  output s t = Ok col -> existsb (String.eqb (source s)) (columns t) = true.
Proof.
  intros H. destruct (existsb (String.eqb (source s)) (columns t)) eqn:E;
    [reflexivity|].
  rewrite (output_absent s t E) in H. discriminate.
Qed.

(** X7.  The three default steps may run in any order: whenever the run
    in the configured order succeeds, each of the five other orders
    succeeds with the same table. *)
Theorem default_steps_in_any_order (t t' : DataFrame)
  (Hrun : threaded steps.default_steps t = Ok t') :
  let n := steps.NormalizeFeature "feature_a" in
  let e := steps.EncodeCategoricalFeature "feature_b" "feature_b_encoded" in
  let f := steps.FillNaNFeature "feature_c" (VInt (-1)) in
  threaded [n; f; e] t = Ok t'
  /\ threaded [e; n; f] t = Ok t'
  /\ threaded [e; f; n] t = Ok t'
  /\ threaded [f; n; e] t = Ok t'
  /\ threaded [f; e; n] t = Ok t'.
Proof.
  intros n e f.
  assert (Hagree : forall label : string,
             existsb (String.eqb label) [] = false ->
             pd.labelled t label = pd.labelled t label) by reflexivity.
  rewrite (threaded_independent steps.default_steps [] t t eq_refl Hagree) in Hrun.
  unfold steps.default_steps in Hrun. fold n e f in Hrun.
  cbn [run_on_original] in Hrun.
  destruct (output n t) as [ca|x] eqn:En; cbn [rbind] in Hrun; [|discriminate].
  destruct (output e t) as [ce|x] eqn:Ee; cbn [rbind] in Hrun; [|discriminate].
  destruct (output f t) as [cf|x] eqn:Ef; cbn [rbind] in Hrun; [|discriminate].
  injection Hrun as <-.
  pose proof (output_needs_source n t ca En) as Pa. cbn [source n] in Pa.
  pose proof (output_needs_source f t cf Ef) as Pc. cbn [source f] in Pc.
  assert (Nac : "feature_a"%string <> "feature_c"%string) by discriminate.
  assert (Nae : "feature_a"%string <> "feature_b_encoded"%string) by discriminate.
  assert (Nce : "feature_c"%string <> "feature_b_encoded"%string) by discriminate.
  assert (Nca : "feature_c"%string <> "feature_a"%string) by discriminate.
  repeat split.
  - rewrite (threaded_independent [n; f; e] [] t t eq_refl Hagree).
    cbn [run_on_original]. rewrite En, Ef, Ee. cbn [rbind target n e f].
    f_equal. apply setitem_comm; [exact Nce|].
    apply setitem_keeps_label. exact Pc.
  - rewrite (threaded_independent [e; n; f] [] t t eq_refl Hagree).
    cbn [run_on_original]. rewrite En, Ef, Ee. cbn [rbind target n e f].
    do 2 f_equal. symmetry. apply setitem_comm; [exact Nae | exact Pa].
  - rewrite (threaded_independent [e; f; n] [] t t eq_refl Hagree).
    cbn [run_on_original]. rewrite En, Ef, Ee. cbn [rbind target n e f].
    f_equal.
    rewrite <- (setitem_comm t "feature_c" "feature_b_encoded" cf ce Nce Pc).
    rewrite <- (setitem_comm _ "feature_a" "feature_b_encoded" ca ce Nae
                  (setitem_keeps_label t _ "feature_c" cf Pa)).
    rewrite <- (setitem_comm t "feature_a" "feature_c" ca cf Nac Pa).
    apply setitem_comm; [exact Nce|]. apply setitem_keeps_label. exact Pc.
  - rewrite (threaded_independent [f; n; e] [] t t eq_refl Hagree).
    cbn [run_on_original]. rewrite En, Ef, Ee. cbn [rbind target n e f].
    f_equal.
    rewrite <- (setitem_comm t "feature_a" "feature_c" ca cf Nac Pa).
    apply setitem_comm; [exact Nce|]. apply setitem_keeps_label. exact Pc.
  - rewrite (threaded_independent [f; e; n] [] t t eq_refl Hagree).
    cbn [run_on_original]. rewrite En, Ef, Ee. cbn [rbind target n e f].
    f_equal.
    rewrite <- (setitem_comm _ "feature_a" "feature_b_encoded" ca ce Nae
                  (setitem_keeps_label t _ "feature_c" cf Pa)).
    rewrite <- (setitem_comm t "feature_a" "feature_c" ca cf Nac Pa).
    apply setitem_comm; [exact Nce|]. apply setitem_keeps_label. exact Pc.
Qed.

Lemma scenario_threaded :
  threaded steps.default_steps scenario_table = Ok scenario_result.
Proof.
  unfold steps.default_steps. rewrite threaded_cons.
  cbn [output].
  replace (pd.getitem scenario_table "feature_a")
    with (Ok (mkSeries "feature_a" (floats [1; 2; 3; 4]%R))) by reflexivity.
  cbn [rbind]. rewrite (normalize_floats "feature_a" _ sigma_1_2_3_4).
  cbn [rbind svalues target]. reflexivity.
Qed.

Lemma default_steps_in_any_order_witness :
  threaded [steps.FillNaNFeature "feature_c" (VInt (-1));
            steps.EncodeCategoricalFeature "feature_b" "feature_b_encoded";
            steps.NormalizeFeature "feature_a"] scenario_table
  = Ok scenario_result.
Proof.
  exact (proj2 (proj2 (proj2 (proj2
           (default_steps_in_any_order scenario_table scenario_result
              scenario_threaded))))).
Defined.

(** ** compose_df *)

Lemma dict_set_fresh (d : list (string * Series)) (k : string) (v : Series) :
  ~ In k (map fst d) ->
  single_responsibility_1.dict_set d k v = d ++ [(k, v)].
Proof.
  induction d as [|[k' v'] d IH]; simpl; intros H; [reflexivity|].
  destruct (String.eqb k' k) eqn:E.
  - apply String.eqb_eq in E. exfalso. apply H. left. exact E.
  - f_equal. apply IH. intros Hin. apply H. right. exact Hin.
Qed.

Lemma dict_of_distinct (items d : list (string * Series)) :
  NoDup (map fst (d ++ items)) ->
  fold_left (fun d kv => single_responsibility_1.dict_set d (fst kv) (snd kv))
    items d
  = d ++ items.
Proof.
  revert d. induction items as [|[k v] items IH]; intros d H; simpl.
  - rewrite app_nil_r. reflexivity.
  - assert (Hk : ~ In k (map fst d)).
    { rewrite map_app in H. simpl in H. apply NoDup_remove_2 in H.
      intros Hin. apply H. apply in_or_app. left. exact Hin. }
    rewrite (dict_set_fresh d k v Hk), IH.
    + rewrite <- app_assoc. reflexivity.
    + rewrite <- app_assoc. exact H.
Qed.

Lemma fst_combine {A B} (l : list A) (l' : list B) :
  map fst (combine l l') = firstn (List.length l') l.
Proof.
  revert l'. induction l as [|x l IH]; intros [|y l']; simpl; try reflexivity.
  - f_equal. apply IH.
Qed.

Lemma In_firstn {A} (n : nat) (l : list A) (x : A) :
  In x (firstn n l) -> In x l.
Proof.
  revert n. induction l as [|y l IH]; intros [|n]; simpl; try tauto.
  intros [H|H]; [left; exact H | right; exact (IH n H)].
Qed.

Lemma NoDup_firstn {A} (n : nat) (l : list A) : NoDup l -> NoDup (firstn n l).
Proof.
  revert n. induction l as [|x l IH]; intros [|n] H; simpl; try constructor.
  - inversion H as [|? ? Hnin Hnd]; subst. intros Hin. apply Hnin.
    exact (In_firstn n l x Hin).
  - apply IH. inversion H; assumption.
Qed.

(** X8.  On series of one length (and, as everywhere here, over the
    default row index, so that [pd.DataFrame] has nothing to align or to
    pad), [compose_df] pairs the i-th column name with the values of the
    i-th series, whatever the series are called, and stops at the shorter
    of the two lists: with distinct names the table has the first names,
    as many as there are series, in order.  A name given twice keeps its
    first place and takes the later series. *)
Theorem compose_df_zips_names_with_series
  (args : list Series) (column_names : list string) (R : nat)
  (Hdistinct : NoDup column_names)
  (Hrows : forall s, In s args -> List.length (svalues s) = R) :
  single_responsibility_1.compose_df args column_names
  = combine column_names (map svalues args)
  /\ columns (single_responsibility_1.compose_df args column_names)
     = firstn (List.length args) column_names
  /\ (forall k s1 s2,
        single_responsibility_1.compose_df [s1; s2] [k; k] = [(k, svalues s2)]).
Proof.
  assert (H : single_responsibility_1.compose_df args column_names
              = combine column_names (map svalues args)).
  { unfold single_responsibility_1.compose_df, single_responsibility_1.dict_of.
    rewrite dict_of_distinct.
    - simpl. clear Hdistinct Hrows. revert args.
      induction column_names as [|k ks IH]; intros [|s args]; simpl;
        try reflexivity.
      f_equal. apply IH.
    - simpl. rewrite fst_combine. apply NoDup_firstn. exact Hdistinct. }
  split; [exact H|]. split.
  - rewrite H. unfold columns. rewrite fst_combine, length_map. reflexivity.
  - intros k s1 s2. unfold single_responsibility_1.compose_df,
      single_responsibility_1.dict_of. simpl. rewrite String.eqb_refl.
    reflexivity.
Qed.

Lemma compose_df_zips_names_with_series_witness :
  columns (single_responsibility_1.compose_df
             [mkSeries "feature_a" [VInt 1]; mkSeries "feature_b" [VInt 2];
              mkSeries "feature_c" [VInt 3]]
             ["id"; "feature_a"; "feature_b"; "feature_c"]%string)
  = ["id"; "feature_a"; "feature_b"]%string.
Proof.
  apply (compose_df_zips_names_with_series
           [mkSeries "feature_a" [VInt 1]; mkSeries "feature_b" [VInt 2];
            mkSeries "feature_c" [VInt 3]]
           ["id"; "feature_a"; "feature_b"; "feature_c"]%string 1%nat).
  - repeat constructor; simpl; intuition discriminate.
  - intros s [<-|[<-|[<-|[]]]]; reflexivity.
Defined.

(** ** Standardization of a column with missing entries *)

Section MissingEntries.

Local Open Scope R_scope.

Lemma as_floats_optional (os : list (option R)) :
  np.as_floats (optional_floats os) = Ok (map option_float os).
Proof.
  unfold optional_floats. induction os as [|o os IH]; [reflexivity|].
  cbn [map np.as_floats]. rewrite IH. destruct o; reflexivity.
Qed.

Lemma dropna_optional (os : list (option R)) :
  np.dropna (map option_float os) = map Fin (present_reals os).
Proof.
  unfold np.dropna. induction os as [|[x|] os IH]; simpl; [reflexivity| |];
    rewrite IH; reflexivity.
Qed.

Lemma present_reals_map (f : R -> R) (os : list (option R)) :
  present_reals (map (option_map f) os) = map f (present_reals os).
Proof.
  induction os as [|[x|] os IH]; simpl; [reflexivity| |]; rewrite IH; reflexivity.
Qed.

Lemma nanmean_optional (os : list (option R)) :
  present_reals os <> [] ->
  np.nanmean (map option_float os) = Fin (mu (present_reals os)).
Proof.
  intros H. rewrite <- (nanmean_Fin _ H). unfold np.nanmean.
  rewrite dropna_optional, dropna_Fin. reflexivity.
Qed.

Lemma nanstd_optional (os : list (option R)) :
  present_reals os <> [] ->
  np.nanstd (map option_float os) = Fin (sigma (present_reals os)).
Proof.
  intros H. rewrite <- (nanstd_Fin _ H). unfold np.nanstd.
  rewrite dropna_optional, dropna_Fin. reflexivity.
Qed.

Lemma normalize_optional (name : string) (os : list (option R)) :
  sigma (present_reals os) <> 0 ->
  single_responsibility_1.normalize_feature (mkSeries name (optional_floats os))
  = Ok (mkSeries name
          (optional_floats
             (map (option_map
                     (fun x => (x - mu (present_reals os))
                               / sigma (present_reals os))) os))).
Proof.
  intros Hs. pose proof (sigma_nonzero_nonempty _ Hs) as Hne.
  unfold single_responsibility_1.normalize_feature, np.std, np.mean, pd.sub, pd.div.
  cbn [svalues sname]. rewrite as_floats_optional. cbn [rbind svalues sname].
  rewrite (nanstd_optional os Hne), (nanmean_optional os Hne).
  rewrite as_floats_VFloat. cbn [rbind]. do 2 f_equal.
  unfold optional_floats. rewrite !map_map. apply map_ext. intros [x|]; simpl.
  - destruct (Req_dec_T (sigma (present_reals os)) 0); [contradiction|].
    reflexivity.
  - reflexivity.
Qed.

End MissingEntries.

Lemma sigma_5_7 : sigma [5; 7]%R <> 0%R.
Proof.
  intros H. unfold sigma in H.
  apply (sqrt_eq_0 _ (variance_nonneg (mu [5; 7]%R) [5; 7]%R)) in H.
  assert (Hm : mu [5; 7]%R = 6%R) by (unfold mu; simpl; field).
  rewrite Hm in H. simpl in H. lra.
Qed.

(** X9.  Missing entries are skipped by the statistics and kept by the
    transform: on a float64 column with nan entries whose present values
    have a standard deviation other than 0, the standardization returns
    nan in the rows that were nan and (x - mu) / sigma in the others, mu
    and sigma being the mean and deviation of the present values; the
    present values of the output have mean 0 and deviation 1. *)
Theorem standardize_skips_missing (name : string) (os : list (option R))
  (Hvar : sigma (present_reals os) <> 0%R) :
  single_responsibility_1.normalize_feature (mkSeries name (optional_floats os))
  = Ok (mkSeries name
          (optional_floats
             (map (option_map
                     (fun x => ((x - mu (present_reals os))
                                / sigma (present_reals os))%R)) os)))
  /\ (forall i, nth_error os i = Some None ->
        nth_error
          (optional_floats
             (map (option_map
                     (fun x => ((x - mu (present_reals os))
                                / sigma (present_reals os))%R)) os)) i
        = Some (VFloat NaN))
  /\ present_reals
       (map (option_map
               (fun x => ((x - mu (present_reals os))
                          / sigma (present_reals os))%R)) os)
     = standardized (present_reals os)
  /\ mu (standardized (present_reals os)) = 0%R
  /\ sigma (standardized (present_reals os)) = 1%R.
Proof.
  split; [apply normalize_optional; exact Hvar|].
  split.
  { intros i Hi. unfold optional_floats. rewrite !nth_error_map, Hi.
    reflexivity. }
  split; [apply present_reals_map|].
  split.
  - apply mu_standardized. apply sigma_nonzero_nonempty. exact Hvar.
  - apply sigma_standardized. exact Hvar.
Qed.

Lemma standardize_skips_missing_witness :
  single_responsibility_1.normalize_feature
    (mkSeries "feature_c" (optional_floats [Some 5; None; Some 7; None]%R))
  = Ok (mkSeries "feature_c"
          (optional_floats
             (map (option_map
                     (fun x => ((x - mu [5; 7]) / sigma [5; 7])%R))
                  [Some 5; None; Some 7; None]%R))).
Proof.
  exact (proj1 (standardize_skips_missing "feature_c"
                  [Some 5; None; Some 7; None]%R sigma_5_7)).
Defined.

(** ** simple_code.py and code_with_solid.py *)

Lemma simple_code_run (path output_path : string) (w : world) (t : DataFrame) :
  lookup_file path (files w) = Some t ->
  simple_code.process path output_path w =
  match standardized_feature t with
  | Raise e => (Raise e, mkWorld (heap w ++ [t]) (files w))
  | Ok s1 =>
      match encoded_feature t with
      | Raise e => (Raise e, mkWorld (heap w ++ [t]) (files w))
      | Ok s2 =>
          match filled_feature t with
          | Raise e => (Raise e, mkWorld (heap w ++ [t]) (files w))
          | Ok s3 =>
              if has_duplicates (columns (produced s1 s2 s3))
              then (Raise ValueError,
                    mkWorld ((heap w ++ [t]) ++ [produced s1 s2 s3]) (files w))
              else (Ok tt,
                    mkWorld ((heap w ++ [t]) ++ [produced s1 s2 s3])
                            (write_file output_path (produced s1 s2 s3) (files w)))
          end
      end
  end.
Proof.
  intros H. unfold simple_code.process. unfold bind at 1.
  rewrite (read_parquet_run path w t H).
  unfold standardized_feature, encoded_feature, filled_feature,
    single_responsibility_1.normalize_feature,
    single_responsibility_1.fill_feature.
  unfold bind, lift. rewrite !getitem_run. cbn [heap]. rewrite nth_alloc.
  destruct (pd.getitem t "feature_a") as [a|e]; cbn [rbind]; [|reflexivity].
  destruct (np.std a) as [sd|e]; cbn [rbind]; [|reflexivity].
  destruct (np.mean a) as [m|e]; cbn [rbind]; [|reflexivity].
  destruct (pd.sub a m) as [centred|e]; cbn [rbind]; [|reflexivity].
  destruct (pd.div centred sd) as [s1|e]; cbn [rbind]; [|reflexivity].
  destruct (pd.getitem t "feature_b") as [b|e]; cbn [rbind]; [|reflexivity].
  destruct (sklearn.fit_transform b) as [fitted|e]; cbn [rbind]; [|reflexivity].
  destruct (pd.getitem t "feature_c") as [c|e]; cbn [rbind]; [|reflexivity].
  destruct (pd.fillna c (VInt (-1))) as [s3|e]; cbn [rbind]; [|reflexivity].
  unfold simple_code.concat_series, py.alloc, py.to_parquet. cbn [heap files map].
  rewrite nth_alloc. reflexivity.
Qed.

Lemma default_series_names (t : DataFrame) (s1 s2 s3 : Series) :
  standardized_feature t = Ok s1 -> encoded_feature t = Ok s2 ->
  filled_feature t = Ok s3 ->
  columns (produced s1 s2 s3)
  = ["feature_a"; "feature_b_encoded"; "feature_c"]%string.
Proof.
  intros H1 H2 H3. destruct (standardized_feature_ok t s1 H1) as [N1 _].
  assert (N2 : sname s2 = "feature_b_encoded"%string).
  { unfold encoded_feature in H2.
    destruct (pd.getitem t "feature_b"); simpl in H2; [|discriminate].
    destruct (sklearn.fit_transform a); simpl in H2; [|discriminate].
    injection H2 as <-. reflexivity. }
  assert (N3 : sname s3 = "feature_c"%string).
  { unfold filled_feature, single_responsibility_1.fill_feature in H3.
    destruct (pd.getitem t "feature_c") as [c|] eqn:E; cbn [rbind] in H3;
      [|discriminate].
    rewrite (fillna_name c s3 _ H3). exact (getitem_name _ _ _ E). }
  unfold produced, columns. simpl. rewrite N1, N2, N3. reflexivity.
Qed.

Lemma scenario_series :
  standardized_feature scenario_table
  = Ok (mkSeries "feature_a" (floats (standardized [1; 2; 3; 4]%R)))
  /\ encoded_feature scenario_table
     = Ok (mkSeries "feature_b_encoded" [VInt 0; VInt 1; VInt 0; VInt 2])
  /\ filled_feature scenario_table
     = Ok (mkSeries "feature_c"
             [VFloat (Fin 5); VFloat (Fin (-1)); VFloat (Fin 7);
              VFloat (Fin (-1))]).
Proof.
  split; [|split; reflexivity].
  unfold standardized_feature.
  change (pd.getitem scenario_table "feature_a")
    with (Ok (mkSeries "feature_a" (floats [1; 2; 3; 4]%R))).
  cbn [rbind]. apply normalize_floats. exact sigma_1_2_3_4.
Qed.

Lemma scenario_pipeline :
  table_of (code_with_solid.process code_with_solid.default_processors
              "data/data.parquet" scenario_world)
  = Ok (scenario_table
        ++ [("feature_a"%string, floats (standardized [1; 2; 3; 4]%R));
            ("feature_b_encoded"%string, [VInt 0; VInt 1; VInt 0; VInt 2]);
            ("feature_c"%string,
             [VFloat (Fin 5); VFloat (Fin (-1)); VFloat (Fin 7);
              VFloat (Fin (-1))])]).
Proof.
  rewrite (process_default_run "data/data.parquet" scenario_world
             scenario_table eq_refl).
  unfold default_run. destruct scenario_series as [H1 [H2 H3]].
  rewrite H1, H2, H3. reflexivity.
Qed.

(** X10.  On an input file whose labels are distinct, simple_code.py and
    the default pipeline of code_with_solid.py compute the same three
    columns: when the pipeline returns a table it is the loaded table
    followed by the table that [simple_code.process] hands to the
    writer, whose labels are feature_a, feature_b_encoded and feature_c
    (the other columns of the input are not written), and that table is
    written when each of its columns is of one type; when the pipeline
    raises, [simple_code.process] raises the same exception and writes
    nothing. *)
Theorem simple_code_writes_the_appended_columns
  (path output_path : string) (w : world) (t : DataFrame)
  (Hfile : lookup_file path (files w) = Some t)
  (Hdistinct : has_duplicates (columns t) = false) :
  (forall out,
     table_of (code_with_solid.process code_with_solid.default_processors path w)
     = Ok out ->
     exists written,
       out = t ++ written
       /\ columns written = ["feature_a"; "feature_b_encoded"; "feature_c"]%string
       /\ (forallb storable (map snd written) = true ->
           simple_code.process path output_path w
           = (Ok tt,
              mkWorld ((heap w ++ [t]) ++ [written])
                      (write_file output_path written (files w)))))
  /\ (forall e,
        fst (code_with_solid.process code_with_solid.default_processors path w)
        = Raise e ->
        fst (simple_code.process path output_path w) = Raise e
        /\ files (snd (simple_code.process path output_path w)) = files w).
Proof.
  rewrite (process_default_run path w t Hfile),
          (simple_code_run path output_path w t Hfile).
  unfold default_run.
  destruct (standardized_feature t) as [s1|e1] eqn:E1.
  2:{ split; [discriminate|]. intros e H. simpl in H. injection H as <-.
      split; reflexivity. }
  destruct (encoded_feature t) as [s2|e2] eqn:E2.
  2:{ split; [discriminate|]. intros e H. simpl in H. injection H as <-.
      split; reflexivity. }
  destruct (filled_feature t) as [s3|e3] eqn:E3.
  2:{ split; [discriminate|]. intros e H. simpl in H. injection H as <-.
      split; reflexivity. }
  pose proof (default_series_names t s1 s2 s3 E1 E2 E3) as Hc.
  rewrite Hc. cbn [has_duplicates existsb String.eqb Ascii.eqb Bool.eqb orb].
  split; [|discriminate].
  intros out H. exists (produced s1 s2 s3).
  split; [|split; [exact Hc | intros _; reflexivity]].
  unfold table_of in H. cbn [heap] in H.
  replace (S (S (List.length (heap w ++ [t]))))
    with (List.length (((heap w ++ [t]) ++ [pd.concat t s1])
                       ++ [pd.concat (pd.concat t s1) s2])) in H
    by (rewrite !length_app; simpl; lia).
  rewrite nth_alloc in H. injection H as <-.
  unfold pd.concat, produced. rewrite <- !app_assoc. reflexivity.
Qed.

Lemma simple_code_writes_the_appended_columns_witness :
  exists written,
    simple_code.process "data/data.parquet" "data/preprocessed_data.parquet"
      scenario_world
    = (Ok tt,
       mkWorld ((heap scenario_world ++ [scenario_table]) ++ [written])
               (write_file "data/preprocessed_data.parquet" written
                  (files scenario_world)))
    /\ columns written = ["feature_a"; "feature_b_encoded"; "feature_c"]%string.
Proof.
  destruct (simple_code_writes_the_appended_columns
              "data/data.parquet" "data/preprocessed_data.parquet"
              scenario_world scenario_table eq_refl eq_refl) as [H _].
  destruct (H _ scenario_pipeline) as [written [Ho [Hc Hw]]].
  exists written. split; [|exact Hc]. apply Hw.
  apply app_inv_head in Ho. rewrite <- Ho. reflexivity.
Defined.

(** ** The input file is missing *)

(** X11.  When there is no file at the input path every driver raises
    FileNotFoundError for that path at once, and nothing has changed:
    no object was made and no file written. *)
Theorem missing_input_file_stops_every_driver
  (path output_path : string) (w : world)
  (Hmissing : lookup_file path (files w) = None) :
  simple_code.process path output_path w = (Raise (FileNotFoundError path), w)
  /\ single_responsibility_1.process path output_path w
     = (Raise (FileNotFoundError path), w)
  /\ single_responsibility.process_data path output_path w
     = (Raise (FileNotFoundError path), w)
  /\ (forall processors,
        code_with_solid.process processors path w
        = (Raise (FileNotFoundError path), w))
  /\ (forall ss,
        open_close.process path output_path ss w
        = (Raise (FileNotFoundError path), w))
  /\ (forall ss,
        liskov_substitution.process_data path output_path ss w
        = (Raise (FileNotFoundError path), w))
  /\ (forall ss,
        dependency_aversion.process_data
          (dependency_aversion.mkDataLoader path)
          (dependency_aversion.mkDataSaver output_path) ss w
        = (Raise (FileNotFoundError path), w))
  /\ (forall normalizers encoders nan_fillers,
        interface_segregation.process_data path output_path
          normalizers encoders nan_fillers w
        = (Raise (FileNotFoundError path), w)).
Proof.
  assert (H : py.read_parquet path w = (Raise (FileNotFoundError path), w)).
  { unfold py.read_parquet. rewrite Hmissing. reflexivity. }
  repeat split; intros;
    unfold simple_code.process, single_responsibility_1.process,
      single_responsibility_1.load_data, single_responsibility.process_data,
      code_with_solid.process, open_close.process,
      liskov_substitution.process_data, dependency_aversion.process_data,
      dependency_aversion.load_data, interface_segregation.process_data;
    cbn [dependency_aversion.path]; unfold bind at 1; rewrite H; reflexivity.
Qed.

Lemma missing_input_file_stops_every_driver_witness :
  simple_code.process "data/other.parquet" "data/preprocessed_data.parquet"
    small_world
  = (Raise (FileNotFoundError "data/other.parquet"), small_world).
Proof.
  exact (proj1 (missing_input_file_stops_every_driver
                  "data/other.parquet" "data/preprocessed_data.parquet"
                  small_world eq_refl)).
Defined.

(** ** Only the output file is written, and only at the end *)

Lemma keeps_files_bind {A B} (c : M A) (f : A -> M B) :
  keeps_files c -> (forall a, keeps_files (f a)) -> keeps_files (bind c f).
Proof.
  intros Hc Hf w. unfold bind. specialize (Hc w).
  destruct (c w) as [[a|e] w1]; cbn [snd] in *; [|exact Hc].
  rewrite (Hf a w1). exact Hc.
Qed.

Lemma keeps_files_ret {A} (a : A) : keeps_files (ret a).
Proof. intros w. reflexivity. Qed.

Lemma keeps_files_lift {A} (r : result A) : keeps_files (lift r).
Proof. intros w. reflexivity. Qed.

Lemma keeps_files_getitem (df : ref) (label : string) :
  keeps_files (py.getitem df label).
Proof. intros w. reflexivity. Qed.

Lemma keeps_files_alloc (t : DataFrame) : keeps_files (py.alloc t).
Proof. intros w. reflexivity. Qed.

Lemma keeps_files_read_parquet (path : string) :
  keeps_files (py.read_parquet path).
Proof. intros w. apply read_parquet_files. Qed.

Lemma keeps_files_apply_all (ss : list steps.step) (df : ref) :
  keeps_files (steps.apply_all ss df).
Proof. intros w. apply apply_all_files. Qed.

Lemma keeps_files_each {A} (method : A -> ref -> M ref) (xs : list A) (df : ref) :
  (forall x df', keeps_files (method x df')) ->
  keeps_files (interface_segregation.each method xs df).
Proof.
  intros H. revert df. induction xs as [|x xs IH]; intros df.
  - apply keeps_files_ret.
  - cbn [interface_segregation.each]. apply keeps_files_bind; [apply H|].
    intros df'. apply IH.
Qed.

Lemma writes_only_to_parquet (df : ref) (output_path : string) :
  writes_only output_path (py.to_parquet df output_path).
Proof.
  intros w. unfold py.to_parquet.
  destruct (has_duplicates (columns (nth df (heap w) []))).
  - split; [reflexivity|]. intros e w' H. injection H as _ <-. reflexivity.
  - split; [|discriminate]. intros other Hne. cbn [snd files].
    apply lookup_write_other. exact Hne.
Qed.

Lemma writes_only_bind {A B} (output_path : string) (c : M A) (f : A -> M B) :
  keeps_files c -> (forall a, writes_only output_path (f a)) ->
  writes_only output_path (bind c f).
Proof.
  intros Hc Hf w. unfold bind. specialize (Hc w).
  destruct (c w) as [[a|e0] w1]; cbn [snd] in Hc.
  - destruct (Hf a w1) as [H1 H2]. rewrite <- Hc. split; assumption.
  - split.
    + intros other _. cbn [snd]. rewrite Hc. reflexivity.
    + intros e w' H. injection H as _ <-. exact Hc.
Qed.

Lemma keeps_files_step (s : steps.step) (df : ref) : keeps_files (steps.apply s df).
Proof.
  intros w. rewrite apply_run.
  destruct (output s (nth df (heap w) [])); reflexivity.
Qed.

(** X12.  Every driver writes at its last statement only: whatever the
    configuration and the world, a file other than the output file is
    afterwards as it was before (so the input file, when it is another
    file, is never modified), and when the driver raises no file at all
    has changed. *)
Theorem drivers_write_only_the_output_file (path output_path : string) :
  writes_only output_path (simple_code.process path output_path)
  /\ writes_only output_path (single_responsibility_1.process path output_path)
  /\ writes_only output_path (single_responsibility.process_data path output_path)
  /\ (forall ss,
        writes_only output_path
          (liskov_substitution.process_data path output_path ss))
  /\ (forall ss,
        writes_only output_path
          (dependency_aversion.process_data
             (dependency_aversion.mkDataLoader path)
             (dependency_aversion.mkDataSaver output_path) ss))
  /\ (forall normalizers encoders nan_fillers,
        writes_only output_path
          (interface_segregation.process_data path output_path
             normalizers encoders nan_fillers)).
Proof.
  assert (Hsteps : forall s df, keeps_files (steps.apply s df))
    by exact keeps_files_step.
  repeat match goal with |- _ /\ _ => split end; intros;
    unfold simple_code.process, single_responsibility_1.process,
      single_responsibility_1.load_data, single_responsibility_1.save_df,
      single_responsibility.process_data, liskov_substitution.process_data,
      dependency_aversion.process_data, dependency_aversion.load_data,
      dependency_aversion.save_data, interface_segregation.process_data,
      simple_code.concat_series, py.get_columns;
    cbn [dependency_aversion.path dependency_aversion.output_path];
    repeat (first
      [ apply writes_only_to_parquet
      | apply writes_only_bind; [|intro] ]);
    repeat (first
      [ apply keeps_files_read_parquet
      | apply keeps_files_getitem
      | apply keeps_files_lift
      | apply keeps_files_alloc
      | apply keeps_files_ret
      | apply keeps_files_apply_all
      | apply (Hsteps (steps.NormalizeFeature _))
      | apply (Hsteps (steps.EncodeCategoricalFeature _ _))
      | apply (Hsteps (steps.FillNaNFeature _ _))
      | apply keeps_files_each; intros
      | apply keeps_files_bind; [|intro]
      | (intros w0; reflexivity) ]).
Qed.

(** ** DataPipeline.process over any reading processors *)

Lemma process_loop_readers (fs : list (DataFrame -> result Series))
  (df : ref) (w : world) :
  (df < List.length (heap w))%nat ->
  table_of (code_with_solid.process_loop (map reader fs) df w)
  = concat_all fs (nth df (heap w) [])
  /\ (exists made,
        heap (snd (code_with_solid.process_loop (map reader fs) df w))
        = heap w ++ made)
  /\ files (snd (code_with_solid.process_loop (map reader fs) df w)) = files w.
Proof.
  revert df w. induction fs as [|f rest IH]; intros df w Hdf.
  - cbn [map code_with_solid.process_loop concat_all]. unfold ret, table_of.
    cbn [snd]. split; [reflexivity|]. split; [|reflexivity].
    exists []. rewrite app_nil_r. reflexivity.
  - cbn [map code_with_solid.process_loop concat_all]. unfold bind at 1 3 5.
    unfold reader at 1 3 5.
    destruct (f (nth df (heap w) [])) as [s|e]; cbn [rbind].
    + unfold bind. rewrite concat_run.
      set (w2 := mkWorld (heap w ++ [pd.concat (nth df (heap w) []) s]) (files w)).
      assert (Hdf2 : (List.length (heap w) < List.length (heap w2))%nat).
      { unfold w2. cbn [heap]. rewrite length_app. simpl. lia. }
      destruct (IH (List.length (heap w)) w2 Hdf2) as [H1 [[made H2] H3]].
      split.
      { rewrite H1. unfold w2. cbn [heap]. rewrite nth_alloc. reflexivity. }
      split; [|exact H3].
      exists (pd.concat (nth df (heap w) []) s :: made).
      rewrite H2. unfold w2. cbn [heap]. rewrite <- app_assoc. reflexivity.
    + unfold table_of. cbn [snd]. split; [reflexivity|]. split; [|reflexivity].
      exists []. rewrite app_nil_r. reflexivity.
Qed.

Lemma concat_all_appends (fs : list (DataFrame -> result Series))
  (t out : DataFrame) :
  concat_all fs t = Ok out ->
  exists ss, List.length ss = List.length fs
             /\ out = t ++ map (fun s => (sname s, svalues s)) ss.
Proof.
  revert t. induction fs as [|f rest IH]; intros t H.
  - cbn [concat_all] in H. injection H as <-. exists [].
    split; [reflexivity | rewrite app_nil_r; reflexivity].
  - cbn [concat_all] in H. destruct (f t) as [s|e]; cbn [rbind] in H;
      [|discriminate].
    destruct (IH _ H) as [ss [Hl Ho]]. exists (s :: ss).
    split; [simpl; f_equal; exact Hl|].
    rewrite Ho. unfold pd.concat. rewrite <- app_assoc. reflexivity.
Qed.

Lemma filled_feature_rows (R : nat) (u : DataFrame) (s : Series) :
  rows R u -> filled_feature u = Ok s -> List.length (svalues s) = R.
Proof.
  intros Hr H. unfold filled_feature, single_responsibility_1.fill_feature in H.
  destruct (pd.getitem u "feature_c") as [c|] eqn:E; cbn [rbind] in H;
    [|discriminate].
  rewrite (fillna_length c s _ H). exact (getitem_rows R u _ c Hr E).
Qed.

Lemma encoded_feature_rows (R : nat) (u : DataFrame) (s : Series) :
  rows R u -> encoded_feature u = Ok s -> List.length (svalues s) = R.
Proof.
  intros Hr H. unfold encoded_feature in H.
  destruct (pd.getitem u "feature_b") as [b|] eqn:E; cbn [rbind] in H;
    [|discriminate].
  destruct (sklearn.fit_transform b) as [fitted|] eqn:E2; cbn [rbind] in H;
    [|discriminate].
  injection H as <-. cbn [svalues]. rewrite length_map.
  rewrite (fit_transform_length b fitted E2).
  exact (getitem_rows R u _ b Hr E).
Qed.

(** X13.  [DataPipeline.process] over processors that only read the
    table they are given and return a series with as many rows as it
    has (so that [pd.concat] has nothing to pad), on a run in which none
    of them meets a table where the label it reads is borne by several
    columns (the model does not say what pandas makes of that): the
    returned table is built by
    giving each processor the table with the columns of those before it,
    and when it is returned it is the loaded table followed by one column
    per processor, in order, each under the name of its series; the loop
    only makes new objects, so the loaded object and every earlier object
    are unchanged, and no file is written.  Each of the three processors
    of the script is such a reader on the tables where its label occurs
    at most once. *)
Theorem pipeline_appends_one_column_per_processor
  (fs : list (DataFrame -> result Series)) (path : string) (w : world)
  (t : DataFrame) (R : nat)
  (Hfile : lookup_file path (files w) = Some t)
  (Hrows : rows R t)
  (Hlength : forall f u s, In f fs -> rows R u -> f u = Ok s ->
                           List.length (svalues s) = R)
  (Hlabels : forall label, concat_all fs t <> Raise (DuplicateLabel label)) :
  table_of (code_with_solid.process (map reader fs) path w) = concat_all fs t
  /\ (forall out, concat_all fs t = Ok out ->
        exists ss, List.length ss = List.length fs
                   /\ out = t ++ map (fun s => (sname s, svalues s)) ss)
  /\ (exists made,
        heap (snd (code_with_solid.process (map reader fs) path w))
        = heap w ++ t :: made)
  /\ files (snd (code_with_solid.process (map reader fs) path w)) = files w
  /\ (forall df w0,
        ((List.length (pd.labelled (nth df (heap w0) []) "feature_a") <= 1)%nat ->
         code_with_solid.Standardizer df w0 = reader standardized_feature df w0)
        /\ ((List.length (pd.labelled (nth df (heap w0) []) "feature_b") <= 1)%nat ->
            code_with_solid.Encoder df w0 = reader encoded_feature df w0)
        /\ ((List.length (pd.labelled (nth df (heap w0) []) "feature_c") <= 1)%nat ->
            code_with_solid.NanFiller df w0 = reader filled_feature df w0)).
Proof.
  assert (Hp : code_with_solid.process (map reader fs) path w
               = code_with_solid.process_loop (map reader fs)
                   (List.length (heap w)) (mkWorld (heap w ++ [t]) (files w))).
  { unfold code_with_solid.process, bind.
    rewrite (read_parquet_run path w t Hfile). reflexivity. }
  assert (Hdf : (List.length (heap w)
                 < List.length (heap (mkWorld (heap w ++ [t]) (files w))))%nat).
  { cbn [heap]. rewrite length_app. simpl. lia. }
  destruct (process_loop_readers fs _ _ Hdf) as [H1 [[made H2] H3]].
  rewrite Hp. cbn [heap] in H1. rewrite nth_alloc in H1.
  split; [exact H1|].
  split; [intros out; apply concat_all_appends|].
  split.
  { exists made. rewrite H2. cbn [heap]. rewrite <- app_assoc. reflexivity. }
  split; [exact H3|].
  intros df w0. split; [intros _; apply Standardizer_run|].
  split; intros _; [apply Encoder_run | apply NanFiller_run].
Qed.

Lemma pipeline_appends_one_column_per_processor_witness :
  table_of (code_with_solid.process
              (map reader [filled_feature; encoded_feature])
              "data/data.parquet" small_world)
  = Ok (small_table
        ++ [("feature_c"%string, [VFloat (Fin 5); VFloat (Fin (-1))]);
            ("feature_b_encoded"%string, [VInt 0; VInt 1])]).
Proof.
  assert (Hrows : rows 2 small_table) by (repeat constructor).
  assert (Hlength : forall f u s,
            In f [filled_feature; encoded_feature] -> rows 2 u -> f u = Ok s ->
            List.length (svalues s) = 2%nat).
  { intros f u s [<-|[<-|[]]] Hu H;
      [exact (filled_feature_rows 2 u s Hu H)
      | exact (encoded_feature_rows 2 u s Hu H)]. }
  rewrite (proj1 (pipeline_appends_one_column_per_processor
                    [filled_feature; encoded_feature]
                    "data/data.parquet" small_world small_table 2%nat eq_refl
                    Hrows Hlength
                    ltac:(intros label H; discriminate H))).
  reflexivity.
Defined.

(** ** The default steps and the default processors *)

(** X14.  The default steps of the in-place scripts compute the very
    series that the default processors of code_with_solid.py (and
    simple_code.py) compute from the loaded table, and fail with the same
    exception when one of them fails; they put them elsewhere: the
    standardized and the filled values replace feature_a and feature_c,
    the codes go to feature_b_encoded, so that the labels of the input
    are kept, followed by feature_b_encoded when it is new. *)
Theorem default_steps_assign_the_default_series (t : DataFrame) :
  threaded steps.default_steps t =
  (let? s1 := standardized_feature t in
   let? s2 := encoded_feature t in
   let? s3 := filled_feature t in
   Ok (pd.setitem
         (pd.setitem (pd.setitem t "feature_a" (svalues s1))
            "feature_b_encoded" (svalues s2))
         "feature_c" (svalues s3)))
  /\ (forall out, threaded steps.default_steps t = Ok out ->
        columns out =
        if existsb (String.eqb "feature_b_encoded") (columns t)
        then columns t
        else columns t ++ ["feature_b_encoded"%string]).
Proof.
  assert (Hagree : forall label : string,
             existsb (String.eqb label) [] = false ->
             pd.labelled t label = pd.labelled t label) by reflexivity.
  assert (H : threaded steps.default_steps t =
    (let? s1 := standardized_feature t in
     let? s2 := encoded_feature t in
     let? s3 := filled_feature t in
     Ok (pd.setitem
           (pd.setitem (pd.setitem t "feature_a" (svalues s1))
              "feature_b_encoded" (svalues s2))
           "feature_c" (svalues s3)))).
  { rewrite (threaded_independent steps.default_steps [] t t eq_refl Hagree).
    unfold steps.default_steps, standardized_feature, encoded_feature,
      filled_feature, single_responsibility_1.fill_feature.
    cbn [run_on_original output target].
    destruct (pd.getitem t "feature_a") as [a|e]; cbn [rbind]; [|reflexivity].
    destruct (single_responsibility_1.normalize_feature a) as [s1|e];
      cbn [rbind]; [|reflexivity].
    destruct (pd.getitem t "feature_b") as [b|e]; cbn [rbind]; [|reflexivity].
    destruct (sklearn.fit_transform b) as [fitted|e]; cbn [rbind]; [|reflexivity].
    destruct (pd.getitem t "feature_c") as [c|e]; cbn [rbind]; [|reflexivity].
    destruct (pd.fillna c (VInt (-1))) as [s3|e]; reflexivity. }
  split; [exact H|].
  intros out Hout. rewrite H in Hout.
  destruct (standardized_feature t) as [s1|e] eqn:E1; cbn [rbind] in Hout;
    [|discriminate].
  destruct (encoded_feature t) as [s2|e]; cbn [rbind] in Hout; [|discriminate].
  destruct (filled_feature t) as [s3|e] eqn:E3; cbn [rbind] in Hout;
    [|discriminate].
  injection Hout as <-.
  assert (Pa : existsb (String.eqb "feature_a") (columns t) = true).
  { apply existsb_exists. exists "feature_a"%string.
    split; [exact (proj2 (standardized_feature_ok t s1 E1)) | reflexivity]. }
  assert (Pc : existsb (String.eqb "feature_c") (columns t) = true).
  { unfold filled_feature in E3.
    destruct (pd.getitem t "feature_c") as [c|] eqn:E; [|discriminate].
    apply existsb_exists. exists "feature_c"%string.
    split; [exact (getitem_ok_In _ _ _ E) | reflexivity]. }
  rewrite !columns_setitem. rewrite Pa.
  destruct (existsb (String.eqb "feature_b_encoded") (columns t)).
  - rewrite Pc. reflexivity.
  - rewrite existsb_app, Pc. reflexivity.
Qed.

(** ** The codes of the encoder *)

Lemma NoDup_insert (x : cell) (l : column) :
  ~ In x l -> NoDup l -> NoDup (sklearn.insert x l).
Proof.
  induction l as [|y l IH]; simpl; intros Hx Hl.
  - constructor; [intros [] | constructor].
  - inversion Hl as [|? ? Hy Hl']; subst.
    destruct (sklearn.cell_ltb y x).
    + constructor.
      * rewrite In_insert. intros [->|H]; [apply Hx; left; reflexivity|].
        exact (Hy H).
      * apply IH; [intros H; apply Hx; right; exact H | exact Hl'].
    + constructor; [exact Hx | exact Hl].
Qed.

Lemma NoDup_sorted (l : column) : NoDup l -> NoDup (sklearn.sorted l).
Proof.
  induction l as [|x l IH]; simpl; intros H; [constructor|].
  inversion H as [|? ? Hx Hl]; subst.
  apply NoDup_insert; [rewrite In_sorted; exact Hx | apply IH; exact Hl].
Qed.

Lemma NoDup_append {A} (l l' : list A) :
  NoDup l -> NoDup l' -> (forall x, In x l -> ~ In x l') -> NoDup (l ++ l').
Proof.
  induction l as [|y l IH]; simpl; intros Hl Hl' Hd; [exact Hl'|].
  inversion Hl as [|? ? Hy Hl0]; subst. constructor.
  - rewrite in_app_iff. intros [H|H]; [exact (Hy H)|].
    exact (Hd y (or_introl eq_refl) H).
  - apply IH; [exact Hl0 | exact Hl' |].
    intros x Hx. apply Hd. right. exact Hx.
Qed.

Lemma NoDup_classes_of (col : column) :
  forallb is_label col = true -> NoDup (sklearn.classes_of col).
Proof.
  intros H. unfold sklearn.classes_of.
  assert (Hp : forall x, In x (sklearn.sorted (sklearn.distinct (sklearn.present col)))
                         -> isna x = false).
  { intros x Hx. rewrite In_sorted in Hx.
    apply (In_distinct x _ (present_is_label col H)) in Hx.
    unfold sklearn.present in Hx. apply filter_In in Hx.
    destruct Hx as [_ Hx]. destruct (isna x); [discriminate | reflexivity]. }
  apply NoDup_append.
  - apply NoDup_sorted, NoDup_distinct. apply present_is_label. exact H.
  - apply NoDup_append.
    + destruct (existsb _ col); constructor; [intros [] | constructor].
    + destruct (existsb (sklearn.cell_eqb (VFloat NaN)) col); constructor;
        [intros [] | constructor].
    + intros x Hx Hy.
      destruct (existsb (sklearn.cell_eqb VNone) col); [|contradiction].
      destruct (existsb (sklearn.cell_eqb (VFloat NaN)) col); [|contradiction].
      destruct Hx as [<-|[]]. destruct Hy as [Hy|[]]. discriminate.
  - intros x Hx Hy. apply Hp in Hx. apply in_app_iff in Hy.
    destruct Hy as [Hy|Hy].
    + destruct (existsb (sklearn.cell_eqb VNone) col); [|contradiction].
      destruct Hy as [<-|[]]. discriminate.
    + destruct (existsb (sklearn.cell_eqb (VFloat NaN)) col); [|contradiction].
      destruct Hy as [<-|[]]. discriminate.
Qed.

Lemma index_of_nth (classes : column) (i : nat) (c : cell) :
  forallb is_label classes = true -> NoDup classes ->
  nth_error classes i = Some c -> sklearn.index classes c = Z.of_nat i.
Proof.
  revert i. induction classes as [|d rest IH]; intros i Hl Hnd Hi.
  - destruct i; discriminate.
  - cbn [forallb] in Hl. apply andb_prop in Hl. destruct Hl as [Hd Hl].
    inversion Hnd as [|? ? Hnin Hnd']; subst. cbn [sklearn.index].
    destruct i as [|i]; cbn [nth_error] in Hi.
    + injection Hi as ->. rewrite (cell_eqb_label_refl c Hd). reflexivity.
    + destruct (sklearn.cell_eqb d c) eqn:E.
      * apply (cell_eqb_label d c Hd) in E. subst d. exfalso. apply Hnin.
        exact (nth_error_In _ _ Hi).
      * rewrite (IH i Hl Hnd' Hi). lia.
Qed.

(** X15.  The codes of a categorical column are dense: the vocabulary has
    no repeated value and no more values than the column has rows, every
    code is at least 0 and less than the size of the vocabulary, and
    every number in that range is the code of some row. *)
Theorem encoder_codes_are_dense (name : string) (col : column)
  (Hcat : forallb is_label col = true) :
  exists (enc : sklearn.LabelEncoder) (codes : list Z),
    sklearn.fit_transform (mkSeries name col) = Ok (enc, codes)
    /\ NoDup (sklearn.classes_ enc)
    /\ (List.length (sklearn.classes_ enc) <= List.length col)%nat
    /\ (forall k, In k codes ->
          (0 <= k < Z.of_nat (List.length (sklearn.classes_ enc)))%Z)
    /\ (forall i, (i < List.length (sklearn.classes_ enc))%nat ->
          In (Z.of_nat i) codes).
Proof.
  exists (sklearn.mkLabelEncoder (sklearn.classes_of col)),
         (map (sklearn.index (sklearn.classes_of col)) col).
  pose proof (NoDup_classes_of col Hcat) as Hnd.
  pose proof (classes_of_labels col Hcat) as Hl.
  cbn [sklearn.classes_].
  split; [apply fit_transform_labels; exact Hcat|].
  split; [exact Hnd|].
  split.
  { apply NoDup_incl_length; [exact Hnd|].
    intros c Hc. apply (In_classes_of col c Hcat). exact Hc. }
  split.
  - intros k Hk. apply in_map_iff in Hk. destruct Hk as [c [<- Hc]].
    destruct (decode_index col c Hcat Hc) as [H0 Hn]. split; [exact H0|].
    assert (Hlt : (Z.to_nat (sklearn.index (sklearn.classes_of col) c)
                   < List.length (sklearn.classes_of col))%nat).
    { apply nth_error_Some. rewrite Hn. discriminate. }
    lia.
  - intros i Hi. destruct (nth_error (sklearn.classes_of col) i) as [c|] eqn:E.
    + apply in_map_iff. exists c. split.
      * apply (index_of_nth _ i c Hl Hnd E).
      * apply (In_classes_of col c Hcat). exact (nth_error_In _ _ E).
    + apply nth_error_None in E. lia.
Qed.

Lemma encoder_codes_are_dense_witness :
  exists (enc : sklearn.LabelEncoder) (codes : list Z),
    sklearn.fit_transform
      (mkSeries "feature_b" [VStr "x"; VStr "y"; VStr "x"; VStr "z"])
    = Ok (enc, codes)
    /\ NoDup (sklearn.classes_ enc).
Proof.
  destruct (encoder_codes_are_dense "feature_b"
              [VStr "x"; VStr "y"; VStr "x"; VStr "z"] eq_refl)
    as [enc [codes [H1 [H2 _]]]].
  exists enc, codes. split; [exact H1 | exact H2].
Defined.

(** The order of the strings is a strict total order. *)
Lemma string_ltb_trans (a b c : string) :
  String.ltb a b = true -> String.ltb b c = true -> String.ltb a c = true.
Proof.
  unfold String.ltb. intros Hab Hbc.
  destruct (String.compare a b) eqn:Eab; try discriminate.
  destruct (String.compare b c) eqn:Ebc; try discriminate.
  apply OrderedTypeEx.String_as_OT.cmp_lt in Eab, Ebc.
  pose proof (OrderedTypeEx.String_as_OT.lt_trans a b c Eab Ebc) as Hac.
  apply OrderedTypeEx.String_as_OT.cmp_lt in Hac.
  unfold OrderedTypeEx.String_as_OT.cmp in Hac. rewrite Hac. reflexivity.
Qed.

Lemma string_ltb_irrefl (a : string) : String.ltb a a = false.
Proof.
  unfold String.ltb. change (String.compare a a) with (OrderedTypeEx.String_as_OT.cmp a a).
  rewrite (proj2 (OrderedTypeEx.String_as_OT.cmp_eq a a) eq_refl). reflexivity.
Qed.

Lemma increasing_head_all (c : cell) (l : column) :
  forallb sklearn.is_str (c :: l) = true -> increasing (c :: l) ->
  forall d, In d l -> sklearn.cell_ltb c d = true.
Proof.
  revert c. induction l as [|e l IH]; intros c Hs Hinc d Hd; [destruct Hd|].
  inversion Hinc as [| |? ? ? Hce Htl]; subst.
  destruct Hd as [<-|Hd]; [exact Hce|].
  cbn [forallb] in Hs.
  apply andb_prop in Hs. destruct Hs as [Hc Hs].
  pose proof Hs as Hs'. cbn [forallb] in Hs'.
  apply andb_prop in Hs'. destruct Hs' as [He Hl].
  pose proof (IH e Hs Htl d Hd) as Hed.
  assert (Hdstr : sklearn.is_str d = true).
  { exact (proj1 (forallb_forall _ _) Hl d Hd). }
  destruct c as [| |sc|]; try discriminate.
  destruct e as [| |se|]; try discriminate.
  destruct d as [| |sd|]; try discriminate.
  cbn [sklearn.cell_ltb] in *. exact (string_ltb_trans sc se sd Hce Hed).
Qed.

Lemma increasing_nth (l : column) :
  forallb sklearn.is_str l = true -> increasing l ->
  forall i j c d, (i < j)%nat ->
    nth_error l i = Some c -> nth_error l j = Some d ->
    sklearn.cell_ltb c d = true.
Proof.
  induction l as [|x l IH]; intros Hs Hinc i j c d Hij Hi Hj.
  - destruct i; discriminate.
  - destruct j as [|j]; [lia|]. cbn [nth_error] in Hj.
    destruct i as [|i]; cbn [nth_error] in Hi.
    + injection Hi as ->.
      exact (increasing_head_all c l Hs Hinc d (nth_error_In _ _ Hj)).
    + cbn [forallb] in Hs. apply andb_prop in Hs. destruct Hs as [_ Hs].
      apply (IH Hs (increasing_tail x l Hinc) i j c d); [lia | exact Hi | exact Hj].
Qed.

Lemma string_classes_increasing (labels : list string) :
  forallb sklearn.is_str (sklearn.classes_of (map VStr labels)) = true
  /\ increasing (sklearn.classes_of (map VStr labels)).
Proof.
  pose proof (strings_are_labels labels) as Hl. split.
  - apply forallb_forall. intros c Hc.
    apply (In_classes_of _ c Hl) in Hc. apply in_map_iff in Hc.
    destruct Hc as [s [<- _]]. reflexivity.
  - unfold sklearn.classes_of.
    rewrite !strings_have_no_missing by reflexivity.
    rewrite !app_nil_r, strings_are_present.
    apply sorted_increasing.
    + apply forallb_forall. intros c Hc.
      apply (In_distinct c _ Hl) in Hc. apply in_map_iff in Hc.
      destruct Hc as [s [<- _]]. reflexivity.
    + apply NoDup_distinct. exact Hl.
Qed.

(** X16.  The codes follow the order of the strings: for two values a
    and b of a column of strings, the code of a is less than the code of
    b exactly when a comes before b, and the codes are equal exactly when
    the values are. *)
Theorem encoder_codes_follow_the_order
  (name : string) (labels : list string) (a b : string)
  (Ha : In a labels) (Hb : In b labels) :
  exists (classes : column),
    sklearn.fit_transform (mkSeries name (map VStr labels))
    = Ok (sklearn.mkLabelEncoder classes,
          map (sklearn.index classes) (map VStr labels))
    /\ (String.ltb a b = true <->
        (sklearn.index classes (VStr a) < sklearn.index classes (VStr b))%Z)
    /\ (a = b <->
        sklearn.index classes (VStr a) = sklearn.index classes (VStr b)).
Proof.
  pose proof (strings_are_labels labels) as Hl.
  exists (sklearn.classes_of (map VStr labels)).
  split; [apply fit_transform_labels; exact Hl|].
  destruct (string_classes_increasing labels) as [Hs Hinc].
  destruct (decode_index _ (VStr a) Hl (in_map VStr _ _ Ha)) as [Ha0 Hna].
  destruct (decode_index _ (VStr b) Hl (in_map VStr _ _ Hb)) as [Hb0 Hnb].
  set (classes := sklearn.classes_of (map VStr labels)) in *.
  set (ia := sklearn.index classes (VStr a)) in *.
  set (ib := sklearn.index classes (VStr b)) in *.
  assert (Heq : ia = ib -> a = b).
  { intros E. rewrite E in Hna. rewrite Hna in Hnb. congruence. }
  split; [split|split].
  - intros Hab.
    destruct (Z.lt_trichotomy ia ib) as [H|[H|H]]; [exact H| |].
    + apply Heq in H. subst b. rewrite string_ltb_irrefl in Hab. discriminate.
    + assert (Hba : sklearn.cell_ltb (VStr b) (VStr a) = true).
      { apply (increasing_nth classes Hs Hinc (Z.to_nat ib) (Z.to_nat ia));
          [lia | exact Hnb | exact Hna]. }
      cbn [sklearn.cell_ltb] in Hba.
      pose proof (string_ltb_trans a b a Hab Hba) as Haa.
      rewrite string_ltb_irrefl in Haa. discriminate.
  - intros H.
    change (sklearn.cell_ltb (VStr a) (VStr b) = true).
    apply (increasing_nth classes Hs Hinc (Z.to_nat ia) (Z.to_nat ib));
      [lia | exact Hna | exact Hnb].
  - intros ->. reflexivity.
  - exact Heq.
Qed.

Lemma encoder_codes_follow_the_order_witness :
  exists (classes : column),
    sklearn.fit_transform
      (mkSeries "feature_b" (map VStr ["x"; "y"; "x"; "z"]%string))
    = Ok (sklearn.mkLabelEncoder classes,
          map (sklearn.index classes) (map VStr ["x"; "y"; "x"; "z"]%string))
    /\ (String.ltb "x" "z" = true <->
        (sklearn.index classes (VStr "x") < sklearn.index classes (VStr "z"))%Z)
    /\ ("x"%string = "z"%string <->
        sklearn.index classes (VStr "x") = sklearn.index classes (VStr "z")).
Proof.
  apply (encoder_codes_follow_the_order "feature_b"
           ["x"; "y"; "x"; "z"]%string "x" "z").
  - left. reflexivity.
  - right. right. right. left. reflexivity.
Defined.

(* ================================================================== *)
(** * The order of the codes *)

(** ** Numbers compare by value *)

Lemma Z_ltb_IZR (m n : Z) :
  (m <? n)%Z = if Rlt_dec (IZR m) (IZR n) then true else false.
Proof.
  destruct (Z.ltb_spec m n) as [H|H].
  - apply IZR_lt in H.
    destruct (Rlt_dec (IZR m) (IZR n)); [reflexivity | contradiction].
  - apply IZR_le in H.
    destruct (Rlt_dec (IZR m) (IZR n)); [exfalso; lra | reflexivity].
Qed.

Lemma Z_eqb_IZR (m n : Z) :
  (m =? n)%Z = if Req_dec_T (IZR m) (IZR n) then true else false.
Proof.
  destruct (Z.eqb_spec m n) as [H|H].
  - subst. destruct (Req_dec_T (IZR n) (IZR n)); [reflexivity | contradiction].
  - destruct (Req_dec_T (IZR m) (IZR n)) as [E|E]; [|reflexivity].
    apply eq_IZR in E. contradiction.
Qed.

Lemma num_ltb_key (a b : cell) :
  sklearn.is_num a = true -> sklearn.is_num b = true ->
  sklearn.cell_ltb a b = sklearn.float_ltb (key a) (key b).
Proof.
  destruct a, b; simpl; try discriminate; intros _ _; try reflexivity.
  apply Z_ltb_IZR.
Qed.

Lemma num_eqb_key (a b : cell) :
  sklearn.is_num a = true -> sklearn.is_num b = true ->
  sklearn.cell_eqb a b = sklearn.float_eqb (key a) (key b).
Proof.
  destruct a, b; simpl; try discriminate; intros _ _; try reflexivity.
  apply Z_eqb_IZR.
Qed.

Lemma float_eqb_eq (u v : float) : sklearn.float_eqb u v = true <-> u = v.
Proof.
  destruct u as [x| | |], v as [y| | |]; simpl; split; intros H;
    try discriminate; try reflexivity.
  - destruct (Req_dec_T x y); [subst; reflexivity | discriminate].
  - injection H as ->. destruct (Req_dec_T y y); [reflexivity | contradiction].
Qed.

Lemma float_ltb_irrefl (u : float) : sklearn.float_ltb u u = false.
Proof.
  destruct u as [x| | |]; simpl; try reflexivity.
  destruct (Rlt_dec x x); [exfalso; lra | reflexivity].
Qed.

Lemma float_ltb_trans (u v w : float) :
  sklearn.float_ltb u v = true -> sklearn.float_ltb v w = true ->
  sklearn.float_ltb u w = true.
Proof.
  destruct u as [x| | |], v as [y| | |], w as [z| | |]; simpl; intros H1 H2;
    try discriminate; try reflexivity.
  destruct (Rlt_dec x y); [|discriminate].
  destruct (Rlt_dec y z); [|discriminate].
  destruct (Rlt_dec x z); [reflexivity | exfalso; lra].
Qed.

Lemma float_ltb_total (u v : float) :
  is_nan u = false -> is_nan v = false ->
  sklearn.float_ltb u v = false -> sklearn.float_ltb v u = false -> u = v.
Proof.
  destruct u as [x| | |], v as [y| | |]; simpl; intros Hu Hv H1 H2;
    try discriminate; try reflexivity.
  destruct (Rlt_dec x y); [discriminate|].
  destruct (Rlt_dec y x); [discriminate|].
  f_equal. lra.
Qed.

Lemma present_num_is_num (a : cell) :
  is_present_num a = true -> sklearn.is_num a = true.
Proof. intros H. apply andb_prop in H. tauto. Qed.

Lemma key_present (a : cell) :
  is_present_num a = true -> is_nan (key a) = false.
Proof.
  destruct a as [[x| | |]|n|s|]; simpl; try discriminate; reflexivity.
Qed.

(** ** The two kinds of categories *)

Lemma num_kind : ordered_kind is_present_num.
Proof.
  pose proof present_num_is_num as Hn.
  constructor.
  - intros a Ha. rewrite num_eqb_key by auto. apply float_eqb_eq. reflexivity.
  - intros a b Ha Hb. rewrite !num_eqb_key by auto. rewrite !float_eqb_eq.
    intros H. symmetry. exact H.
  - intros a b c Ha Hb Hc. rewrite !num_eqb_key by auto. rewrite !float_eqb_eq.
    intros H1 H2. congruence.
  - intros a a' b Ha Ha' Hb H. rewrite num_eqb_key in H by auto.
    apply float_eqb_eq in H. rewrite !num_ltb_key by auto. rewrite H.
    reflexivity.
  - intros a b b' Ha Hb Hb' H. rewrite num_eqb_key in H by auto.
    apply float_eqb_eq in H. rewrite !num_ltb_key by auto. rewrite H.
    reflexivity.
  - intros a Ha. rewrite num_ltb_key by auto. apply float_ltb_irrefl.
  - intros a b c Ha Hb Hc. rewrite !num_ltb_key by auto. apply float_ltb_trans.
  - intros a b Ha Hb. rewrite !num_ltb_key, num_eqb_key by auto.
    intros H1 H2. apply float_eqb_eq.
    apply float_ltb_total; auto using key_present.
  - intros a m Ha Hm.
    destruct m as [[y| | |]|k|t|]; simpl in Hm; try discriminate;
      destruct a as [[x| | |]|n|s|]; simpl in Ha; try discriminate; reflexivity.
Qed.

Lemma str_kind : ordered_kind sklearn.is_str.
Proof.
  constructor.
  - intros [| |s|]; simpl; try discriminate. intros _. apply String.eqb_refl.
  - intros [| |s|] [| |t|]; simpl; try discriminate. intros _ _ H.
    rewrite String.eqb_sym. exact H.
  - intros [| |s|] [| |t|] [| |u|]; simpl; try discriminate. intros _ _ _.
    rewrite !String.eqb_eq. congruence.
  - intros [| |s|] [| |s'|] [| |t|]; simpl; try discriminate. intros _ _ _ H.
    apply String.eqb_eq in H. subst. reflexivity.
  - intros [| |s|] [| |t|] [| |t'|]; simpl; try discriminate. intros _ _ _ H.
    apply String.eqb_eq in H. subst. reflexivity.
  - intros [| |s|]; simpl; try discriminate. intros _. apply string_ltb_irrefl.
  - intros [| |s|] [| |t|] [| |u|]; simpl; try discriminate. intros _ _ _.
    apply string_ltb_trans.
  - intros [| |s|] [| |t|]; simpl; try discriminate. intros _ _ H1 H2.
    destruct (String.eqb s t) eqn:E; [reflexivity|].
    apply String.eqb_neq in E.
    rewrite (string_ltb_total s t H2 E) in H1. discriminate.
  - intros [| |s|] m; simpl; try discriminate. intros _ Hm.
    destruct m as [[y| | |]|k|t|]; simpl in Hm; try discriminate; reflexivity.
Qed.

(** ** Sorting the distinct values of one kind *)

Lemma FOP_filter {A} (R : A -> A -> Prop) (f : A -> bool) (l : list A) :
  ForallOrdPairs R l -> ForallOrdPairs R (filter f l).
Proof.
  induction 1 as [|a l Ha Hl IH]; simpl; [constructor|].
  destruct (f a); [|exact IH]. constructor; [|exact IH].
  apply Forall_forall. intros b Hb. apply filter_In in Hb.
  exact (proj1 (Forall_forall _ _) Ha b (proj1 Hb)).
Qed.

Lemma In_distinct_sub (d : cell) (l : column) :
  In d (sklearn.distinct l) -> In d l.
Proof.
  induction l as [|x l IH]; simpl; [tauto|].
  intros [H|H]; [left; exact H|]. apply filter_In in H. right. apply IH. tauto.
Qed.

(** No two of the distinct values are equal. *)
Lemma distinct_apart (l : column) :
  ForallOrdPairs (fun a b => sklearn.cell_eqb a b = false) (sklearn.distinct l).
Proof.
  induction l as [|x l IH]; cbn [sklearn.distinct]; constructor.
  - apply Forall_forall. intros b Hb. apply filter_In in Hb.
    destruct Hb as [_ Hb]. destruct (sklearn.cell_eqb x b); [discriminate|].
    reflexivity.
  - apply FOP_filter. exact IH.
Qed.

Lemma index_nonneg (l : column) (c : cell) : (0 <= sklearn.index l c)%Z.
Proof.
  induction l as [|x l IH]; cbn [sklearn.index]; [lia|].
  destruct (sklearn.cell_eqb x c); lia.
Qed.

(** The code of a value is the place of the first class equal to it. *)
Lemma index_found (l : column) (c : cell) :
  (exists d, In d l /\ sklearn.cell_eqb d c = true) ->
  (0 <= sklearn.index l c < Z.of_nat (List.length l))%Z
  /\ exists d, nth_error l (Z.to_nat (sklearn.index l c)) = Some d
               /\ sklearn.cell_eqb d c = true.
Proof.
  induction l as [|x l IH]; intros [d [Hd E]]; [contradiction|].
  cbn [sklearn.index List.length]. destruct (sklearn.cell_eqb x c) eqn:Ex.
  - split; [lia|]. exists x. split; [reflexivity | exact Ex].
  - destruct Hd as [->|Hd]; [congruence|].
    destruct (IH (ex_intro _ d (conj Hd E))) as [Hr [d' [Hn E']]].
    split; [lia|]. exists d'. split; [|exact E'].
    replace (Z.to_nat (1 + sklearn.index l c))
      with (S (Z.to_nat (sklearn.index l c))) by lia.
    exact Hn.
Qed.

Lemma index_app_found (l m : column) (c : cell) :
  (exists d, In d l /\ sklearn.cell_eqb d c = true) ->
  sklearn.index (l ++ m) c = sklearn.index l c.
Proof.
  induction l as [|x l IH]; intros [d [Hd E]]; [contradiction|].
  cbn [app sklearn.index]. destruct (sklearn.cell_eqb x c) eqn:Ex; [reflexivity|].
  destruct Hd as [->|Hd]; [congruence|].
  rewrite (IH (ex_intro _ d (conj Hd E))). reflexivity.
Qed.

Lemma index_app_absent (l m : column) (c : cell) :
  (forall d, In d l -> sklearn.cell_eqb d c = false) ->
  sklearn.index (l ++ m) c
  = (Z.of_nat (List.length l) + sklearn.index m c)%Z.
Proof.
  induction l as [|x l IH]; intros H; [reflexivity|].
  cbn [app sklearn.index List.length]. rewrite (H x (or_introl eq_refl)).
  rewrite IH by (intros d Hd; apply H; right; exact Hd). lia.
Qed.

Section Kind.

Variable P : cell -> bool.
Hypothesis K : ordered_kind P.

Lemma distinct_cover (l : column) (c : cell) :
  forallb P l = true -> In c l ->
  exists d, In d (sklearn.distinct l) /\ sklearn.cell_eqb d c = true.
Proof.
  induction l as [|x l IH]; intros Hl Hc; [contradiction|].
  cbn [forallb] in Hl. apply andb_prop in Hl. destruct Hl as [Hx Hl].
  cbn [sklearn.distinct]. destruct Hc as [<-|Hc].
  - exists x. split; [left; reflexivity | apply (kind_refl P K); exact Hx].
  - destruct (IH Hl Hc) as [d [Hd E]].
    pose proof (proj1 (forallb_forall _ _) Hl) as HP.
    destruct (sklearn.cell_eqb x d) eqn:Exd.
    + exists x. split; [left; reflexivity|].
      apply (kind_eqb_trans P K x d c); auto.
      apply HP. apply In_distinct_sub. exact Hd.
    + exists d. split; [|exact E]. right. apply filter_In.
      split; [exact Hd | rewrite Exd; reflexivity].
Qed.

Lemma insert_increasing_kind (x : cell) (l : column) :
  P x = true -> forallb P l = true -> increasing l ->
  (forall y, In y l -> sklearn.cell_eqb x y = false) ->
  increasing (sklearn.insert x l).
Proof.
  intros Hx. induction l as [|y l IH]; simpl; intros Hl Hinc Hap.
  - constructor.
  - apply andb_prop in Hl. destruct Hl as [Hy Hl].
    destruct (sklearn.cell_ltb y x) eqn:E.
    + apply increasing_push.
      * apply IH; [exact Hl | exact (increasing_tail y l Hinc) |].
        intros z Hz. apply Hap. right. exact Hz.
      * intros d Hd. apply hd_insert in Hd. destruct Hd as [->|Hd]; [exact E|].
        exact (increasing_head y d l Hinc Hd).
    + constructor; [|exact Hinc].
      destruct (sklearn.cell_ltb x y) eqn:E'; [reflexivity|].
      pose proof (Hap y (or_introl eq_refl)) as H.
      rewrite (kind_total P K x y Hx Hy E' E) in H. discriminate.
Qed.

Lemma sorted_kind (l : column) :
  forallb P l = true -> forallb P (sklearn.sorted l) = true.
Proof.
  intros H. apply forallb_forall. intros c Hc.
  apply (proj1 (In_sorted c l)) in Hc.
  exact (proj1 (forallb_forall _ _) H c Hc).
Qed.

Lemma sorted_increasing_kind (l : column) :
  forallb P l = true ->
  ForallOrdPairs (fun a b => sklearn.cell_eqb a b = false) l ->
  increasing (sklearn.sorted l).
Proof.
  induction l as [|x l IH]; simpl; intros Hl Hap; [constructor|].
  apply andb_prop in Hl. destruct Hl as [Hx Hl].
  inversion Hap as [|? ? Hxl Hrest]; subst.
  apply insert_increasing_kind;
    [exact Hx | apply sorted_kind; exact Hl | apply IH; assumption |].
  intros y Hy. apply (proj1 (In_sorted y l)) in Hy.
  exact (proj1 (Forall_forall _ _) Hxl y Hy).
Qed.

Lemma increasing_below_all (c : cell) (l : column) :
  forallb P (c :: l) = true -> increasing (c :: l) ->
  forall d, In d l -> sklearn.cell_ltb c d = true.
Proof.
  revert c. induction l as [|e l IH]; intros c Hs Hinc d Hd; [destruct Hd|].
  inversion Hinc as [| |? ? ? Hce Htl]; subst.
  destruct Hd as [<-|Hd]; [exact Hce|].
  cbn [forallb] in Hs. apply andb_prop in Hs. destruct Hs as [Hc Hs].
  pose proof Hs as Hs'. cbn [forallb] in Hs'.
  apply andb_prop in Hs'. destruct Hs' as [He Hl].
  pose proof (IH e Hs Htl d Hd) as Hed.
  apply (kind_trans P K c e d); auto.
  exact (proj1 (forallb_forall _ _) Hl d Hd).
Qed.

Lemma increasing_places (l : column) :
  forallb P l = true -> increasing l ->
  forall i j c d, (i < j)%nat ->
    nth_error l i = Some c -> nth_error l j = Some d ->
    sklearn.cell_ltb c d = true.
Proof.
  induction l as [|x l IH]; intros Hs Hinc i j c d Hij Hi Hj.
  - destruct i; discriminate.
  - destruct j as [|j]; [lia|]. cbn [nth_error] in Hj.
    destruct i as [|i]; cbn [nth_error] in Hi.
    + injection Hi as ->.
      exact (increasing_below_all c l Hs Hinc d (nth_error_In _ _ Hj)).
    + cbn [forallb] in Hs. apply andb_prop in Hs. destruct Hs as [_ Hs].
      apply (IH Hs (increasing_tail x l Hinc) i j c d);
        [lia | exact Hi | exact Hj].
Qed.

(** In an increasing vocabulary the codes are ordered as the values. *)
Lemma codes_order (l : column) (a b : cell) :
  forallb P l = true -> increasing l -> P a = true -> P b = true ->
  (exists d, In d l /\ sklearn.cell_eqb d a = true) ->
  (exists d, In d l /\ sklearn.cell_eqb d b = true) ->
  (sklearn.cell_ltb a b = true <-> (sklearn.index l a < sklearn.index l b)%Z)
  /\ (sklearn.cell_eqb a b = true <-> sklearn.index l a = sklearn.index l b).
Proof.
  intros Hl Hinc Pa Pb Ra Rb.
  destruct (index_found l a Ra) as [Ha [da [Hna Ea]]].
  destruct (index_found l b Rb) as [Hb [db [Hnb Eb]]].
  pose proof (proj1 (forallb_forall _ _) Hl) as HP.
  assert (Pda : P da = true) by (apply HP; exact (nth_error_In _ _ Hna)).
  assert (Pdb : P db = true) by (apply HP; exact (nth_error_In _ _ Hnb)).
  assert (Hlt : sklearn.cell_ltb a b = sklearn.cell_ltb da db).
  { rewrite (kind_ltb_r P K da db b Pda Pdb Pb Eb).
    rewrite (kind_ltb_l P K da a b Pda Pa Pb Ea). reflexivity. }
  assert (Heq : sklearn.cell_eqb a b = true <-> sklearn.cell_eqb da db = true).
  { split; intros H.
    - apply (kind_eqb_trans P K da a db); auto.
      apply (kind_eqb_trans P K a b db); auto. apply (kind_sym P K); auto.
    - apply (kind_eqb_trans P K a da b); auto; [apply (kind_sym P K); auto|].
      apply (kind_eqb_trans P K da db b); auto. }
  assert (Hno : forall c d, P c = true -> P d = true ->
            sklearn.cell_ltb c d = true -> sklearn.cell_eqb c d = true -> False).
  { intros c d Pc Pd L E.
    rewrite (kind_ltb_l P K c d d Pc Pd Pd E), (kind_irrefl P K d Pd) in L.
    discriminate. }
  rewrite Hlt, Heq.
  destruct (Z.lt_trichotomy (sklearn.index l a) (sklearn.index l b))
    as [H|[H|H]].
  - assert (L : sklearn.cell_ltb da db = true).
    { apply (increasing_places l Hl Hinc (Z.to_nat (sklearn.index l a))
               (Z.to_nat (sklearn.index l b)) da db);
        [lia | exact Hna | exact Hnb]. }
    assert (E : sklearn.cell_eqb da db = false).
    { destruct (sklearn.cell_eqb da db) eqn:E; [|reflexivity].
      exfalso. exact (Hno da db Pda Pdb L E). }
    rewrite L, E.
    split; split; intros H'; try lia; try reflexivity; discriminate.
  - rewrite H in Hna. assert (da = db) by congruence. subst db.
    rewrite (kind_irrefl P K da Pda), (kind_refl P K da Pda).
    split; split; intros H'; try lia; try reflexivity; discriminate.
  - assert (L : sklearn.cell_ltb db da = true).
    { apply (increasing_places l Hl Hinc (Z.to_nat (sklearn.index l b))
               (Z.to_nat (sklearn.index l a)) db da);
        [lia | exact Hnb | exact Hna]. }
    assert (L' : sklearn.cell_ltb da db = false).
    { destruct (sklearn.cell_ltb da db) eqn:L'; [|reflexivity].
      pose proof (kind_trans P K da db da Pda Pdb Pda L' L) as L2.
      rewrite (kind_irrefl P K da Pda) in L2. discriminate. }
    assert (E : sklearn.cell_eqb da db = false).
    { destruct (sklearn.cell_eqb da db) eqn:E; [|reflexivity].
      exfalso. apply (Hno db da Pdb Pda L). apply (kind_sym P K); auto. }
    rewrite L', E.
    split; split; intros H'; try lia; discriminate.
Qed.

(** The classes of a column whose present entries are of the kind [P]. *)
Lemma kind_classes (col : column) :
  forallb P (sklearn.present col) = true ->
  forallb P (sklearn.sorted (sklearn.distinct (sklearn.present col))) = true
  /\ increasing (sklearn.sorted (sklearn.distinct (sklearn.present col)))
  /\ (forall a, In a col -> isna a = false ->
        P a = true
        /\ exists d, In d (sklearn.sorted (sklearn.distinct (sklearn.present col)))
                     /\ sklearn.cell_eqb d a = true).
Proof.
  intros H.
  assert (Hd : forallb P (sklearn.distinct (sklearn.present col)) = true).
  { apply forallb_forall. intros c Hc. apply In_distinct_sub in Hc.
    exact (proj1 (forallb_forall _ _) H c Hc). }
  split; [apply sorted_kind; exact Hd|].
  split; [apply sorted_increasing_kind; [exact Hd | apply distinct_apart]|].
  intros a Ha Hna.
  assert (Hin : In a (sklearn.present col)).
  { unfold sklearn.present. apply filter_In. rewrite Hna. split; [exact Ha|].
    reflexivity. }
  split; [exact (proj1 (forallb_forall _ _) H a Hin)|].
  destruct (distinct_cover _ a H Hin) as [d [Hdin E]].
  exists d. split; [apply In_sorted; exact Hdin | exact E].
Qed.

Lemma kind_codes (col : column) :
  forallb P (sklearn.present col) = true ->
  (forall a b, In a col -> In b col -> isna a = false -> isna b = false ->
     (sklearn.cell_ltb a b = true <->
      (sklearn.index (sklearn.classes_of col) a
       < sklearn.index (sklearn.classes_of col) b)%Z)
     /\ (sklearn.cell_eqb a b = true <->
         sklearn.index (sklearn.classes_of col) a
         = sklearn.index (sklearn.classes_of col) b))
  /\ (forall a m, In a col -> In m col -> isna a = false -> isna m = true ->
        (sklearn.index (sklearn.classes_of col) a
         < sklearn.index (sklearn.classes_of col) m)%Z).
Proof.
  intros H. destruct (kind_classes col H) as [Hs [Hinc Hrep]].
  unfold sklearn.classes_of.
  set (ordered := sklearn.sorted (sklearn.distinct (sklearn.present col))) in *.
  set (missing := (if existsb (sklearn.cell_eqb VNone) col then [VNone] else [])
                  ++ (if existsb (sklearn.cell_eqb (VFloat NaN)) col
                      then [VFloat NaN] else [])).
  split.
  - intros a b Ha Hb Hna Hnb.
    destruct (Hrep a Ha Hna) as [Pa Ra]. destruct (Hrep b Hb Hnb) as [Pb Rb].
    rewrite (index_app_found ordered missing a Ra),
            (index_app_found ordered missing b Rb).
    exact (codes_order ordered a b Hs Hinc Pa Pb Ra Rb).
  - intros a m Ha Hm Hna Hnm.
    destruct (Hrep a Ha Hna) as [Pa Ra].
    rewrite (index_app_found ordered missing a Ra).
    rewrite (index_app_absent ordered missing m).
    + pose proof (proj1 (index_found ordered a Ra)).
      pose proof (index_nonneg missing m). lia.
    + intros d Hd. apply (kind_present P K); [|exact Hnm].
      exact (proj1 (forallb_forall _ _) Hs d Hd).
Qed.

End Kind.

(** ** Every categorical column *)

Lemma fit_transform_categorical (name : string) (col : column) :
  categorical col = true ->
  sklearn.fit_transform (mkSeries name col)
  = Ok (sklearn.mkLabelEncoder (sklearn.classes_of col),
        map (sklearn.index (sklearn.classes_of col)) col).
Proof.
  intros H. unfold sklearn.fit_transform, sklearn.unique. cbn [svalues].
  unfold categorical in H. rewrite H. reflexivity.
Qed.

Lemma categorical_codes (col : column) :
  categorical col = true ->
  (forall a b, In a col -> In b col -> isna a = false -> isna b = false ->
     (sklearn.cell_ltb a b = true <->
      (sklearn.index (sklearn.classes_of col) a
       < sklearn.index (sklearn.classes_of col) b)%Z)
     /\ (sklearn.cell_eqb a b = true <->
         sklearn.index (sklearn.classes_of col) a
         = sklearn.index (sklearn.classes_of col) b))
  /\ (forall a m, In a col -> In m col -> isna a = false -> isna m = true ->
        (sklearn.index (sklearn.classes_of col) a
         < sklearn.index (sklearn.classes_of col) m)%Z).
Proof.
  intros H. unfold categorical in H. apply orb_prop in H. destruct H as [H|H].
  - exact (kind_codes sklearn.is_str str_kind col H).
  - apply (kind_codes is_present_num num_kind col).
    apply forallb_forall. intros c Hc.
    pose proof (proj1 (forallb_forall _ _) H c Hc) as Hnum.
    unfold sklearn.present in Hc. apply filter_In in Hc. destruct Hc as [_ Hc].
    unfold is_present_num. rewrite Hnum, Hc. reflexivity.
Qed.

Lemma categorical_ints (ns : list Z) : categorical (map VInt ns) = true.
Proof.
  unfold categorical. apply orb_true_intro. right.
  apply forallb_forall. intros c Hc.
  unfold sklearn.present in Hc. apply filter_In in Hc. destruct Hc as [Hc _].
  apply in_map_iff in Hc. destruct Hc as [n [<- _]]. reflexivity.
Qed.

(** Encoding into another column twice is encoding once. *)
Lemma encode_step_twice (t : DataFrame) (f e : string) (b : column) :
  pd.labelled t f = [b] -> f <> e ->
  run_steps [steps.EncodeCategoricalFeature f e;
             steps.EncodeCategoricalFeature f e] t
  = run_steps [steps.EncodeCategoricalFeature f e] t.
Proof.
  intros Hb Hne. cbn [run_steps output target].
  rewrite (getitem_unique t f b Hb). cbn [rbind].
  destruct (sklearn.fit_transform (mkSeries f b)) as [fitted|e0] eqn:E;
    cbn [rbind]; [|reflexivity].
  rewrite (getitem_unique (pd.setitem t e (map VInt (snd fitted))) f b)
    by (rewrite labelled_setitem_other by exact Hne; exact Hb).
  cbn [rbind]. rewrite E. cbn [rbind]. rewrite setitem_setitem. reflexivity.
Qed.

(** C3.  The encoder numbers the distinct values of a categorical column
    in increasing order.  On x, y, x, z the codes are 0, 1, 0, 2 with the
    vocabulary x, y, z, by [Encoder] (under the name feature_b_encoded) as
    by [encode_feature]; on z, x, y, x they are 2, 0, 1, 0 with the same
    vocabulary, so the numbering is not by first occurrence; on the
    numbers -1, 10, 2, -1 they are 0, 2, 1, 0, the order of the numbers
    and not of their digits; missing entries come last, None before nan.
    For every categorical column, of strings or of numbers, with or
    without missing entries: the encoder succeeds, one value has a smaller
    code than another exactly when it is the smaller value, two values have
    the same code exactly when they are equal, and the missing entries
    have the largest codes; for integers the order is that of [Z].
    Running the encoder again on the same object gives the same series and
    changes nothing, and a step that encodes into another column leaves,
    run twice, what it leaves run once. *)
Theorem encode_sorted_order :
  (forall name,
     sklearn.fit_transform
       (mkSeries name [VStr "x"; VStr "y"; VStr "x"; VStr "z"])
     = Ok (sklearn.mkLabelEncoder [VStr "x"; VStr "y"; VStr "z"],
           [0; 1; 0; 2]%Z))
  /\ (forall name,
        single_responsibility_1.encode_feature
          (mkSeries name [VStr "x"; VStr "y"; VStr "x"; VStr "z"])
        = Ok (mkSeries name [VInt 0; VInt 1; VInt 0; VInt 2]))
  /\ (forall df w,
        pd.getitem (nth df (heap w) []) "feature_b"
        = Ok (mkSeries "feature_b" [VStr "x"; VStr "y"; VStr "x"; VStr "z"]) ->
        code_with_solid.Encoder df w
        = (Ok (mkSeries "feature_b_encoded" [VInt 0; VInt 1; VInt 0; VInt 2]), w))
  /\ (forall name,
        sklearn.fit_transform
          (mkSeries name [VStr "z"; VStr "x"; VStr "y"; VStr "x"])
        = Ok (sklearn.mkLabelEncoder [VStr "x"; VStr "y"; VStr "z"],
              [2; 0; 1; 0]%Z))
  /\ (forall name,
        sklearn.fit_transform
          (mkSeries name [VInt (-1); VInt 10; VInt 2; VInt (-1)])
        = Ok (sklearn.mkLabelEncoder [VInt (-1); VInt 2; VInt 10],
              [0; 2; 1; 0]%Z))
  /\ (forall name,
        sklearn.fit_transform
          (mkSeries name [VStr "y"; VFloat NaN; VNone; VStr "x"])
        = Ok (sklearn.mkLabelEncoder [VStr "x"; VStr "y"; VNone; VFloat NaN],
              [1; 3; 2; 0]%Z))
  /\ (forall name col, categorical col = true ->
        exists classes,
          sklearn.fit_transform (mkSeries name col)
          = Ok (sklearn.mkLabelEncoder classes, map (sklearn.index classes) col)
          /\ single_responsibility_1.encode_feature (mkSeries name col)
             = Ok (mkSeries name (map VInt (map (sklearn.index classes) col)))
          /\ (forall a b, In a col -> In b col ->
                isna a = false -> isna b = false ->
                (sklearn.cell_ltb a b = true <->
                 (sklearn.index classes a < sklearn.index classes b)%Z)
                /\ (sklearn.cell_eqb a b = true <->
                    sklearn.index classes a = sklearn.index classes b))
          /\ (forall a m, In a col -> In m col ->
                isna a = false -> isna m = true ->
                (sklearn.index classes a < sklearn.index classes m)%Z))
  /\ (forall name (ns : list Z),
        exists classes,
          sklearn.fit_transform (mkSeries name (map VInt ns))
          = Ok (sklearn.mkLabelEncoder classes,
                map (sklearn.index classes) (map VInt ns))
          /\ (forall m n, In m ns -> In n ns ->
                ((m < n)%Z <->
                 (sklearn.index classes (VInt m)
                  < sklearn.index classes (VInt n))%Z)))
  /\ (forall df w,
        snd (code_with_solid.Encoder df w) = w
        /\ code_with_solid.Encoder df (snd (code_with_solid.Encoder df w))
           = code_with_solid.Encoder df w)
  /\ (forall t f e b, pd.labelled t f = [b] -> f <> e ->
        run_steps [steps.EncodeCategoricalFeature f e;
                   steps.EncodeCategoricalFeature f e] t
        = run_steps [steps.EncodeCategoricalFeature f e] t).
Proof.
  split; [intros name; reflexivity|].
  split; [intros name; reflexivity|].
  split.
  { intros df w H. rewrite Encoder_run, H. reflexivity. }
  split; [intros name; reflexivity|].
  split; [intros name; reflexivity|].
  split; [intros name; reflexivity|].
  split.
  { intros name col Hcat. exists (sklearn.classes_of col).
    split; [apply fit_transform_categorical; exact Hcat|].
    split.
    { unfold single_responsibility_1.encode_feature.
      rewrite (fit_transform_categorical name col Hcat). reflexivity. }
    exact (categorical_codes col Hcat). }
  split.
  { intros name ns. exists (sklearn.classes_of (map VInt ns)).
    pose proof (categorical_ints ns) as Hcat.
    split; [apply fit_transform_categorical; exact Hcat|].
    intros m n Hm Hn.
    destruct (categorical_codes _ Hcat) as [H _].
    destruct (H (VInt m) (VInt n) (in_map VInt _ _ Hm) (in_map VInt _ _ Hn)
                eq_refl eq_refl) as [Hlt _].
    rewrite <- Hlt. cbn [sklearn.cell_ltb]. symmetry. apply Z.ltb_lt. }
  split.
  { intros df w. rewrite Encoder_run. cbn [snd]. split; [reflexivity|].
    apply Encoder_run. }
  intros t f e b. apply encode_step_twice.
Qed.
